(** * Cityscapes paired-image data preparation: a shallow embedding

    The development follows the three Python modules of the repository:

    - [src/data/transforms.py]          (module [Transforms])
    - [src/data/prepare_cityscapes.py]  (module [Prepare])
    - [src/data/dataset.py]             (module [Dataset])

    Python code that raises and mutates the outside world is written in a
    state-and-exception monad: a computation takes the state (the file
    system, or the random sources) and returns either a value or the raised
    exception, together with the state reached.  A raise keeps every
    effect that happened before it, as in Python.

    The imaging libraries (PIL, torchvision) are not part of the repository.
    Their size arithmetic, which is what the program relies on, is written
    out; their numeric kernels (resampling, colour and tensor conversion of
    exotic modes, lossy JPEG coding) are the fields of the class [Kernels].
    Tensor elements are single-precision numbers: every operation rounds
    its exact result to the nearest binary32 number. *)

From Stdlib Require Import ZArith QArith Lia Lqa Qround Qabs Qpower.
From Stdlib Require Floats.SpecFloat.
From Stdlib Require Import String Ascii.
From stdpp Require Import base option list gmap strings sorting.

Local Open Scope string_scope.
Local Open Scope list_scope.
Local Open Scope Z_scope.

(** ** Python exceptions and the monad *)

Module Py.

(** A path is the list of its components below the root ([pathlib]
    normalises separators away; there are no symbolic links here).  A
    component [..] is kept as it is written, as [pathlib] keeps it, and
    the file system below finds a node by the spelling of its path:
    what a run leaves alone at other paths is stated for paths without
    such components. *)
Abbreviation Path := (list string).

(** The message of an exception, one constructor per [raise] site. *)
Inductive Msg :=
| UnsupportedNormalizeMode (mode : string)
| CropLargerThanImage (th tw h w : Z)
| SizeMustBePositive
| ImageWidthNotDivisibleBy2 (img_path : Path)
| MissingSplitDirectory (split_dir : Path)
| NoJpgFilesFound (split_dir : Path)
| SplitNotFound (split : string) (split_index : Path)
| NoSuchFile (p : Path).

Inductive exn :=
| ValueError (m : Msg)
| FileNotFoundError (m : Msg)
| IndexError
| ZeroDivisionError
| RuntimeError
| IsADirectoryError (p : Path)
| NotADirectoryError (p : Path)
| FileExistsError (p : Path)
| UnidentifiedImageError (p : Path)
| JSONDecodeError (p : Path)
| UnicodeEncodeError.

Inductive result (A : Type) :=
| Ok (a : A)
| Raise (e : exn).
Arguments Ok {A} a.
Arguments Raise {A} e.

(** [M S A]: a computation over a state [S]. *)
Definition M (S A : Type) : Type := S -> result A * S.

Definition ret {S A} (a : A) : M S A := fun s => (Ok a, s).
Definition raise {S A} (e : exn) : M S A := fun s => (Raise e, s).
Definition bind {S A B} (m : M S A) (k : A -> M S B) : M S B :=
  fun s => match m s with
           | (Ok a, s') => k a s'
           | (Raise e, s') => (Raise e, s')
           end.
(** A pure computation that may raise. *)
Definition lift {S A} (r : result A) : M S A := fun s => (r, s).
(** Reading the state. *)
Definition get {S} : M S S := fun s => (Ok s, s).

(** [for x in l: body x] *)
Fixpoint for_each {S A} (l : list A) (body : A -> M S unit) : M S unit :=
  match l with
  | [] => ret tt
  | x :: l' => bind (body x) (fun _ => for_each l' body)
  end.

(** [for x in l: acc = body acc x], for a loop that updates a local
    variable. *)
Fixpoint for_fold {S A B} (l : list A) (acc : B) (body : B -> A -> M S B)
    : M S B :=
  match l with
  | [] => ret acc
  | x :: l' => bind (body acc x) (fun acc' => for_fold l' acc' body)
  end.

End Py.
Export Py.

Declare Scope py_scope.
Delimit Scope py_scope with py.
Notation "'let!' x ':=' m 'in' k" := (bind m (fun x => k))
  (at level 10, x pattern, m at level 100, k at level 200) : py_scope.
Notation "m ';;' k" := (bind m (fun _ => k))
  (at level 100, k at level 200, right associativity) : py_scope.
Local Open Scope py_scope.

(** ** Strings and paths ([str], [pathlib]) *)

Module PathLib.

(** [s.endswith(suffix)] *)
Definition endswith (s suffix : string) : bool :=
  let n := String.length s in
  let k := String.length suffix in
  (k <=? n)%nat && String.eqb (substring (n - k) k s) suffix.

(** [s.rfind(c)]: the index of the last occurrence of the character. *)
Fixpoint rfind (c : ascii) (s : string) : option nat :=
  match s with
  | EmptyString => None
  | String a s' =>
      match rfind c s' with
      | Some i => Some (S i)
      | None => if Ascii.eqb a c then Some 0%nat else None
      end
  end.

(** [PurePath.stem] of a file name: the name without its last suffix;
    a name whose only dot is the first or the last character has none. *)
Definition stem (name : string) : string :=
  match rfind "." name with
  | Some i =>
      if (0 <? i)%nat && (i <? String.length name - 1)%nat
      then substring 0 i name
      else name
  | None => name
  end.

(** [p.name]: the last component (empty for the root). *)
Definition name (p : Path) : string := List.last p "".

(** [p.parent]; the root is its own parent. *)
Definition parent (p : Path) : Path := removelast p.

(** [p / child] for a one-component child. *)
Definition child (p : Path) (c : string) : Path := p ++ [c].

(** The components of a string handed to [Path(...)]: split on the
    separator, empty and [.] components dropped. *)
Fixpoint split_slash (s : string) (cur : string) : list string :=
  match s with
  | EmptyString => [cur]
  | String a s' =>
      if Ascii.eqb a "/" then cur :: split_slash s' ""
      else split_slash s' (cur +:+ String a EmptyString)
  end.
Definition of_string (s : string) : Path :=
  List.filter (fun c => negb (String.eqb c "" || String.eqb c ".")) (split_slash s "").

(** Ordering of paths, as [PurePosixPath.__lt__]: the lists of
    components compared lexicographically, the components as strings. *)
Fixpoint compare (p q : Path) : comparison :=
  match p, q with
  | [], [] => Eq
  | [], _ :: _ => Lt
  | _ :: _, [] => Gt
  | a :: p', b :: q' =>
      match String.compare a b with
      | Eq => compare p' q'
      | c => c
      end
  end.
Definition leb (p q : Path) : bool :=
  match compare p q with Gt => false | _ => true end.
Definition le (p q : Path) : Prop := leb p q = true.

#[global] Instance le_dec p q : Decision (le p q).
Proof. unfold le. apply _. Defined.

(** [sorted(paths)] *)
Definition sorted (l : list Path) : list Path := merge_sort le l.

(** Whether a string, as a sequence of bytes, is valid UTF-8: what
    [str.encode("utf-8")] accepts of a file name the system handed over
    (a byte that is not part of a valid sequence is kept by Python as a
    lone surrogate, which cannot be encoded). *)
Definition continuation (b : Z) : bool := (128 <=? b) && (b <=? 191).
Definition byte (a : ascii) : Z := Z.of_N (N_of_ascii a).
Fixpoint utf8_valid (s : string) : bool :=
  match s with
  | EmptyString => true
  | String a s1 =>
      let b := byte a in
      if b <? 128 then utf8_valid s1
      else
        match s1 with
        | String a1 s2 =>
            let b1 := byte a1 in
            if (194 <=? b) && (b <=? 223) then continuation b1 && utf8_valid s2
            else
              match s2 with
              | String a2 s3 =>
                  let b2 := byte a2 in
                  if (224 <=? b) && (b <=? 239) then
                    (if b =? 224 then (160 <=? b1) && (b1 <=? 191)
                     else if b =? 237 then (128 <=? b1) && (b1 <=? 159)
                     else continuation b1)
                    && continuation b2 && utf8_valid s3
                  else
                    match s3 with
                    | String a3 s4 =>
                        let b3 := byte a3 in
                        if (240 <=? b) && (b <=? 244) then
                          (if b =? 240 then (144 <=? b1) && (b1 <=? 191)
                           else if b =? 244 then (128 <=? b1) && (b1 <=? 143)
                           else continuation b1)
                          && continuation b2 && continuation b3 && utf8_valid s4
                        else false
                    | EmptyString => false
                    end
              | EmptyString => false
              end
        | EmptyString => false
        end
  end.

End PathLib.

(** ** Single-precision numbers ([torch.float32]) *)

Module Float32.

(** A [float32]: a finite value, an infinity or NaN.  The sign of a zero
    is not kept: no operation of this program divides by a tensor element
    or looks at a sign bit. *)
Inductive f32 :=
| Finite (q : Q)
| Infinity (negative : bool)
| NaN.

(** [2^k], for any integer [k]. *)
Definition pow2 (k : Z) : Q := Qpower 2 k.

(** [floor (log2 x)] for a positive rational. *)
Definition ilog2 (x : Q) : Z :=
  let k := Z.log2 (Qnum x) - Z.log2 (Z.pos (Qden x)) in
  if Qle_bool (pow2 k) x then k else k - 1.

(** The nearest integer, a tie going to the even one. *)
Definition rne (y : Q) : Z :=
  let f := Qfloor y in
  match Qcompare (y - inject_Z f) (1 # 2) with
  | Lt => f
  | Gt => f + 1
  | Eq => if Z.even f then f else f + 1
  end.

(** The spacing of the binary32 numbers around [x]: 24 significant bits,
    and [2^-149] below the smallest normal number [2^-126]. *)
Definition quantum (x : Q) : Q :=
  pow2 (Z.max (ilog2 (Qabs x)) (-126) - 23).

(** The binary32 number nearest to [x], were the exponent unbounded
    above. *)
Definition round_to_grid (x : Q) : Q :=
  if Qeq_bool x 0 then 0%Q
  else Qred (inject_Z (rne (x / quantum x)) * quantum x).

Definition Qnegative (x : Q) : bool := negb (Qle_bool 0 x).

(** Rounding to nearest, ties to even; a result beyond the largest
    binary32 number is an infinity. *)
Definition round32 (x : Q) : f32 :=
  let r := round_to_grid x in
  if Qle_bool (pow2 128) (Qabs r) then Infinity (Qnegative x) else Finite r.

(** [float(z)] *)
Definition f32_of_Z (z : Z) : f32 := round32 (inject_Z z).

(** The four operations: the exact result, rounded. *)

Definition f32_add (a b : f32) : f32 :=
  match a, b with
  | NaN, _ | _, NaN => NaN
  | Infinity s, Infinity s' => if Bool.eqb s s' then Infinity s else NaN
  | Infinity s, Finite _ => Infinity s
  | Finite _, Infinity s => Infinity s
  | Finite x, Finite y => round32 (x + y)
  end.

Definition f32_sub (a b : f32) : f32 :=
  match a, b with
  | NaN, _ | _, NaN => NaN
  | Infinity s, Infinity s' => if Bool.eqb s s' then NaN else Infinity s
  | Infinity s, Finite _ => Infinity s
  | Finite _, Infinity s => Infinity (negb s)
  | Finite x, Finite y => round32 (x - y)
  end.

Definition f32_mul (a b : f32) : f32 :=
  match a, b with
  | NaN, _ | _, NaN => NaN
  | Infinity s, Infinity s' => Infinity (xorb s s')
  | Infinity s, Finite y | Finite y, Infinity s =>
      if Qeq_bool y 0 then NaN else Infinity (xorb s (Qnegative y))
  | Finite x, Finite y => round32 (x * y)
  end.

Definition f32_div (a b : f32) : f32 :=
  match a, b with
  | NaN, _ | _, NaN => NaN
  | Infinity _, Infinity _ => NaN
  | Infinity s, Finite y => Infinity (xorb s (Qnegative y))
  | Finite _, Infinity _ => Finite 0
  | Finite x, Finite y =>
      if Qeq_bool y 0 then
        if Qeq_bool x 0 then NaN else Infinity (Qnegative x)
      else round32 (x / y)
  end.

(** The constant [0.5]. *)
Definition half : f32 := Finite (1 # 2).

End Float32.
Export Float32.

(** The same chain of operations in the Standard Library's specification
    of IEEE 754 numbers ([SpecFloat], precision 24, exponent bound 128),
    against which the operations above are compared. *)
Module Binary32.
Import SpecFloat.

Definition of_Z (z : Z) : spec_float := binary_normalize 24 128 z 0 false.

Definition same (a : f32) (b : spec_float) : bool :=
  match a, b with
  | Finite q, S754_zero _ => Qeq_bool q 0
  | Finite q, S754_finite s m e =>
      Qeq_bool q ((if s then -1 else 1) * inject_Z (Z.pos m) * pow2 e)%Q
  | Infinity s, S754_infinity s' => Bool.eqb s s'
  | NaN, S754_nan => true
  | _, _ => false
  end.

(** The byte [k] turned into a tensor element, normalised in mode [tanh]
    and mapped back, in both models. *)
Definition byte_chain_agrees (k : Z) : bool :=
  let h := SFdiv 24 128 (of_Z 1) (of_Z 2) in
  let v := f32_div (f32_of_Z k) (f32_of_Z 255) in
  let v' := SFdiv 24 128 (of_Z k) (of_Z 255) in
  let n := f32_div (f32_sub v half) half in
  let n' := SFdiv 24 128 (SFsub 24 128 v' h) h in
  let r := f32_add (f32_mul n half) half in
  let r' := SFadd 24 128 (SFmul 24 128 n' h) h in
  same half h && same v v' && same n n' && same r r'.

End Binary32.

(** ** Images ([PIL.Image]) and tensors ([torch.Tensor]) *)

Module Imaging.

(** The mode of an image: [L] (one 8-bit band), [RGB], or another mode,
    given by its name and number of bands. *)
Inductive Mode :=
| ModeL
| ModeRGB
| ModeOther (mode_name : string) (nbands : Z).

Definition bands (m : Mode) : Z :=
  match m with
  | ModeL => 1
  | ModeRGB => 3
  | ModeOther _ n => n
  end.

(** A pixel: the values of its bands. *)
Definition Pixel := list Z.

(** An image: its mode, its size and its raster, read at column [x] and
    row [y] ([Image.getpixel((x, y))]) for [0 <= x < width] and
    [0 <= y < height]. *)
Record Image := mkImage {
  mode : Mode;
  width : Z;
  height : Z;
  getpixel : Z -> Z -> Pixel
}.

(** [img.size] *)
Definition img_size (im : Image) : Z * Z := (width im, height im).

(** The numeric kernels of the imaging libraries. *)
Class Kernels := {
  (** conversion of one pixel of a mode other than [L] and [RGB] to RGB *)
  other_to_rgb : string -> Pixel -> Pixel;
  (** the tensor element [to_tensor] makes of band [c] of one pixel of a
      mode other than [L] and [RGB] (divided by 255 for the 8-bit modes,
      kept as it is for [I] and [I;16]) *)
  other_to_tensor : string -> Pixel -> Z -> f32;
  (** bicubic resampling of an image to a new width and height *)
  bicubic : Image -> Z -> Z -> (Z -> Z -> Pixel);
  (** the raster a JPEG file gives back for the image that was encoded *)
  jpeg_lossy : Image -> (Z -> Z -> Pixel)
}.

(** File formats of [Image.save]. *)
Inductive Format := JPEG | PNG.

(** [img.crop((left, upper, right, lower))]: the pixels of the box, for a
    box with [left <= right] and [upper <= lower] that lies inside the
    image, as the two halves of a source image do, and a crop window of a
    size that is not negative which [get_params] has checked against the
    photo, applied to a label of the same size.  For another box PIL
    raises [ValueError] (right below left, lower below upper) or pads
    with zeros (outside the raster); neither is written out here, and
    what is proved of a crop is proved of boxes of the first kind. *)
Definition crop (im : Image) (box : Z * Z * Z * Z) : Image :=
  let '(x0, y0, x1, y1) := box in
  {| mode := mode im;
     width := x1 - x0;
     height := y1 - y0;
     getpixel := fun x y => getpixel im (x0 + x) (y0 + y) |}.

Section WithKernels.
Context {K : Kernels}.

Definition to_rgb (m : Mode) (p : Pixel) : Pixel :=
  match m with
  | ModeRGB => p
  | ModeL => let v := List.nth 0 p 0 in [v; v; v]
  | ModeOther n _ => other_to_rgb n p
  end.

(** [img.convert("RGB")]: an RGB image is copied, any other mode is
    converted pixel by pixel. *)
Definition convert_RGB (im : Image) : Image :=
  match mode im with
  | ModeRGB => im
  | m => {| mode := ModeRGB;
            width := width im;
            height := height im;
            getpixel := fun x y => to_rgb m (getpixel im x y) |}
  end.

(** What a file written by [img.save(path, format=...)] decodes to:
    PNG is lossless, JPEG keeps mode and size. *)
Definition encoded (fmt : Format) (im : Image) : Image :=
  match fmt with
  | PNG => im
  | JPEG => {| mode := mode im;
               width := width im;
               height := height im;
               getpixel := jpeg_lossy im |}
  end.

End WithKernels.

(** A tensor of shape [(channels, rows, cols)] ([C x H x W]) with
    elements of type [float32]. *)
Record Tensor := mkTensor {
  channels : Z;
  rows : Z;
  cols : Z;
  item : Z -> Z -> Z -> f32
}.

Definition shape (t : Tensor) : Z * Z * Z := (channels t, rows t, cols t).

(** Elementwise application, as the broadcast arithmetic of torch. *)
Definition tmap (f : f32 -> f32) (t : Tensor) : Tensor :=
  {| channels := channels t;
     rows := rows t;
     cols := cols t;
     item := fun c y x => f (item t c y x) |}.

End Imaging.
Export Imaging.

(** ** The random sources *)

Module Random.

(** The two process-wide generators the transform draws from: the one of
    torch (crop offsets) and the one of Python's [random] (flip).  Each
    is the sequence of raw draws still to come, zeros once the list is
    used up; an arbitrary sequence stands for an arbitrary seed. *)
Record Rng := mkRng {
  torch_draws : list Z;
  python_draws : list Z
}.

(** [torch.randint(0, high, size=(1,)).item()]: uniform in [[0, high)];
    torch refuses an empty range. *)
Definition torch_randint (high : Z) : M Rng Z :=
  fun g =>
    if high <=? 0 then (Raise RuntimeError, g)
    else (Ok (List.hd 0 (torch_draws g) mod high),
          {| torch_draws := List.tl (torch_draws g);
             python_draws := python_draws g |}).

(** [random.random()]: a float [k / 2^53] with [0 <= k < 2^53]. *)
Definition random_random : M Rng Q :=
  fun g =>
    (Ok (Qmake (List.hd 0 (python_draws g) mod 2 ^ 53) (2 ^ 53)),
     {| torch_draws := torch_draws g;
        python_draws := List.tl (python_draws g) |}).

Definition Qltb (a b : Q) : bool := negb (Qle_bool b a).

End Random.
Export Random.

(** ** torchvision: [transforms.functional] and [RandomCrop.get_params] *)

Module F.
Section WithKernels.
Context {K : Kernels}.

(** [F.resize(img, size)] with an integer [size]: the shorter edge
    becomes [size] and the longer edge [int(size * long / short)]; an
    image that already has that size is returned as it is; PIL refuses
    a size below one. *)
Definition resize (img : Image) (size : Z) : result Image :=
  let w := width img in
  let h := height img in
  let '(short, long) := if w <=? h then (w, h) else (h, w) in
  if short =? 0 then Raise ZeroDivisionError
  else
    let new_short := size in
    let new_long := Z.quot (size * long) short in
    let '(new_w, new_h) :=
      if w <=? h then (new_short, new_long) else (new_long, new_short) in
    if (h =? new_h) && (w =? new_w) then Ok img
    else if (new_w <? 1) || (new_h <? 1) then Raise (ValueError SizeMustBePositive)
    else Ok {| mode := mode img;
               width := new_w;
               height := new_h;
               getpixel := bicubic img new_w new_h |}.

End WithKernels.

(** [F.crop(img, top, left, height, width)] *)
Definition crop (img : Image) (top left h w : Z) : Image :=
  Imaging.crop img (left, top, left + w, top + h).

(** [F.hflip(img)]: columns mirrored. *)
Definition hflip (img : Image) : Image :=
  {| mode := mode img;
     width := width img;
     height := height img;
     getpixel := fun x y => getpixel img (width img - 1 - x) y |}.

Section WithKernels.
Context {K : Kernels}.

(** [F.to_tensor(pic)]: channel-first; the bytes of an [L] or [RGB]
    image are converted to [float32] and divided by 255. *)
Definition to_tensor (pic : Image) : Tensor :=
  {| channels := bands (mode pic);
     rows := height pic;
     cols := width pic;
     item := fun c y x =>
       match mode pic with
       | ModeOther n _ => other_to_tensor n (getpixel pic x y) c
       | _ =>
           f32_div (f32_of_Z (List.nth (Z.to_nat c) (getpixel pic x y) 0))
             (f32_of_Z 255)
       end |}.

End WithKernels.

(** [transforms.RandomCrop.get_params(img, output_size=(th, tw))] *)
Definition get_params (img : Image) (output_size : Z * Z) : M Rng (Z * Z * Z * Z) :=
  let h := height img in
  let w := width img in
  let '(th, tw) := output_size in
  if (h <? th) || (w <? tw) then
    raise (ValueError (CropLargerThanImage th tw h w))
  else if (w =? tw) && (h =? th) then
    ret (0, 0, h, w)
  else
    let! i := torch_randint (h - th + 1) in
    let! j := torch_randint (w - tw + 1) in
    ret (i, j, th, tw).

End F.

(** ** [src/data/transforms.py] *)

Module Transforms.

(** [normalize_photo(t, mode)] *)
Definition normalize_photo (t : Tensor) (mode : string) : result Tensor :=
  if String.eqb mode "tanh" then
    Ok (tmap (fun x => f32_div (f32_sub x half) half) t)
  else if String.eqb mode "01" then
    Ok t
  else Raise (ValueError (UnsupportedNormalizeMode mode)).

(** [_random_crop_pair(label, photo, size)] *)
Definition _random_crop_pair (label photo : Image) (size : Z) : M Rng (Image * Image) :=
  let! (i, j, h, w) := F.get_params photo (size, size) in
  let label := F.crop label i j h w in
  let photo := F.crop photo i j h w in
  ret (label, photo).

Section WithKernels.
Context {K : Kernels}.

(** [build_transform(image_size, jitter, normalize_mode, horizontal_flip)]
    returns the closure [_transform(label, photo)]. *)
Definition build_transform (image_size : Z) (jitter : bool)
    (normalize_mode : string) (horizontal_flip : bool)
    : Image -> Image -> M Rng (Tensor * Tensor) :=
  let _transform := fun (label photo : Image) =>
    let! (label, photo) :=
      (if jitter then
         let! label := lift (F.resize label 286) in
         let! photo := lift (F.resize photo 286) in
         _random_crop_pair label photo image_size
       else
         let! label := lift (F.resize label image_size) in
         let! photo := lift (F.resize photo image_size) in
         ret (label, photo)) in
    let! flip :=
      (if horizontal_flip then
         let! r := random_random in ret (Qltb r (1 # 2))
       else ret false) in
    let '(label, photo) :=
      if flip then (F.hflip label, F.hflip photo) else (label, photo) in
    let label_t := F.to_tensor label in
    let photo_t := F.to_tensor photo in
    let! photo_t := lift (normalize_photo photo_t normalize_mode) in
    ret (label_t, photo_t)
  in _transform.

End WithKernels.

End Transforms.

(** ** The file system *)

Module FileSystem.

(** What a file holds: an image file (its format and the image it decodes
    to), a JSON object whose values are lists of strings (the split
    index), or anything else. *)
Inductive FileData :=
| ImageFile (fmt : Format) (im : Image)
| JsonFile (payload : list (string * list string))
| OtherFile.

Inductive Node :=
| Dir
| File (d : FileData).

(** The file system: the node at every path that exists.  The root
    always exists and is a directory. *)
Abbreviation FS := (gmap Path Node).

Definition node_at (fs : FS) (p : Path) : option Node :=
  match p with
  | [] => Some Dir
  | _ => fs !! p
  end.

(** [p.exists()] *)
Definition path_exists (fs : FS) (p : Path) : bool :=
  match node_at fs p with Some _ => true | None => false end.

(** [p.is_dir()] *)
Definition is_dir (fs : FS) (p : Path) : bool :=
  match node_at fs p with Some Dir => true | _ => false end.

(** [p.mkdir(parents=True, exist_ok=True)]: every missing directory on the
    way down is created; a file on the way is an error that names the
    directory asked for, and since a file has nothing below it, the error
    comes before anything is created. *)
Fixpoint mkdir_walk (pre : Path) (todo : list string) (fs : FS) : result FS :=
  match todo with
  | [] => Ok fs
  | c :: rest =>
      let d := pre ++ [c] in
      match fs !! d with
      | Some (File _) =>
          Raise (match rest with
                 | [] => FileExistsError d
                 | _ => NotADirectoryError (pre ++ c :: rest)
                 end)
      | Some Dir => mkdir_walk d rest fs
      | None => mkdir_walk d rest (<[d := Dir]> fs)
      end
  end.

Definition mkdir_parents (p : Path) : M FS unit :=
  fun fs =>
    match mkdir_walk [] p fs with
    | Ok fs' => (Ok tt, fs')
    | Raise e => (Raise e, fs)
    end.

(** Whether a file stands above [pre ++ todo], at [pre ++ todo'] for a
    proper prefix [todo'] of [todo] that is not empty. *)
Fixpoint file_above (pre : Path) (todo : list string) (fs : FS) : bool :=
  match todo with
  | [] | [_] => false
  | c :: rest =>
      match fs !! (pre ++ [c]) with
      | Some (File _) => true
      | _ => file_above (pre ++ [c]) rest fs
      end
  end.

(** The error of opening a path that does not exist: a file on the way
    to it is no directory. *)
Definition missing (fs : FS) (p : Path) : exn :=
  if file_above [] p fs then NotADirectoryError p
  else FileNotFoundError (NoSuchFile p).

(** Opening [p] for writing and storing [d]: the parent must be a
    directory and [p] must not be one. *)
Definition write_file (p : Path) (d : FileData) : M FS unit :=
  fun fs =>
    match node_at fs p with
    | Some Dir => (Raise (IsADirectoryError p), fs)
    | _ =>
        match node_at fs (PathLib.parent p) with
        | Some Dir => (Ok tt, <[p := File d]> fs)
        | Some (File _) => (Raise (NotADirectoryError p), fs)
        | None => (Raise (missing fs p), fs)
        end
    end.

(** [Image.open(p)] *)
Definition open_image (fs : FS) (p : Path) : result Image :=
  match node_at fs p with
  | Some (File (ImageFile _ im)) => Ok im
  | Some (File _) => Raise (UnidentifiedImageError p)
  | Some Dir => Raise (IsADirectoryError p)
  | None => Raise (missing fs p)
  end.

Definition Image_open (p : Path) : M FS Image :=
  fun fs => (open_image fs p, fs).

(** [json.load(open(p))] *)
Definition json_load (fs : FS) (p : Path) : result (list (string * list string)) :=
  match node_at fs p with
  | Some (File (JsonFile payload)) => Ok payload
  | Some (File _) => Raise (JSONDecodeError p)
  | Some Dir => Raise (IsADirectoryError p)
  | None => Raise (missing fs p)
  end.

(** The entries of directory [d]: the paths one component below it. *)
Definition is_entry (d p : Path) : Prop := p <> [] /\ PathLib.parent p = d.

#[global] Instance is_entry_dec d p : Decision (is_entry d p).
Proof. unfold is_entry. apply _. Defined.

(** [d.glob("*" + suffix)]: the entries of [d] whose name ends with
    [suffix], in whatever order the system lists them; nothing when [d]
    is not a directory. *)
Definition glob_match (d : Path) (suffix : string) (p : Path) : Prop :=
  is_entry d p /\ PathLib.endswith (PathLib.name p) suffix = true.

#[global] Instance glob_match_dec d suffix p : Decision (glob_match d suffix p).
Proof. unfold glob_match. apply _. Defined.

Definition glob_star (fs : FS) (d : Path) (suffix : string) : list Path :=
  if is_dir fs d then filter (glob_match d suffix) (fst <$> map_to_list fs)
  else [].

Section WithKernels.
Context {K : Kernels}.

(** [img.save(p, format=fmt)] *)
Definition Image_save (img : Image) (p : Path) (fmt : Format) : M FS unit :=
  write_file p (ImageFile fmt (encoded fmt img)).

End WithKernels.

End FileSystem.
Export FileSystem.

(** ** Python dictionaries and lists *)

Module Dict.

(** A [dict] with string keys, in insertion order. *)
Abbreviation dict V := (list (string * V)).

Fixpoint dict_get {V} (d : dict V) (k : string) : option V :=
  match d with
  | [] => None
  | (k', v) :: d' => if String.eqb k' k then Some v else dict_get d' k
  end.

(** [d[k] = v] *)
Fixpoint dict_set {V} (d : dict V) (k : string) (v : V) : dict V :=
  match d with
  | [] => [(k, v)]
  | (k', v') :: d' =>
      if String.eqb k' k then (k', v) :: d' else (k', v') :: dict_set d' k v
  end.

(** [k in d] *)
Definition dict_mem {V} (d : dict V) (k : string) : bool :=
  match dict_get d k with Some _ => true | None => false end.

(** [l[idx]] on a list: a negative index counts from the end. *)
Definition list_getitem {A} (l : list A) (idx : Z) : result A :=
  let n := Z.of_nat (length l) in
  let i := if idx <? 0 then idx + n else idx in
  if (i <? 0) || (n <=? i) then Raise IndexError
  else match l !! Z.to_nat i with
       | Some x => Ok x
       | None => Raise IndexError
       end.

End Dict.
Export Dict.

(** ** [src/data/prepare_cityscapes.py] *)

Module Prepare.
Import PathLib.

Section WithKernels.
Context {K : Kernels}.

(** [split_and_save(img_path, photo_path, label_path, overwrite)] *)
Definition split_and_save (img_path photo_path label_path : Path)
    (overwrite : bool) : M FS unit :=
  let! fs := get in
  if negb overwrite && path_exists fs photo_path && path_exists fs label_path then
    ret tt
  else
    let! img := Image_open img_path in
    let '(width, height) := img_size img in
    if negb (width mod 2 =? 0) then
      raise (ValueError (ImageWidthNotDivisibleBy2 img_path))
    else
      let mid := width / 2 in
      let photo := convert_RGB (Imaging.crop img (0, 0, mid, height)) in
      let label := convert_RGB (Imaging.crop img (mid, 0, width, height)) in
      mkdir_parents (parent photo_path) ;;
      mkdir_parents (parent label_path) ;;
      Image_save photo photo_path JPEG ;;
      Image_save label label_path PNG.

(** The body of the loop of [collect_files] for one split. *)
Definition collect_split (raw_dir : Path) (splits : dict (list Path))
    (split : string) : M FS (dict (list Path)) :=
  let split_dir := child raw_dir split in
  let! fs := get in
  if negb (path_exists fs split_dir) then
    raise (FileNotFoundError (MissingSplitDirectory split_dir))
  else
    let files := sorted (glob_star fs split_dir ".jpg") in
    match files with
    | [] => raise (FileNotFoundError (NoJpgFilesFound split_dir))
    | _ => ret (dict_set splits split files)
    end.

(** [collect_files(raw_dir)] *)
Definition collect_files (raw_dir : Path) : M FS (dict (list Path)) :=
  let splits := [] in
  let! splits := for_fold ["train"; "val"] splits (collect_split raw_dir) in
  ret splits.

(** Whether [json.dump(payload, f, ensure_ascii=False)] can encode
    every string of the payload for the UTF-8 file [f]. *)
Definition encodable (payload : dict (list string)) : bool :=
  forallb (fun kv => utf8_valid (fst kv) && forallb utf8_valid (snd kv)) payload.

(** [write_split_file(split_file, splits)]: the file is opened, which
    creates or empties it, and then written; a name that cannot be
    encoded stops the writing and leaves a broken file. *)
Definition write_split_file (split_file : Path) (splits : dict (list Path))
    : M FS unit :=
  mkdir_parents (parent split_file) ;;
  let payload := List.map (fun kv => (fst kv, List.map name (snd kv))) splits in
  if encodable payload then write_file split_file (JsonFile payload)
  else (write_file split_file OtherFile ;; raise UnicodeEncodeError).

(** The destinations of one source file. *)
Definition photo_dest (out_dir : Path) (split : string) (img_path : Path) : Path :=
  child (child (child out_dir split) "photo") (stem (name img_path) +:+ "_photo.jpg").
Definition label_dest (out_dir : Path) (split : string) (img_path : Path) : Path :=
  child (child (child out_dir split) "label") (stem (name img_path) +:+ "_label.png").

(** [process_dataset(raw_dir, out_dir, overwrite)] *)
Definition process_dataset (raw_dir out_dir : Path) (overwrite : bool)
    : M FS (dict (list Path)) :=
  let! splits := collect_files raw_dir in
  for_each splits (fun kv =>
    let '(split, files) := kv in
    for_each files (fun img_path =>
      let photo_path := photo_dest out_dir split img_path in
      let label_path := label_dest out_dir split img_path in
      split_and_save img_path photo_path label_path overwrite)) ;;
  ret splits.

(** [main()] after argument parsing: the split, then the index. *)
Definition main (raw_dir out_dir split_file : Path) (overwrite : bool) : M FS unit :=
  let! splits := process_dataset raw_dir out_dir overwrite in
  write_split_file split_file splits.

End WithKernels.

End Prepare.

(** ** [src/data/dataset.py] *)

Module Dataset.
Import PathLib.

(** What a sample holds under [label] and [photo]: the images as
    loaded, or whatever the transform returned (tensors, for the
    transform of this repository). *)
Inductive PyVal :=
| VImage (im : Image)
| VTensor (t : Tensor).

Record Sample := mkSample {
  label : PyVal;
  photo : PyVal;
  name : string
}.

Record CityscapesDataset := mkDataset {
  root : Path;
  split : string;
  transform : option (Image -> Image -> M Rng (PyVal * PyVal));
  files : list string;
  photo_dir : Path;
  label_dir : Path
}.

(** [p / s] for a string [s]: an absolute [s] replaces [p]. *)
Definition joinpath (p : Path) (s : string) : Path :=
  if String.prefix "/" s then of_string s else p ++ of_string s.

(** [CityscapesDataset(root, split, split_index, transform)] *)
Definition __init__ (root : Path) (split : string) (split_index : Path)
    (transform : option (Image -> Image -> M Rng (PyVal * PyVal)))
    : M FS CityscapesDataset :=
  let! fs := get in
  let! splits := lift (json_load fs split_index) in
  match dict_get splits split with
  | None => raise (ValueError (SplitNotFound split split_index))
  | Some files =>
      ret {| root := root;
             split := split;
             transform := transform;
             files := files;
             photo_dir := joinpath (joinpath (child root "processed") split) "photo";
             label_dir := joinpath (joinpath (child root "processed") split) "label" |}
  end.

(** [len(dataset)] *)
Definition __len__ (self : CityscapesDataset) : Z :=
  Z.of_nat (length (files self)).

Section WithKernels.
Context {K : Kernels}.

(** [dataset[idx]]; the files are read from [fs], the transform draws
    from the random sources. *)
Definition __getitem__ (self : CityscapesDataset) (fs : FS) (idx : Z)
    : M Rng Sample :=
  let! name := lift (list_getitem (files self) idx) in
  let stem := stem (PathLib.name (of_string name)) in
  let photo_path := joinpath (photo_dir self) (stem +:+ "_photo.jpg") in
  let label_path := joinpath (label_dir self) (stem +:+ "_label.png") in
  let! photo := lift (open_image fs photo_path) in
  let photo := convert_RGB photo in
  let! label := lift (open_image fs label_path) in
  let label := convert_RGB label in
  let! (label, photo) :=
    match transform self with
    | Some f => f label photo
    | None => ret (VImage label, VImage photo)
    end in
  ret {| label := label; photo := photo; name := name |}.

End WithKernels.

End Dataset.

(** ** Notions used to state the properties *)

Module Props.
Import PathLib.

(** The size [F.resize] gives an image of size [w] x [h]. *)
Definition resized_size (w h size : Z) : Z * Z :=
  if w <=? h then (size, Z.quot (size * h) w) else (Z.quot (size * w) h, size).

(** Both outputs are returned and are [image_size] x [image_size]. *)
Definition square_output (image_size : Z) (r : result (Tensor * Tensor)) : Prop :=
  exists label_t photo_t, r = Ok (label_t, photo_t)
    /\ (rows label_t, cols label_t) = (image_size, image_size)
    /\ (rows photo_t, cols photo_t) = (image_size, image_size).

(** The directories [mkdir_walk pre todo] visits, top down. *)
Fixpoint mkdir_chain (pre : Path) (todo : list string) : list Path :=
  match todo with
  | [] => []
  | c :: rest => (pre ++ [c]) :: mkdir_chain (pre ++ [c]) rest
  end.

Definition is_file (fs : FS) (p : Path) : bool :=
  match fs !! p with Some (File _) => true | _ => false end.

(** No file stands where [p.mkdir(parents=True)] needs a directory. *)
Definition can_mkdir (fs : FS) (p : Path) : bool :=
  forallb (fun d => negb (is_file fs d)) (mkdir_chain [] p).

(** [p] can be written once the parents of [p] and of [q] are made: its
    parent can be made, and [p] is not a directory, neither now nor
    after the parent of [q] is made. *)
Definition can_write (fs : FS) (p q : Path) : bool :=
  can_mkdir fs (parent p) && negb (is_dir fs p)
  && negb (bool_decide (p ∈ mkdir_chain [] (parent q))).

(** The skip test of [split_and_save]. *)
Definition skips (fs : FS) (photo_path label_path : Path) (overwrite : bool) : bool :=
  negb overwrite && path_exists fs photo_path && path_exists fs label_path.

Section WithKernels.
Context {K : Kernels}.

(** The two images [split_and_save] cuts out of a source image. *)
Definition photo_half (img : Image) : Image :=
  convert_RGB (Imaging.crop img (0, 0, width img / 2, height img)).
Definition label_half (img : Image) : Image :=
  convert_RGB (Imaging.crop img (width img / 2, 0, width img, height img)).

End WithKernels.

(** Ascending order of file names. *)
Definition by_name (p q : Path) : Prop :=
  String.leb (name p) (name q) = true.

(** [l] lists the entries of directory [d] that end in [.jpg]: all of
    them, each once, in ascending order of file name (every element
    comes before all the later ones). *)
Definition lists_jpgs (fs : FS) (d : Path) (l : list Path) : Prop :=
  StronglySorted by_name l
  /\ NoDup l
  /\ forall p, p ∈ l <->
       is_Some (fs !! p) /\ is_entry d p /\ endswith (name p) ".jpg" = true.

(** [names] holds the file names of the [.jpg] entries of directory
    [d]: every one of them, each once. *)
Definition indexes_jpgs (fs : FS) (d : Path) (names : list string) : Prop :=
  NoDup names
  /\ forall n, n ∈ names <->
       is_Some (fs !! child d n) /\ endswith n ".jpg" = true.

(** What [mkdir_walk] leaves at [p]: what was there, or a new directory
    when [p] is on the chain and nothing was there. *)
Definition made (fs : FS) (chain : list Path) (p : Path) : option Node :=
  match fs !! p with
  | Some n => Some n
  | None => if decide (p ∈ chain) then Some Dir else None
  end.

(** Every path that exists in [fs] exists in [fs']. *)
Definition grows (fs fs' : FS) : Prop :=
  forall p, path_exists fs p = true -> path_exists fs' p = true.

(** Both destinations of a source file exist. *)
Definition has_outputs (fs : FS) (out_dir : Path) (split : string) (img_path : Path) : Prop :=
  path_exists fs (Prepare.photo_dest out_dir split img_path) = true
  /\ path_exists fs (Prepare.label_dest out_dir split img_path) = true.

(** The output of every file of the split mapping exists: the tree is
    already processed. *)
Definition processed (fs : FS) (out_dir : Path) (splits : dict (list Path)) : Prop :=
  forall split files img_path,
    (split, files) ∈ splits -> img_path ∈ files ->
    has_outputs fs out_dir split img_path.

(** From [fs] to [fs']: every node stays, a directory stays a
    directory, and every new path satisfies [T]. *)
Definition touches (T : Path -> Prop) (fs fs' : FS) : Prop :=
  (forall p n, fs !! p = Some n ->
     exists n', fs' !! p = Some n' /\ (n = Dir -> n' = Dir))
  /\ (forall p, fs !! p = None -> is_Some (fs' !! p) -> T p).

(** The paths [process_dataset] may create for the output directory
    [out_dir]: [out_dir] and the directories above it, [out_dir/s],
    [out_dir/s/photo], [out_dir/s/label] and the files in these two. *)
Definition under_output (out_dir : Path) (p : Path) : Prop :=
  p `prefix_of` out_dir
  \/ exists s, p = out_dir ++ [s]
       \/ exists k, (k = "photo" \/ k = "label")
            /\ (p = out_dir ++ [s; k] \/ exists f, p = out_dir ++ [s; k; f]).

(** The output directory is not the directory [raw_dir/split] nor
    inside it. *)
Definition outside_split (raw_dir out_dir : Path) (split : string) : Prop :=
  ~ child raw_dir split `prefix_of` out_dir.

End Props.
Import Props.

(** ** Sample data: a stand-in for the kernels, small images, small trees *)

Module Samples.
Import PathLib.

(** Nearest-neighbour resampling, band truncation, plain conversion of
    a band to [float32] and an identity codec stand in for the kernels
    where a concrete run is needed. *)
#[export] Instance toy_kernels : Kernels := {|
  other_to_rgb := fun _ p => List.firstn 3 p;
  other_to_tensor := fun _ p c => f32_of_Z (List.nth (Z.to_nat c) p 0);
  bicubic := fun im w h x y => getpixel im (x * width im / w) (y * height im / h);
  jpeg_lossy := fun im => getpixel im
|}.

(** An RGB image whose pixel at [(x, y)] is [(x, y, 0)]. *)
Definition gradient (w h : Z) : Image :=
  {| mode := ModeRGB; width := w; height := h;
     getpixel := fun x y => [x mod 256; y mod 256; 0] |}.

Definition rng0 : Rng := {| torch_draws := [7; 11]; python_draws := [1] |}.

(** [raw/train/1.jpg] (4 x 2) and [raw/val/2.jpg] (6 x 3). *)
Definition raw_tree : FS :=
  <[ ["raw"; "val"; "2.jpg"] := File (ImageFile JPEG (gradient 6 3)) ]>
  (<[ ["raw"; "train"; "1.jpg"] := File (ImageFile JPEG (gradient 4 2)) ]>
  (<[ ["raw"; "val"] := Dir ]>
  (<[ ["raw"; "train"] := Dir ]>
  (<[ ["raw"] := Dir ]> ∅)))).

(** [raw/train/3.jpg] has the odd width 5. *)
Definition odd_tree : FS :=
  <[ ["raw"; "train"; "3.jpg"] := File (ImageFile JPEG (gradient 5 2)) ]> raw_tree.

(** [raw/train] and [raw/val] each hold a file called [1.jpg]. *)
Definition same_name_tree : FS :=
  <[ ["raw"; "val"; "1.jpg"] := File (ImageFile JPEG (gradient 6 3)) ]>
  (<[ ["raw"; "train"; "1.jpg"] := File (ImageFile JPEG (gradient 4 2)) ]>
  (<[ ["raw"; "val"] := Dir ]>
  (<[ ["raw"; "train"] := Dir ]>
  (<[ ["raw"] := Dir ]> ∅)))).


Definition out_dir : Path := ["data"; "processed"].
Definition split_file : Path := ["data"; "splits"; "cityscapes_split_seed42.json"].

(** The tree after [main] has run over [raw_tree]. *)
Definition prepared_tree : FS :=
  snd (Prepare.main ["raw"] out_dir split_file false raw_tree).

(** [raw_tree] with the photo of [1.jpg] already there, holding
    something else, and its label missing. *)
Definition half_done_tree : FS :=
  <[ Prepare.photo_dest out_dir "train" ["raw"; "train"; "1.jpg"]
       := File (ImageFile JPEG (gradient 9 9)) ]>
  (<[ out_dir ++ ["train"; "photo"] := Dir ]>
  (<[ out_dir ++ ["train"] := Dir ]>
  (<[ out_dir := Dir ]>
  (<[ ["data"] := Dir ]> raw_tree)))).

(** The dataset [__init__] builds for split [train] of [prepared_tree]. *)
Definition train_set : Dataset.CityscapesDataset :=
  {| Dataset.root := ["data"];
     Dataset.split := "train";
     Dataset.transform := None;
     Dataset.files := ["1.jpg"];
     Dataset.photo_dir := ["data"; "processed"; "train"; "photo"];
     Dataset.label_dir := ["data"; "processed"; "train"; "label"] |}.

End Samples.

(** ** Notions used to state the further properties *)

Module Frames.
Import PathLib.

(** A file name as a file system has it: no separator in it. *)
Fixpoint no_slash (s : string) : bool :=
  match s with
  | EmptyString => true
  | String a s' => negb (Ascii.eqb a "/") && no_slash s'
  end.

(** A path in resolved form: no component is empty, [.] or [..], or
    holds a separator.  [pathlib] never builds a path with a component
    of the first two kinds or the last, but it keeps [..], which the
    system resolves when the path is used.  With symbolic links left
    out, two resolved paths are the same place in the tree exactly when
    they are equal. *)
Definition resolved (p : Path) : bool :=
  forallb (fun c => negb (String.eqb c "") && negb (String.eqb c ".")
                    && negb (String.eqb c "..") && no_slash c) p.

(** From [fs] to [fs']: every node at a path outside [W] is left as it
    was. *)
Definition keeps (W : Path -> Prop) (fs fs' : FS) : Prop :=
  forall p n, fs !! p = Some n -> ~ W p -> fs' !! p = Some n.

(** The transform of this repository as the [transform] of a data set:
    its two tensors are what the sample holds. *)
Definition tensor_transform (f : Image -> Image -> M Rng (Tensor * Tensor))
    : Image -> Image -> M Rng (Dataset.PyVal * Dataset.PyVal) :=
  fun label photo =>
    let! (label_t, photo_t) := f label photo in
    ret (Dataset.VTensor label_t, Dataset.VTensor photo_t).

Section WithKernels.
Context {K : Kernels}.

(** What a run from [fs] to [fs'] has done for one source file: left
    its two destinations alone when the skip test passed in [fs], and
    otherwise written the two halves of the source image to them. *)
Definition split_done (fs fs' : FS) (out_dir : Path) (overwrite : bool)
    (split : string) (img_path : Path) : Prop :=
  let photo_path := Prepare.photo_dest out_dir split img_path in
  let label_path := Prepare.label_dest out_dir split img_path in
  if skips fs photo_path label_path overwrite then
    fs' !! photo_path = fs !! photo_path /\ fs' !! label_path = fs !! label_path
  else
    exists img,
      open_image fs img_path = Ok img /\ width img mod 2 = 0
      /\ fs' !! photo_path
         = Some (File (ImageFile JPEG (encoded JPEG (photo_half img))))
      /\ fs' !! label_path = Some (File (ImageFile PNG (label_half img))).

End WithKernels.

End Frames.
Import Frames.

(** ** Sample data for the further properties *)

Module Runs.
Import PathLib Samples.

(** [train_set] with the transform of the repository: no jitter, no
    flip, size 2, mode [tanh]. *)
Definition train_tensor_set : Dataset.CityscapesDataset :=
  {| Dataset.root := ["data"];
     Dataset.split := "train";
     Dataset.transform :=
       Some (tensor_transform (Transforms.build_transform 2 false "tanh" false));
     Dataset.files := ["1.jpg"];
     Dataset.photo_dir := ["data"; "processed"; "train"; "photo"];
     Dataset.label_dir := ["data"; "processed"; "train"; "label"] |}.

(** [raw_tree] with a directory where the label of [1.jpg] is to go. *)
Definition blocked_tree : FS :=
  <[ Prepare.label_dest out_dir "train" ["raw"; "train"; "1.jpg"] := Dir ]>
  (<[ out_dir ++ ["train"; "label"] := Dir ]>
  (<[ out_dir ++ ["train"] := Dir ]>
  (<[ out_dir := Dir ]>
  (<[ ["data"] := Dir ]> raw_tree)))).

(** The split mapping of [raw_tree]. *)
Definition raw_splits : dict (list Path) :=
  [("train", [["raw"; "train"; "1.jpg"]]); ("val", [["raw"; "val"; "2.jpg"]])].

End Runs.
Import Runs.

Import Samples Prepare Transforms Dataset.

(** ** Rounding to single precision *)

Section Rounding.
Local Open Scope Q_scope.

Lemma pow2_pos (k : Z) : 0 < pow2 k.
Proof. apply Qpower_0_lt. reflexivity. Qed.

Lemma pow2_add (a b : Z) : pow2 (a + b) == pow2 a * pow2 b.
Proof. apply Qpower_plus. discriminate. Qed.

Lemma pow2_le (a b : Z) : (a <= b)%Z -> pow2 a <= pow2 b.
Proof. intros H. apply Qpower_le_compat_l; [exact H | discriminate]. Qed.

Lemma pow2_le_inv (a b : Z) : pow2 a <= pow2 b -> (a <= b)%Z.
Proof. intros H. apply (Qpower_le_compat_l_inv 2); [exact H | reflexivity]. Qed.

Lemma pow2_Z (k : Z) : (0 <= k)%Z -> pow2 k == inject_Z (2 ^ k).
Proof. intros H. unfold pow2. symmetry. apply (Zpower_Qpower 2 k H). Qed.

Lemma pow2_half (k : Z) : pow2 (k - 1) == pow2 k * (1 # 2).
Proof.
  unfold Z.sub. rewrite pow2_add. reflexivity.
Qed.

(** [ilog2 x] is not above the logarithm of [x]. *)
Lemma ilog2_lower (x : Q) : 0 < x -> pow2 (ilog2 x) <= x.
Proof.
  intros Hx. unfold ilog2.
  destruct (Qle_bool (pow2 (Z.log2 (Qnum x) - Z.log2 (Z.pos (Qden x)))) x) eqn:E.
  - apply Qle_bool_iff; exact E.
  - clear E. destruct x as [n d]. cbn [Qnum Qden].
    assert (Hn : (0 < n)%Z) by (unfold Qlt in Hx; cbn in Hx; lia).
    pose proof (Z.log2_nonneg n) as Ha.
    pose proof (Z.log2_nonneg (Z.pos d)) as Hb.
    destruct (Z.log2_spec n Hn) as [Hn1 _].
    destruct (Z.log2_spec (Z.pos d) ltac:(lia)) as [_ Hd2].
    replace (Z.log2 n - Z.log2 (Z.pos d) - 1)%Z
      with (Z.log2 n - (Z.log2 (Z.pos d) + 1))%Z by lia.
    unfold pow2. rewrite Qpower_minus by discriminate.
    fold (pow2 (Z.log2 n)). fold (pow2 (Z.log2 (Z.pos d) + 1)).
    rewrite !pow2_Z by lia.
    set (A := (2 ^ Z.log2 n)%Z) in *. set (B := (2 ^ (Z.log2 (Z.pos d) + 1))%Z) in *.
    apply Qle_shift_div_r.
    + change 0 with (inject_Z 0). rewrite <- Zlt_Qlt. lia.
    + unfold Qle, Qmult, inject_Z. cbn. nia.
Qed.

(** The error of rounding to the nearest integer. *)
Lemma rne_error (y : Q) : Qabs (inject_Z (rne y) - y) <= 1 # 2.
Proof.
  unfold rne. pose proof (Qfloor_le y) as Hl. pose proof (Qlt_floor y) as Hu.
  rewrite inject_Z_plus in Hu. change (inject_Z 1) with 1 in Hu.
  apply Qabs_Qle_condition.
  destruct (Qcompare_spec (y - inject_Z (Qfloor y)) (1 # 2)) as [E | E | E].
  - destruct (Z.even (Qfloor y)); rewrite ?inject_Z_plus; change (inject_Z 1) with 1; lra.
  - lra.
  - rewrite inject_Z_plus. change (inject_Z 1) with 1. lra.
Qed.

(** Rounding to the nearest integer does not cross an integer. *)
Lemma rne_bound (y : Q) (N : Z) :
  Qabs y <= inject_Z N -> (Z.abs (rne y) <= N)%Z.
Proof.
  intros H. apply Qabs_Qle_condition in H as [H1 H2].
  pose proof (Qfloor_le y) as Hl. pose proof (Qlt_floor y) as Hu.
  assert (Hf1 : (- N <= Qfloor y)%Z).
  { rewrite <- (Qfloor_Z (- N)). apply Qfloor_resp_le. rewrite inject_Z_opp; exact H1. }
  assert (Hf2 : (Qfloor y <= N)%Z).
  { rewrite <- (Qfloor_Z N). apply Qfloor_resp_le; exact H2. }
  unfold rne.
  destruct (Qcompare_spec (y - inject_Z (Qfloor y)) (1 # 2)) as [E | E | E].
  - assert (Qfloor y < N)%Z; [| destruct (Z.even (Qfloor y)); lia].
    apply Zle_lt_or_eq in Hf2 as [? | Heq]; [assumption |]. rewrite Heq in E. lra.
  - lia.
  - assert (Qfloor y < N)%Z; [| lia].
    apply Zle_lt_or_eq in Hf2 as [? | Heq]; [assumption |]. rewrite Heq in E. lra.
Qed.

(** Rounding a number of magnitude at most [2^k] stays within [2^k] and
    moves it by at most half a spacing, [2^(k-24)]. *)
Lemma round_to_grid_bounds (x : Q) (k : Z) :
  (-126 <= k)%Z -> Qabs x <= pow2 k ->
  Qabs (round_to_grid x) <= pow2 k
  /\ Qabs (round_to_grid x - x) <= pow2 (k - 24).
Proof.
  intros Hk Hx. unfold round_to_grid.
  destruct (Qeq_bool x 0) eqn:E0.
  - apply Qeq_bool_eq in E0. split.
    + apply Qlt_le_weak, pow2_pos.
    + rewrite E0. apply Qlt_le_weak, pow2_pos.
  - apply Qeq_bool_neq in E0. rewrite Qred_correct.
    assert (Hpos : 0 < Qabs x).
    { destruct (Qlt_le_dec 0 (Qabs x)) as [? | Hle]; [assumption |].
      exfalso. apply E0. pose proof (Qabs_nonneg x).
      apply Qabs_Qle_condition in Hle. lra. }
    pose proof (ilog2_lower _ Hpos) as Hlog.
    assert (He : (ilog2 (Qabs x) <= k)%Z) by (apply pow2_le_inv; lra).
    unfold quantum.
    set (e := Z.max (ilog2 (Qabs x)) (-126)).
    assert (He' : (e <= k)%Z) by (unfold e; lia).
    set (q := pow2 (e - 23)). pose proof (pow2_pos (e - 23)) as Hq. fold q in Hq.
    set (y := x / q).
    assert (Hy : x == y * q) by (unfold y; field; lra).
    assert (HN : pow2 k == inject_Z (2 ^ (k - e + 23)) * q).
    { rewrite <- pow2_Z by lia. unfold q. rewrite <- pow2_add.
      replace (k - e + 23 + (e - 23))%Z with k by lia. reflexivity. }
    assert (Hyb : Qabs y <= inject_Z (2 ^ (k - e + 23))).
    { apply (Qmult_le_r _ _ q Hq). rewrite <- HN.
      rewrite <- (Qabs_pos q) at 1 by lra. rewrite <- Qabs_Qmult, <- Hy. exact Hx. }
    split.
    + rewrite Qabs_Qmult, (Qabs_pos q) by lra. rewrite HN.
      apply Qmult_le_compat_r; [| lra].
      change (inject_Z (rne y)) with (rne y # 1). rewrite <- Zabs_Qabs.
      change (Z.abs (rne y) # 1) with (inject_Z (Z.abs (rne y))).
      rewrite <- Zle_Qle. apply rne_bound; exact Hyb.
    + setoid_replace (inject_Z (rne y) * q - x) with ((inject_Z (rne y) - y) * q)
        using relation Qeq by (rewrite Hy at 1; ring).
      rewrite Qabs_Qmult, (Qabs_pos q) by lra.
      apply Qle_trans with ((1 # 2) * q).
      * apply Qmult_le_compat_r; [apply rne_error | lra].
      * unfold q. rewrite Qmult_comm, <- pow2_half. apply pow2_le. lia.
Qed.

Lemma round32_bounds (x : Q) (k : Z) :
  (-126 <= k < 128)%Z -> Qabs x <= pow2 k ->
  exists r, round32 x = Finite r
    /\ Qabs r <= pow2 k /\ Qabs (r - x) <= pow2 (k - 24).
Proof.
  intros Hk Hx. destruct (round_to_grid_bounds x k) as [Hb He]; [lia | exact Hx |].
  exists (round_to_grid x). unfold round32.
  destruct (Qle_bool (pow2 128) (Qabs (round_to_grid x))) eqn:E; [| split; [reflexivity | split; assumption]].
  apply Qle_bool_iff in E. exfalso.
  assert (pow2 k < pow2 128) by (apply Qpower_lt_compat_l; [lia | reflexivity]).
  lra.
Qed.

(** The [tanh] map and its inverse on a value of [[0, 1]], in single
    precision: the result lies in [[-1, 1]], within [2^-23] of the exact
    [(v - 0.5) / 0.5], and the inverse map gives [v] back within
    [2^-22]. *)
Lemma tanh_roundtrip_bounds (v : Q) :
  0 <= v <= 1 ->
  exists n r,
    f32_div (f32_sub (Finite v) half) half = Finite n
    /\ -1 <= n <= 1
    /\ Qabs (n - (v - (1 # 2)) / (1 # 2)) <= pow2 (-23)
    /\ f32_add (f32_mul (Finite n) half) half = Finite r
    /\ Qabs (r - v) <= pow2 (-22).
Proof.
  intros Hv.
  destruct (round32_bounds (v - (1 # 2)) (-1)) as (y1 & E1 & B1 & R1); [lia | |].
  { apply Qabs_Qle_condition. change (pow2 (-1)) with (1 # 2). lra. }
  change (pow2 (-1)) with (1 # 2) in B1. apply Qabs_Qle_condition in B1.
  destruct (round32_bounds (y1 / (1 # 2)) 0) as (n & E2 & B2 & R2); [lia | |].
  { apply Qabs_Qle_condition. change (pow2 0) with 1.
    setoid_replace (y1 / (1 # 2)) with (2 * y1) using relation Qeq by field. lra. }
  change (pow2 0) with 1 in B2. apply Qabs_Qle_condition in B2.
  destruct (round32_bounds (n * (1 # 2)) (-1)) as (m & E3 & B3 & R3); [lia | |].
  { apply Qabs_Qle_condition. change (pow2 (-1)) with (1 # 2). lra. }
  change (pow2 (-1)) with (1 # 2) in B3. apply Qabs_Qle_condition in B3.
  destruct (round32_bounds (m + (1 # 2)) 0) as (r & E4 & B4 & R4); [lia | |].
  { apply Qabs_Qle_condition. change (pow2 0) with 1. lra. }
  change (pow2 (-1 - 24)) with (1 # 33554432) in R1, R3.
  change (pow2 (0 - 24)) with (1 # 16777216) in R2, R4.
  apply Qabs_Qle_condition in R1, R2, R3, R4.
  setoid_replace (y1 / (1 # 2)) with (2 * y1) using relation Qeq in R2 by field.
  exists n, r.
  change (pow2 (-23)) with (1 # 8388608). change (pow2 (-22)) with (1 # 4194304).
  split; [| split; [lra |]; split; [| split]].
  - unfold half. cbn [f32_sub]. rewrite E1. cbn [f32_div].
    change (Qeq_bool (1 # 2) 0) with false. cbn iota. exact E2.
  - apply Qabs_Qle_condition.
    setoid_replace ((v - (1 # 2)) / (1 # 2)) with (2 * v - 1) using relation Qeq by field.
    lra.
  - unfold half. cbn [f32_mul]. rewrite E3. cbn [f32_add]. exact E4.
  - apply Qabs_Qle_condition. lra.
Qed.
End Rounding.

(** On every byte value the model computes what the Standard Library's
    specification of binary32 arithmetic computes: the tensor element
    [k / 255], its [tanh] normalisation and the value mapped back. *)
Lemma byte_chain_agrees_with_binary32 :
  forallb Binary32.byte_chain_agrees (List.map Z.of_nat (List.seq 0 256)) = true.
Proof. vm_compute. reflexivity. Qed.

(** * Properties *)

(** ** Tactics *)

(** Case analysis on every integer comparison of the goal. *)
Ltac case_Z :=
  repeat match goal with
  | |- context [Z.ltb ?a ?b] => destruct (Z.ltb_spec a b)
  | |- context [Z.leb ?a ?b] => destruct (Z.leb_spec a b)
  | |- context [Z.eqb ?a ?b] => destruct (Z.eqb_spec a b)
  end; cbn [orb andb negb].

(** Case analysis on every remaining conditional. *)
Ltac case_if :=
  repeat match goal with
  | |- context [if ?b then _ else _] => destruct b eqn:?
  end; cbn.

(** Unfolds the transform down to its conditionals. *)
Ltac run_transform :=
  unfold build_transform, _random_crop_pair, F.get_params, bind, lift,
    torch_randint, random_random, ret, raise, normalize_photo.

(** ** The paired transform *)

Section TransformLemmas.
Context {K : Kernels}.

Lemma quot_lower (s a b : Z) : 0 < s -> 0 < b -> b <= a -> s <= Z.quot (s * a) b.
Proof.
  intros Hs Hb Hab.
  rewrite Z.quot_div_nonneg by nia.
  apply Z.div_le_lower_bound; nia.
Qed.

(** Whenever [F.resize] returns, the new size is [resized_size]. *)
Lemma resize_size (img img' : Image) (size : Z) :
  F.resize img size = Ok img' ->
  img_size img' = resized_size (width img) (height img) size.
Proof.
  unfold F.resize, resized_size, img_size.
  case_Z; intros [= <-]; cbn; congruence.
Qed.

(** On an image with positive sides and for a positive size it returns. *)
Lemma resize_returns (img : Image) (size : Z) :
  0 < width img -> 0 < height img -> 0 < size ->
  exists img', F.resize img size = Ok img'.
Proof.
  intros Hw Hh Hs. unfold F.resize.
  pose proof (quot_lower size (height img) (width img)).
  pose proof (quot_lower size (width img) (height img)).
  case_Z; eauto; lia.
Qed.

Lemma resize_same_size (a b a' b' : Image) (size : Z) :
  img_size a = img_size b ->
  F.resize a size = Ok a' -> F.resize b size = Ok b' ->
  width a' = width b' /\ height a' = height b'.
Proof.
  intros E Ha Hb. apply resize_size in Ha, Hb.
  unfold img_size in *. split; congruence.
Qed.

(** The label and photo outputs have the same size whenever the transform
    returns. *)
Lemma transform_same_size image_size jitter normalize_mode horizontal_flip
    (label photo : Image) (g : Rng) label_t photo_t :
  img_size label = img_size photo ->
  fst (build_transform image_size jitter normalize_mode horizontal_flip label photo g)
    = Ok (label_t, photo_t) ->
  (rows label_t, cols label_t) = (rows photo_t, cols photo_t).
Proof.
  intros Heq. run_transform.
  destruct jitter.
  - destruct (F.resize label 286) as [l1 |] eqn:Hl; [| discriminate].
    destruct (F.resize photo 286) as [p1 |] eqn:Hp; [| discriminate].
    destruct (resize_same_size _ _ _ _ _ Heq Hl Hp) as [Ew Eh].
    destruct horizontal_flip; case_Z; case_if;
      intros [= <- <-]; cbn; congruence.
  - destruct (F.resize label image_size) as [l1 |] eqn:Hl; [| discriminate].
    destruct (F.resize photo image_size) as [p1 |] eqn:Hp; [| discriminate].
    destruct (resize_same_size _ _ _ _ _ Heq Hl Hp) as [Ew Eh].
    destruct horizontal_flip; case_Z; case_if;
      intros [= <- <-]; cbn; congruence.
Qed.

Lemma resized_size_jitter w h : 0 < w -> 0 < h ->
  exists w1 h1, resized_size w h 286 = (w1, h1)
    /\ 286 <= w1 /\ 286 <= h1 /\ (w1 = 286 \/ h1 = 286).
Proof.
  intros Hw Hh. unfold resized_size.
  pose proof (quot_lower 286 h w). pose proof (quot_lower 286 w h).
  destruct (Z.leb_spec w h); eexists _, _; (split; [done |]); lia.
Qed.

Lemma resized_size_square w size : 0 < w -> resized_size w w size = (size, size).
Proof.
  intros Hw. unfold resized_size. rewrite Z.leb_refl.
  by rewrite Z.quot_mul by lia.
Qed.

(** C1 (amended).  For a positive [image_size] and two input images of the
    same size with positive sides, whatever the flip setting and the random
    draws: whenever the transform returns, the label and photo outputs have
    the same spatial size; with [jitter] and [image_size > 286] it does not
    return, the crop is refused; with [jitter] and [image_size <= 286], or
    without [jitter] on square inputs, it returns two outputs of size
    [image_size] x [image_size] (for a supported normalization mode). *)
Theorem transform_output_sizes image_size jitter normalize_mode horizontal_flip
    (label photo : Image) (g : Rng) :
  0 < image_size -> 0 < width label -> 0 < height label ->
  img_size label = img_size photo ->
  let r := fst (build_transform image_size jitter normalize_mode horizontal_flip
                  label photo g) in
  (forall label_t photo_t, r = Ok (label_t, photo_t) ->
     (rows label_t, cols label_t) = (rows photo_t, cols photo_t))
  /\ (jitter = true -> 286 < image_size ->
       exists h w, r = Raise (ValueError (CropLargerThanImage image_size image_size h w)))
  /\ (normalize_mode = "tanh" \/ normalize_mode = "01" ->
       (jitter = true /\ image_size <= 286) \/ (jitter = false /\ width label = height label) ->
       square_output image_size r).
Proof.
  intros Hs Hw Hh Heq r.
  assert (Hw' : 0 < width photo) by (unfold img_size in Heq; congruence).
  assert (Hh' : 0 < height photo) by (unfold img_size in Heq; congruence).
  split; [| split].
  - intros lt pt Hr. by eapply transform_same_size.
  - intros -> Hbig. subst r.
    destruct (resize_returns label 286 Hw Hh ltac:(lia)) as (l1 & Hl).
    destruct (resize_returns photo 286 Hw' Hh' ltac:(lia)) as (p1 & Hp).
    pose proof (resize_size _ _ _ Hp) as Sp.
    destruct (resized_size_jitter _ _ Hw' Hh') as (w1 & h1 & E & Hw1 & Hh1 & Hmin).
    rewrite E in Sp. unfold img_size in Sp. injection Sp as Ew Eh.
    run_transform. rewrite Hl, Hp, Ew, Eh.
    case_Z; try lia; cbn; eauto.
  - intros Hmode Hcase. subst r.
    assert (Hnorm : forall t, normalize_photo t normalize_mode
              = Ok (if String.eqb normalize_mode "tanh"
                    then tmap (fun x => f32_div (f32_sub x half) half) t else t)).
    { intros t. unfold normalize_photo. by destruct Hmode as [-> | ->]. }
    destruct Hcase as [[-> Hle] | [-> Hsq]].
    + destruct (resize_returns label 286 Hw Hh ltac:(lia)) as (l1 & Hl).
      destruct (resize_returns photo 286 Hw' Hh' ltac:(lia)) as (p1 & Hp).
      destruct (resize_same_size _ _ _ _ _ Heq Hl Hp) as [Ew Eh].
      pose proof (resize_size _ _ _ Hp) as Sp.
      destruct (resized_size_jitter _ _ Hw' Hh') as (w1 & h1 & E & Hw1 & Hh1 & Hmin).
      rewrite E in Sp. unfold img_size in Sp. injection Sp as Ew1 Eh1.
      unfold square_output, build_transform, _random_crop_pair, F.get_params, bind, lift,
        torch_randint, random_random, ret, raise.
      rewrite Hl, Hp, Ew1, Eh1.
      case_Z; try lia; destruct horizontal_flip; cbn; case_if;
        rewrite Hnorm; cbn; eexists _, _; (split; [reflexivity |]); case_if; cbn;
        split; f_equal; lia.
    + destruct (resize_returns label image_size Hw Hh Hs) as (l1 & Hl).
      destruct (resize_returns photo image_size Hw' Hh' Hs) as (p1 & Hp).
      destruct (resize_same_size _ _ _ _ _ Heq Hl Hp) as [Ew Eh].
      pose proof (resize_size _ _ _ Hl) as Sl.
      rewrite Hsq, resized_size_square in Sl by lia.
      unfold img_size in Sl. injection Sl as Ew1 Eh1.
      unfold square_output, build_transform, bind, lift, random_random, ret, raise.
      rewrite Hl, Hp.
      destruct horizontal_flip; cbn; case_if;
        rewrite Hnorm; cbn; eexists _, _; (split; [reflexivity |]); case_if; cbn;
        split; f_equal; lia.
Qed.

(** C10.  A transform built with [jitter=False] and
    [horizontal_flip=False] leaves the random sources as they were, and what
    it returns (outputs or exception) does not depend on them: two calls on
    the same images agree. *)
Theorem resize_only_transform_deterministic image_size normalize_mode
    (label photo : Image) (g1 g2 : Rng) :
  snd (build_transform image_size false normalize_mode false label photo g1) = g1
  /\ fst (build_transform image_size false normalize_mode false label photo g1)
     = fst (build_transform image_size false normalize_mode false label photo g2).
Proof.
  run_transform.
  destruct (F.resize label image_size); [| done].
  destruct (F.resize photo image_size); [| done].
  cbn. by case_if.
Qed.

(** C3 (amended).  In [tanh] mode [normalize_photo] returns a tensor of
    the same shape whose element is the single-precision result of
    [(v - 0.5) / 0.5] where the input has [v].  For [v] in [[0, 1]] the
    result lies in [[-1, 1]], within [2^-23] of the exact value, and the
    inverse map [n * 0.5 + 0.5], in single precision, gives [v] back
    within [2^-22]: within a floating-point tolerance, not exactly. *)
Theorem normalize_photo_tanh_roundtrip (t : Tensor) (c y x : Z) (v : Q) :
  item t c y x = Finite v ->
  (0 <= v <= 1)%Q ->
  exists t' n r,
    normalize_photo t "tanh" = Ok t'
    /\ shape t' = shape t
    /\ item t' c y x = f32_div (f32_sub (item t c y x) half) half
    /\ item t' c y x = Finite n
    /\ (-1 <= n <= 1)%Q
    /\ (Qabs (n - (v - (1 # 2)) / (1 # 2)) <= pow2 (-23))%Q
    /\ f32_add (f32_mul (item t' c y x) half) half = Finite r
    /\ (Qabs (r - v) <= pow2 (-22))%Q.
Proof.
  intros Hitem Hv.
  destruct (tanh_roundtrip_bounds v Hv) as (n & r & Hn & Hrange & Hnear & Hr & Hback).
  eexists _, n, r. split; [reflexivity |].
  cbn [tmap item shape channels rows cols]. rewrite Hitem, Hn.
  split; [done |]. split; [done |]. split; [done |].
  split; [exact Hrange |]. split; [exact Hnear |]. split; [exact Hr | exact Hback].
Qed.

End TransformLemmas.

(** ** The monad and its loops *)

Section Monad.
Context {S A B : Type}.

(** A sequence that returns: its first part returned, then the rest. *)
Lemma bind_Ok_inv (m : M S A) (k : A -> M S B) (s s' : S) (b : B) :
  bind m k s = (Ok b, s') ->
  exists a s1, m s = (Ok a, s1) /\ k a s1 = (Ok b, s').
Proof.
  unfold bind. destruct (m s) as [[a | e] s1]; [eauto | done].
Qed.

(** A run, from its result. *)
Lemma run_pair (m : M S A) (s : S) (a : A) :
  fst (m s) = Ok a -> m s = (Ok a, snd (m s)).
Proof. destruct (m s) as [r s1]. cbn. by intros ->. Qed.

Lemma run_unchanged (m : M S A) (s : S) (a : A) :
  snd (m s) = s -> fst (m s) = Ok a -> m s = (Ok a, s).
Proof. destruct (m s) as [r s1]. cbn. by intros -> ->. Qed.

Lemma bind_Ok (m : M S A) (k : A -> M S B) (s s1 : S) (a : A) :
  m s = (Ok a, s1) -> bind m k s = k a s1.
Proof. intros H. unfold bind. by rewrite H. Qed.
End Monad.

Section ForEach.
Context {S A : Type} (body : A -> M S unit).

(** A loop whose every iteration leaves the state alone leaves it alone. *)
Lemma for_each_unchanged (l : list A) (s : S) :
  (forall x, x ∈ l -> body x s = (Ok tt, s)) ->
  for_each l body s = (Ok tt, s).
Proof.
  induction l as [| x l IH]; intros H; [done |].
  cbn. rewrite (bind_Ok _ _ s s tt) by (apply H; left).
  apply IH. intros y Hy. apply H. by right.
Qed.

(** A loop that returns: the state moved along the preorder [R], and what
    an iteration established ([Q]), being stable along [R], holds at the end
    for every element. *)
Lemma for_each_post (R : S -> S -> Prop) `{!PreOrder R} (Q : A -> S -> Prop)
    (l : list A) (s s' : S) :
  (forall x s1 s2, body x s1 = (Ok tt, s2) -> R s1 s2 /\ Q x s2) ->
  (forall x s1 s2, Q x s1 -> R s1 s2 -> Q x s2) ->
  for_each l body s = (Ok tt, s') ->
  R s s' /\ forall x, x ∈ l -> Q x s'.
Proof.
  intros Hbody Hmono. revert s.
  induction l as [| x l IH]; intros s; cbn.
  - intros [= <-]. split; [done |]. intros x Hx. inversion Hx.
  - intros (u & s1 & H1 & H2)%bind_Ok_inv. destruct u.
    apply Hbody in H1 as [HR HQ]. apply IH in H2 as [HR' HQ'].
    split; [by etrans |].
    intros y [-> | Hy]%elem_of_cons; [by eapply Hmono | by apply HQ'].
Qed.
End ForEach.

(** ** Making directories and writing files *)

Section FsLemmas.
Import PathLib.

Lemma made_cons_ne (fs : FS) (d : Path) (chain : list Path) (p : Path) :
  p <> d -> made fs (d :: chain) p = made fs chain p.
Proof.
  intros Hne. unfold made. destruct (fs !! p); [done |].
  apply decide_ext. rewrite elem_of_cons. intuition congruence.
Qed.

(** What [mkdir_walk] leaves at every path, when it returns. *)
Lemma mkdir_walk_lookup (pre todo : Path) (fs fs' : FS) :
  mkdir_walk pre todo fs = Ok fs' ->
  forall p, fs' !! p = made fs (mkdir_chain pre todo) p.
Proof.
  revert pre fs. induction todo as [| c rest IH]; intros pre fs; cbn.
  - intros [= <-] p. unfold made. by destruct (fs !! p).
  - destruct (fs !! (pre ++ [c])) as [[| d] |] eqn:E; [| done |]; intros H p.
    + rewrite (IH _ _ H p).
      destruct (decide (p = pre ++ [c])) as [-> | Hne].
      * unfold made. by rewrite E.
      * by rewrite made_cons_ne.
    + rewrite (IH _ _ H p).
      destruct (decide (p = pre ++ [c])) as [-> | Hne].
      * unfold made. rewrite lookup_insert_eq, E. rewrite decide_True; [done | left].
      * rewrite made_cons_ne by done. unfold made.
        by rewrite lookup_insert_ne.
Qed.

Lemma is_file_insert_dir (fs : FS) (d p : Path) :
  is_file (<[d := Dir]> fs) p = true -> is_file fs p = true.
Proof.
  unfold is_file. destruct (decide (d = p)) as [-> | Hne].
  - by rewrite lookup_insert_eq.
  - by rewrite lookup_insert_ne.
Qed.

(** [mkdir_walk] returns when no file is on its way ... *)
Lemma mkdir_walk_returns (pre todo : Path) (fs : FS) :
  forallb (fun d => negb (is_file fs d)) (mkdir_chain pre todo) = true ->
  exists fs', mkdir_walk pre todo fs = Ok fs'.
Proof.
  revert pre fs. induction todo as [| c rest IH]; intros pre fs; cbn; [eauto |].
  intros [Hd Hrest]%andb_true_iff. unfold is_file in Hd.
  destruct (fs !! (pre ++ [c])) as [[| d] |] eqn:E; [| done |].
  - by apply IH.
  - apply IH. apply forallb_forall. intros x Hx.
    rewrite forallb_forall in Hrest. specialize (Hrest x Hx).
    destruct (is_file (<[pre ++ [c]:=Dir]> fs) x) eqn:Ef; [| done].
    apply is_file_insert_dir in Ef. by rewrite Ef in Hrest.
Qed.

(** ... and only then. *)
Lemma mkdir_walk_clear (pre todo : Path) (fs fs' : FS) :
  mkdir_walk pre todo fs = Ok fs' ->
  forall d, d ∈ mkdir_chain pre todo -> is_file fs d = false.
Proof.
  revert pre fs. induction todo as [| c rest IH]; intros pre fs; cbn.
  - intros _ d Hd. by apply not_elem_of_nil in Hd.
  - destruct (fs !! (pre ++ [c])) as [[| x] |] eqn:E; [| done |]; intros H d Hd.
    + apply elem_of_cons in Hd as [-> | Hd].
      * unfold is_file. by rewrite E.
      * by eapply IH.
    + apply elem_of_cons in Hd as [-> | Hd].
      * unfold is_file. by rewrite E.
      * destruct (is_file fs d) eqn:Ef; [| done].
        assert (is_file (<[pre ++ [c]:=Dir]> fs) d = false) as Hf by (by eapply IH).
        unfold is_file in *. destruct (decide (pre ++ [c] = d)) as [<- | Hne].
        -- by rewrite E in Ef.
        -- rewrite lookup_insert_ne in Hf by done. congruence.
Qed.

(** The chain ends with the directory asked for, and goes no deeper. *)
Lemma mkdir_chain_last (pre todo : Path) :
  todo <> [] -> pre ++ todo ∈ mkdir_chain pre todo.
Proof.
  revert pre. induction todo as [| c rest IH]; intros pre Hne; [done |].
  cbn. destruct rest as [| c' rest'].
  - left.
  - right. rewrite (cons_middle c), app_assoc. by apply IH.
Qed.

Lemma mkdir_chain_length (pre todo d : Path) :
  d ∈ mkdir_chain pre todo -> (length d <= length pre + length todo)%nat.
Proof.
  revert pre. induction todo as [| c rest IH]; intros pre; cbn.
  - intros H. inversion H.
  - intros [-> | Hd]%elem_of_cons.
    + rewrite length_app. cbn. lia.
    + apply IH in Hd. rewrite length_app in Hd. cbn in Hd. lia.
Qed.

Lemma parent_length (p : Path) : p <> [] -> length p = S (length (parent p)).
Proof.
  intros Hp. destruct (exists_last Hp) as (q & c & ->).
  unfold parent. rewrite removelast_last, length_app. cbn. lia.
Qed.

Lemma not_in_own_parent_chain (p : Path) : p ∉ mkdir_chain [] (parent p).
Proof.
  intros H.
  destruct (decide (p = [])) as [-> | Hne]; [inversion H |].
  apply mkdir_chain_length in H. cbn in H.
  rewrite (parent_length p Hne) in H. lia.
Qed.
End FsLemmas.

Section SplitLemmas.
Import PathLib.
Context {K : Kernels}.

Lemma made_Some (fs : FS) (chain : list Path) (p : Path) (n : Node) :
  fs !! p = Some n -> made fs chain p = Some n.
Proof. intros H. unfold made. by rewrite H. Qed.

Lemma made_outside (fs : FS) (chain : list Path) (p : Path) :
  p ∉ chain -> made fs chain p = fs !! p.
Proof.
  intros H. unfold made. destruct (fs !! p); [done |]. by rewrite decide_False.
Qed.

Lemma made_file (fs fs' : FS) (chain : list Path) :
  (forall q, fs' !! q = made fs chain q) ->
  forall d, is_file fs' d = is_file fs d.
Proof.
  intros H d. unfold is_file. rewrite H. unfold made.
  destruct (fs !! d); [done |]. by case_decide.
Qed.

Lemma mkdir_parents_inv (fs fs' : FS) (p : Path) :
  mkdir_parents p fs = (Ok tt, fs') ->
  can_mkdir fs p = true
  /\ (forall q, fs' !! q = made fs (mkdir_chain [] p) q)
  /\ node_at fs' p = Some Dir.
Proof.
  unfold mkdir_parents.
  destruct (mkdir_walk [] p fs) as [fs1 |] eqn:E; [| done].
  intros [= <-].
  pose proof (mkdir_walk_lookup _ _ _ _ E) as Hl.
  pose proof (mkdir_walk_clear _ _ _ _ E) as Hc.
  split; [| split; [done |]].
  - apply forallb_forall. intros d Hd%list_elem_of_In.
    by rewrite (Hc d Hd).
  - destruct p as [| c p']; [done |]. unfold node_at.
    assert (Hin : c :: p' ∈ mkdir_chain [] (c :: p')).
    { apply (mkdir_chain_last [] (c :: p')). done. }
    rewrite Hl. unfold made.
    specialize (Hc _ Hin). unfold is_file in Hc.
    destruct (fs !! (c :: p')) as [[| d] |]; [done | done |].
    by rewrite decide_True.
Qed.

Lemma mkdir_parents_returns (fs : FS) (p : Path) :
  can_mkdir fs p = true -> exists fs', mkdir_parents p fs = (Ok tt, fs').
Proof.
  intros H. destruct (mkdir_walk_returns [] p fs H) as [fs' E].
  exists fs'. unfold mkdir_parents. by rewrite E.
Qed.

(** Writing a file: when it succeeds, and what it does. *)
Lemma write_file_returns (fs : FS) (p : Path) (d : FileData) :
  node_at fs p <> Some Dir -> node_at fs (parent p) = Some Dir ->
  write_file p d fs = (Ok tt, <[p := File d]> fs).
Proof.
  intros Hp Hpar. unfold write_file. rewrite Hpar.
  by destruct (node_at fs p) as [[| x] |].
Qed.

Lemma write_file_inv (fs fs' : FS) (p : Path) (d : FileData) :
  write_file p d fs = (Ok tt, fs') -> fs' = <[p := File d]> fs /\ p <> [].
Proof.
  unfold write_file. destruct p as [| c p']; [done |]. cbn [node_at].
  destruct (fs !! (c :: p')) as [[| x] |]; [done | |];
    destruct (node_at fs (parent (c :: p'))) as [[| y] |]; try done;
    by intros [= <-].
Qed.

Lemma node_at_nonroot (fs : FS) (p : Path) : p <> [] -> node_at fs p = fs !! p.
Proof. by destruct p. Qed.

Lemma is_dir_false_nonroot (fs : FS) (p : Path) : is_dir fs p = false -> p <> [].
Proof. by intros H ->. Qed.

Lemma can_write_inv (fs : FS) (p q : Path) :
  can_write fs p q = true ->
  can_mkdir fs (parent p) = true /\ is_dir fs p = false /\ p <> []
  /\ p ∉ mkdir_chain [] (parent q).
Proof.
  unfold can_write. intros [[H1 H2%negb_true_iff]%andb_true_iff H3%negb_true_iff]%andb_true_iff.
  apply bool_decide_eq_false in H3.
  repeat split; try done. by eapply is_dir_false_nonroot.
Qed.

(** Past the skip test and the width test, [split_and_save] is its four
    file system operations. *)
Lemma split_and_save_unskipped (img_path photo_path label_path : Path)
    (overwrite : bool) (fs : FS) (img : Image) :
  skips fs photo_path label_path overwrite = false ->
  open_image fs img_path = Ok img ->
  width img mod 2 = 0 ->
  split_and_save img_path photo_path label_path overwrite fs
  = (mkdir_parents (parent photo_path) ;;
     mkdir_parents (parent label_path) ;;
     Image_save (photo_half img) photo_path JPEG ;;
     Image_save (label_half img) label_path PNG) fs.
Proof.
  intros Hskip Hopen Heven.
  unfold split_and_save, skips in *. unfold bind at 1, get at 1.
  rewrite Hskip. unfold bind at 1, Image_open. rewrite Hopen.
  cbn [img_size]. rewrite Heven. done.
Qed.

(** When both destinations can be written, the four operations succeed
    and leave the two halves at the destinations. *)
Lemma split_and_save_writes (img_path photo_path label_path : Path)
    (overwrite : bool) (fs : FS) (img : Image) :
  skips fs photo_path label_path overwrite = false ->
  open_image fs img_path = Ok img ->
  width img mod 2 = 0 ->
  can_write fs photo_path label_path = true ->
  can_write fs label_path photo_path = true ->
  photo_path <> label_path ->
  exists fs',
    split_and_save img_path photo_path label_path overwrite fs = (Ok tt, fs')
    /\ fs' !! photo_path = Some (File (ImageFile JPEG (encoded JPEG (photo_half img))))
    /\ fs' !! label_path = Some (File (ImageFile PNG (label_half img))).
Proof.
  intros Hskip Hopen Heven Hp Hl Hne.
  rewrite (split_and_save_unskipped _ _ _ _ _ _ Hskip Hopen Heven).
  apply can_write_inv in Hp as (Hp1 & Hp2 & Hp3 & Hp4).
  apply can_write_inv in Hl as (Hl1 & Hl2 & Hl3 & Hl4).
  destruct (mkdir_parents_returns _ _ Hp1) as [fs1 E1].
  pose proof (mkdir_parents_inv _ _ _ E1) as (_ & L1 & D1).
  assert (Hl1' : can_mkdir fs1 (parent label_path) = true).
  { unfold can_mkdir in *. rewrite forallb_forall in *.
    intros d Hd. rewrite (made_file _ _ _ L1). by apply Hl1. }
  destruct (mkdir_parents_returns _ _ Hl1') as [fs2 E2].
  pose proof (mkdir_parents_inv _ _ _ E2) as (_ & L2 & D2).
  assert (Lp : fs2 !! photo_path = fs !! photo_path).
  { rewrite L2, made_outside by done.
    rewrite L1, made_outside by apply not_in_own_parent_chain. done. }
  assert (Ll : fs2 !! label_path = fs !! label_path).
  { rewrite L2, made_outside by apply not_in_own_parent_chain.
    rewrite L1, made_outside by done. done. }
  assert (Dp : node_at fs2 (parent photo_path) = Some Dir).
  { destruct (parent photo_path) as [| c q] eqn:Eq; [done |]. cbn [node_at] in *.
    rewrite L2. by apply made_Some. }
  set (fs3 := <[photo_path := File (ImageFile JPEG (encoded JPEG (photo_half img)))]> fs2).
  assert (W3 : Image_save (photo_half img) photo_path JPEG fs2 = (Ok tt, fs3)).
  { apply write_file_returns; [| done].
    rewrite node_at_nonroot, Lp by done. unfold is_dir in Hp2.
    rewrite node_at_nonroot in Hp2 by done. by destruct (fs !! photo_path) as [[| x] |]. }
  assert (Dl : node_at fs3 (parent label_path) = Some Dir).
  { destruct (parent label_path) as [| c q] eqn:Eq; [done |]. cbn [node_at] in *.
    unfold fs3. rewrite lookup_insert_ne; [done |].
    intros ->. apply Hp4.
    apply (mkdir_chain_last [] (c :: q)). done. }
  set (fs4 := <[label_path := File (ImageFile PNG (label_half img))]> fs3).
  assert (W4 : Image_save (label_half img) label_path PNG fs3 = (Ok tt, fs4)).
  { apply (write_file_returns fs3 label_path); [| done].
    rewrite node_at_nonroot by done. unfold fs3.
    rewrite lookup_insert_ne, Ll by done. unfold is_dir in Hl2.
    rewrite node_at_nonroot in Hl2 by done. by destruct (fs !! label_path) as [[| x] |]. }
  exists fs4. unfold bind. rewrite E1, E2, W3, W4.
  split; [done |]. unfold fs4, fs3. split.
  - rewrite lookup_insert_ne by done. apply lookup_insert_eq.
  - apply lookup_insert_eq.
Qed.
End SplitLemmas.

#[local] Instance grows_preorder : PreOrder grows.
Proof. split; [by intros fs p | intros a b c H1 H2 p Hp; by apply H2, H1]. Qed.

Section Growth.
Import PathLib.
Context {K : Kernels}.

Lemma path_exists_lookup (fs fs' : FS) :
  (forall p n, fs !! p = Some n -> is_Some (fs' !! p)) -> grows fs fs'.
Proof.
  intros H p. unfold path_exists. destruct p as [| c q]; [done |]. cbn.
  destruct (fs !! (c :: q)) as [n |] eqn:E; [| done].
  intros _. by destruct (H _ _ E) as [n' ->].
Qed.

Lemma mkdir_parents_grows (fs fs' : FS) (p : Path) :
  mkdir_parents p fs = (Ok tt, fs') -> grows fs fs'.
Proof.
  intros (_ & L & _)%mkdir_parents_inv. apply path_exists_lookup.
  intros q n Hq. rewrite L, (made_Some _ _ _ _ Hq). eauto.
Qed.

Lemma write_file_grows (fs fs' : FS) (p : Path) (d : FileData) :
  write_file p d fs = (Ok tt, fs') -> grows fs fs' /\ path_exists fs' p = true.
Proof.
  intros [-> Hp]%write_file_inv. split.
  - apply path_exists_lookup. intros q n Hq.
    destruct (decide (p = q)) as [-> | Hne].
    + rewrite lookup_insert_eq. eauto.
    + rewrite lookup_insert_ne by done. eauto.
  - unfold path_exists. rewrite node_at_nonroot by done.
    by rewrite lookup_insert_eq.
Qed.

(** The skip: both destinations exist and [overwrite] is false. *)
Lemma split_and_save_skip (img_path photo_path label_path : Path) (fs : FS) :
  path_exists fs photo_path = true -> path_exists fs label_path = true ->
  split_and_save img_path photo_path label_path false fs = (Ok tt, fs).
Proof.
  intros Hp Hl. unfold split_and_save, bind, get. by rewrite Hp, Hl.
Qed.

(** A call that returns removed nothing, and both destinations exist
    after it. *)
Lemma split_and_save_post (img_path photo_path label_path : Path)
    (overwrite : bool) (fs fs' : FS) :
  split_and_save img_path photo_path label_path overwrite fs = (Ok tt, fs') ->
  grows fs fs' /\ path_exists fs' photo_path = true /\ path_exists fs' label_path = true.
Proof.
  unfold split_and_save. unfold bind at 1, get at 1.
  destruct (negb overwrite && path_exists fs photo_path && path_exists fs label_path) eqn:G.
  - intros [= <-]. apply andb_true_iff in G as [[_ ?]%andb_true_iff ?]. done.
  - intros (img & fs0 & Ho & H)%bind_Ok_inv.
    unfold Image_open in Ho. injection Ho as _ <-.
    cbn [img_size] in H.
    destruct (negb (width img mod 2 =? 0)); [done |].
    apply bind_Ok_inv in H as ([] & fs1 & H1 & H).
    apply bind_Ok_inv in H as ([] & fs2 & H2 & H).
    apply bind_Ok_inv in H as ([] & fs3 & H3 & H4).
    apply mkdir_parents_grows in H1, H2.
    apply write_file_grows in H3 as [G3 E3], H4 as [G4 E4].
    split; [| split; [by apply G4 | done]].
    by repeat (etrans; [eassumption |]).
Qed.
End Growth.

(** ** The order of paths *)

Section PathOrder.
Import PathLib.

Lemma string_compare_refl (s : string) : String.compare s s = Eq.
Proof.
  induction s as [| a s IH]; [done |]. cbn.
  unfold Ascii.compare. by rewrite N.compare_refl.
Qed.

(** Swapping the arguments of [compare] reverses the outcome. *)
Lemma compare_antisym (p q : Path) : compare p q = CompOpp (compare q p).
Proof.
  revert q. induction p as [| a p IH]; intros [| b q]; cbn; try done.
  rewrite (String.compare_antisym b a).
  destruct (String.compare a b); cbn; [apply IH | done | done].
Qed.


End PathOrder.

#[local] Instance le_total : Total PathLib.le.
Proof.
  intros p q. unfold PathLib.le, PathLib.leb. rewrite (compare_antisym q p).
  destruct (PathLib.compare p q); cbn; auto.
Qed.

Section PathOrderFacts.
Import PathLib.

Lemma ascii_compare_lt_trans (a b c : ascii) :
  Ascii.compare a b = Lt -> Ascii.compare b c = Lt -> Ascii.compare a c = Lt.
Proof.
  unfold Ascii.compare. rewrite !N.compare_lt_iff. apply N.lt_trans.
Qed.

Lemma string_compare_lt_trans (s1 s2 s3 : string) :
  String.compare s1 s2 = Lt -> String.compare s2 s3 = Lt ->
  String.compare s1 s3 = Lt.
Proof.
  revert s2 s3. induction s1 as [| a s1 IH]; intros [| b s2] [| c s3]; cbn; try done.
  destruct (Ascii.compare a b) eqn:Eab; [| | done].
  - apply Ascii.compare_eq_iff in Eab as ->.
    destruct (Ascii.compare b c); [apply IH | done | done].
  - intros _. destruct (Ascii.compare b c) eqn:Ebc; [| | done].
    + apply Ascii.compare_eq_iff in Ebc as <-. by rewrite Eab.
    + by rewrite (ascii_compare_lt_trans _ _ _ Eab Ebc).
Qed.

Lemma compare_eq (p q : Path) : compare p q = Eq -> p = q.
Proof.
  revert q. induction p as [| a p IH]; intros [| b q]; cbn; try done.
  destruct (String.compare a b) eqn:E; [| done | done].
  apply String.compare_eq_iff in E as ->. intros H. f_equal. by apply IH.
Qed.

Lemma compare_lt_trans (p q r : Path) :
  compare p q = Lt -> compare q r = Lt -> compare p r = Lt.
Proof.
  revert q r. induction p as [| a p IH]; intros [| b q] [| c r]; cbn; try done.
  destruct (String.compare a b) eqn:Eab; [| | done].
  - apply String.compare_eq_iff in Eab as ->.
    destruct (String.compare b c); [apply IH | done | done].
  - intros _. destruct (String.compare b c) eqn:Ebc; [| | done].
    + apply String.compare_eq_iff in Ebc as <-. by rewrite Eab.
    + by rewrite (string_compare_lt_trans _ _ _ Eab Ebc).
Qed.
End PathOrderFacts.

#[local] Instance le_trans : Transitive PathLib.le.
Proof.
  intros p q r. unfold PathLib.le, PathLib.leb.
  destruct (PathLib.compare p q) eqn:Epq; [| | done].
  - by apply compare_eq in Epq as ->.
  - destruct (PathLib.compare q r) eqn:Eqr; [| | done].
    + apply compare_eq in Eqr as <-. by rewrite Epq.
    + by rewrite (compare_lt_trans _ _ _ Epq Eqr).
Qed.

#[local] Instance le_antisym : AntiSymm (=) PathLib.le.
Proof.
  intros p q. unfold PathLib.le, PathLib.leb. rewrite (compare_antisym q p).
  destruct (PathLib.compare p q) eqn:E; cbn; [| done | done].
  intros _ _. by apply compare_eq.
Qed.

(** Sorting does not depend on the order the entries are listed in. *)
Lemma sorted_Permutation (l1 l2 : list Path) :
  l1 ≡ₚ l2 -> PathLib.sorted l1 = PathLib.sorted l2.
Proof.
  intros HP. unfold PathLib.sorted.
  apply (Sorted_unique PathLib.le).
  - apply (Sorted_merge_sort PathLib.le).
  - apply (Sorted_merge_sort PathLib.le).
  - by rewrite !merge_sort_Permutation.
Qed.

(** ** Listing a directory *)

Section SameDirectory.
Import PathLib.

(** Entries of one directory are ordered by their names. *)
Lemma compare_same_parent (d : Path) (a b : string) :
  compare (d ++ [a]) (d ++ [b]) = String.compare a b.
Proof.
  induction d as [| c d IH]; cbn.
  - by destruct (String.compare a b).
  - by rewrite string_compare_refl.
Qed.

Lemma entry_eq (d p : Path) : is_entry d p -> p = d ++ [name p].
Proof.
  intros [Hne <-]. unfold parent, name. by apply app_removelast_last.
Qed.

Lemma le_by_name (d p q : Path) :
  is_entry d p -> is_entry d q -> le p q -> by_name p q.
Proof.
  intros Hp%entry_eq Hq%entry_eq. unfold le, leb, by_name, String.leb.
  rewrite Hp, Hq at 1. by rewrite compare_same_parent.
Qed.

Lemma StronglySorted_by_name (d : Path) (l : list Path) :
  Forall (is_entry d) l -> StronglySorted le l -> StronglySorted by_name l.
Proof.
  intros Hall Hs. induction Hs as [| p l Hs IH Hhd]; [constructor |].
  apply Forall_cons in Hall as [Hp Hl].
  constructor; [by apply IH |].
  rewrite Forall_forall in Hhd, Hl |- *.
  intros q Hq. apply (le_by_name d); auto.
Qed.

(** Distinct entries of one directory have distinct names. *)
Lemma name_inj_entries (d : Path) (l : list Path) :
  Forall (is_entry d) l -> NoDup l -> NoDup (List.map name l).
Proof.
  intros Hall Hnd. induction Hnd as [| p l Hp Hnd IH]; [constructor |].
  apply Forall_cons in Hall as [Hpe Hl]. cbn. constructor; [| by apply IH].
  intros (q & Hq & Hin)%list_elem_of_fmap. apply Hp.
  rewrite Forall_forall in Hl. specialize (Hl q Hin).
  rewrite (entry_eq _ _ Hpe), Hq. by rewrite <- (entry_eq _ _ Hl).
Qed.
End SameDirectory.

Section Glob.
Import PathLib.

(** What [glob_star] lists. *)
Lemma elem_of_glob_star (fs : FS) (d : Path) (suffix : string) (p : Path) :
  p ∈ glob_star fs d suffix <->
  is_dir fs d = true /\ is_Some (fs !! p) /\ glob_match d suffix p.
Proof.
  unfold glob_star. destruct (is_dir fs d).
  - rewrite list_elem_of_filter, list_elem_of_fmap. split.
    + intros (Hm & [q n] & -> & Hq%elem_of_map_to_list). cbn in *. eauto.
    + intros (_ & [n Hn] & Hm). split; [done |].
      exists (p, n). split; [done |]. by apply elem_of_map_to_list.
  - split; [intros H; inversion H | by intros [? _]].
Qed.

Lemma NoDup_glob_star (fs : FS) (d : Path) (suffix : string) :
  NoDup (glob_star fs d suffix).
Proof.
  unfold glob_star. destruct (is_dir fs d); [| constructor].
  apply NoDup_filter, NoDup_fst_map_to_list.
Qed.

Lemma sorted_nil_iff (l : list Path) : sorted l = [] <-> l = [].
Proof.
  unfold sorted. split.
  - intros H. apply Permutation_nil_r. rewrite <- H.
    symmetry. apply merge_sort_Permutation.
  - by intros ->.
Qed.

(** The sorted listing of a directory. *)
Lemma sorted_glob_lists (fs : FS) (d : Path) :
  is_dir fs d = true ->
  lists_jpgs fs d (sorted (glob_star fs d ".jpg")).
Proof.
  intros Hd. unfold sorted.
  pose proof (merge_sort_Permutation le (glob_star fs d ".jpg")) as HP.
  assert (Hmem : forall p, p ∈ merge_sort le (glob_star fs d ".jpg") <->
            is_Some (fs !! p) /\ is_entry d p /\ endswith (name p) ".jpg" = true).
  { intros p. rewrite HP, elem_of_glob_star. unfold glob_match. intuition. }
  split; [| split; [| done]].
  - apply (StronglySorted_by_name d).
    + apply Forall_forall. intros p Hp. by apply Hmem in Hp as (_ & ? & _).
    + apply (StronglySorted_merge_sort le).
  - rewrite HP. apply NoDup_glob_star.
Qed.
End Glob.

Section Collect.
Import PathLib.
Context {K : Kernels}.

Lemma collect_split_run (raw_dir : Path) (splits : dict (list Path))
    (split : string) (fs : FS) :
  collect_split raw_dir splits split fs =
  (if negb (path_exists fs (child raw_dir split)) then
     Raise (FileNotFoundError (MissingSplitDirectory (child raw_dir split)))
   else match sorted (glob_star fs (child raw_dir split) ".jpg") with
        | [] => Raise (FileNotFoundError (NoJpgFilesFound (child raw_dir split)))
        | files => Ok (dict_set splits split files)
        end, fs).
Proof.
  unfold collect_split, bind, get.
  destruct (path_exists fs (child raw_dir split)); cbn; [| done].
  by destruct (sorted (glob_star fs (child raw_dir split) ".jpg")).
Qed.

Lemma glob_star_nonempty_dir (fs : FS) (d : Path) (suffix : string) :
  glob_star fs d suffix <> [] -> is_dir fs d = true.
Proof. unfold glob_star. by destruct (is_dir fs d). Qed.

(** [collect_files] as its four checks in order. *)
Lemma collect_files_run (raw_dir : Path) (fs : FS) :
  collect_files raw_dir fs =
  (let train_dir := child raw_dir "train" in
   let val_dir := child raw_dir "val" in
   if negb (path_exists fs train_dir) then
     Raise (FileNotFoundError (MissingSplitDirectory train_dir))
   else match sorted (glob_star fs train_dir ".jpg") with
   | [] => Raise (FileNotFoundError (NoJpgFilesFound train_dir))
   | train_files =>
       if negb (path_exists fs val_dir) then
         Raise (FileNotFoundError (MissingSplitDirectory val_dir))
       else match sorted (glob_star fs val_dir ".jpg") with
       | [] => Raise (FileNotFoundError (NoJpgFilesFound val_dir))
       | val_files => Ok [("train", train_files); ("val", val_files)]
       end
   end, fs).
Proof.
  unfold collect_files. cbn [for_fold]. unfold bind. rewrite collect_split_run.
  destruct (path_exists fs (child raw_dir "train")); cbn; [| done].
  destruct (sorted (glob_star fs (child raw_dir "train") ".jpg")); [done |].
  destruct (path_exists fs (child raw_dir "val")); cbn; [| done].
  by destruct (sorted (glob_star fs (child raw_dir "val") ".jpg")).
Qed.

Lemma collect_files_state (raw_dir : Path) (fs : FS) :
  snd (collect_files raw_dir fs) = fs.
Proof. by rewrite collect_files_run. Qed.

(** What a successful [collect_files] returned. *)
Lemma collect_files_Ok (raw_dir : Path) (fs fs' : FS) (splits : dict (list Path)) :
  collect_files raw_dir fs = (Ok splits, fs') ->
  fs' = fs
  /\ splits = [("train", sorted (glob_star fs (child raw_dir "train") ".jpg"));
               ("val", sorted (glob_star fs (child raw_dir "val") ".jpg"))]
  /\ is_dir fs (child raw_dir "train") = true
  /\ is_dir fs (child raw_dir "val") = true.
Proof.
  rewrite collect_files_run. cbn zeta.
  destruct (path_exists fs (child raw_dir "train")); cbn; [| done].
  destruct (sorted (glob_star fs (child raw_dir "train") ".jpg")) as [| p l] eqn:E1; [done |].
  destruct (path_exists fs (child raw_dir "val")); cbn; [| done].
  destruct (sorted (glob_star fs (child raw_dir "val") ".jpg")) as [| q l'] eqn:E2; [done |].
  intros [= <- <-]. split; [done |]. split; [done |].
  split; apply (glob_star_nonempty_dir _ _ ".jpg"); intros Hnil;
    apply sorted_nil_iff in Hnil; congruence.
Qed.
End Collect.

(** ** The whole data set *)

Section Process.
Import PathLib.
Context {K : Kernels}.

(** After a run that returned: the mapping is the collected one, nothing
    was removed, and every collected file has its two outputs. *)
Lemma process_dataset_post (raw_dir out_dir : Path) (overwrite : bool)
    (fs fs1 : FS) (splits : dict (list Path)) :
  process_dataset raw_dir out_dir overwrite fs = (Ok splits, fs1) ->
  collect_files raw_dir fs = (Ok splits, fs)
  /\ grows fs fs1
  /\ processed fs1 out_dir splits.
Proof.
  unfold process_dataset.
  intros (splits' & fs0 & Hc & H)%bind_Ok_inv.
  apply bind_Ok_inv in H as ([] & fs1' & Hloop & [= -> ->]).
  pose proof (collect_files_Ok _ _ _ _ Hc) as (-> & _).
  split; [done |].
  apply (for_each_post _ grows
           (fun kv s => forall img_path, img_path ∈ snd kv ->
                          has_outputs s out_dir (fst kv) img_path)) in Hloop.
  - destruct Hloop as [Hg Hq]. split; [done |].
    intros split files img_path Hin Himg. by apply (Hq (split, files)).
  - intros [split files] s1 s2 Hinner. cbn [fst snd].
    apply (for_each_post _ grows
             (fun img_path s => has_outputs s out_dir split img_path)) in Hinner.
    + done.
    + intros img_path s3 s4 Hs. apply split_and_save_post in Hs as (? & ? & ?).
      by repeat split.
    + intros img_path s3 s4 [Hp Hl] Hg. split; by apply Hg.
  - intros [split files] s1 s2 Hq Hg img_path Himg.
    destruct (Hq img_path Himg) as [Hp Hl]. split; by apply Hg.
Qed.

(** Over an already processed tree every call skips. *)
Lemma process_dataset_again (raw_dir out_dir : Path) (fs : FS)
    (splits : dict (list Path)) :
  collect_files raw_dir fs = (Ok splits, fs) ->
  processed fs out_dir splits ->
  process_dataset raw_dir out_dir false fs = (Ok splits, fs).
Proof.
  intros Hc Hdone. unfold process_dataset.
  rewrite (bind_Ok _ _ _ _ _ Hc).
  rewrite (bind_Ok _ _ fs fs tt); [done |].
  apply for_each_unchanged. intros [split files] Hin.
  apply for_each_unchanged. intros img_path Himg.
  destruct (Hdone split files img_path Hin Himg) as [Hp Hl].
  by apply split_and_save_skip.
Qed.

(** What the index file holds once [write_split_file] returned. *)
Lemma write_split_file_inv (split_file : Path) (splits : dict (list Path))
    (fs fs' : FS) :
  write_split_file split_file splits fs = (Ok tt, fs') ->
  json_load fs' split_file
  = Ok (List.map (fun kv => (fst kv, List.map name (snd kv))) splits).
Proof.
  unfold write_split_file.
  intros ([] & fs1 & _ & Hw)%bind_Ok_inv.
  destruct (encodable _).
  - apply write_file_inv in Hw as [-> Hne].
    unfold json_load. rewrite node_at_nonroot by done.
    by rewrite lookup_insert_eq.
  - apply bind_Ok_inv in Hw as ([] & fs2 & _ & Hraise). discriminate Hraise.
Qed.

Lemma child_entry (d : Path) (n : string) :
  is_entry d (child d n) /\ name (child d n) = n.
Proof.
  unfold is_entry, child, parent, name. split; [split |].
  - by destruct d.
  - apply removelast_last.
  - apply last_last.
Qed.

Lemma lists_jpgs_names (fs : FS) (d : Path) (l : list Path) :
  lists_jpgs fs d l -> indexes_jpgs fs d (List.map name l).
Proof.
  intros (_ & Hnd & Hmem). split.
  - apply (name_inj_entries d); [| done].
    apply Forall_forall. intros p Hp. by apply Hmem in Hp as (_ & ? & _).
  - intros n. rewrite list_elem_of_fmap. split.
    + intros (p & -> & Hp). apply Hmem in Hp as (Hs & He & Hj).
      unfold child. by rewrite <- (entry_eq _ _ He).
    + intros [Hs Hj]. exists (child d n).
      destruct (child_entry d n) as [He Hn]. split; [done |].
      apply Hmem. by rewrite Hn.
Qed.
End Process.

(** ** What a run creates *)

Section Touches.
Import PathLib.
Context {K : Kernels}.

Lemma touches_refl (T : Path -> Prop) (fs : FS) : touches T fs fs.
Proof.
  split; [eauto |]. intros p Hn [n Hs]. congruence.
Qed.

Lemma touches_trans (T : Path -> Prop) (fs1 fs2 fs3 : FS) :
  touches T fs1 fs2 -> touches T fs2 fs3 -> touches T fs1 fs3.
Proof.
  intros [K1 N1] [K2 N2]. split.
  - intros p n H1. destruct (K1 _ _ H1) as (n' & H2 & D1).
    destruct (K2 _ _ H2) as (n'' & H3 & D2). eauto.
  - intros p Hn Hs. destruct (fs2 !! p) as [n |] eqn:E2.
    + apply N1; eauto.
    + by apply N2.
Qed.

Lemma touches_weaken (T T' : Path -> Prop) (fs fs' : FS) :
  (forall p, T p -> T' p) -> touches T fs fs' -> touches T' fs fs'.
Proof. intros HT [K1 N1]. split; [done |]. eauto. Qed.

Lemma mkdir_parents_touches (fs fs' : FS) (q : Path) :
  mkdir_parents q fs = (Ok tt, fs') ->
  touches (fun p => p ∈ mkdir_chain [] q) fs fs'.
Proof.
  intros (_ & L & _)%mkdir_parents_inv. split.
  - intros p n Hp. exists n. by rewrite L, (made_Some _ _ _ _ Hp).
  - intros p Hn. rewrite L. unfold made. rewrite Hn.
    case_decide; [done |]. by intros [? ?].
Qed.

Lemma write_file_touches (fs fs' : FS) (q : Path) (d : FileData) :
  write_file q d fs = (Ok tt, fs') -> touches (fun p => p = q) fs fs'.
Proof.
  intros H. assert (Hnd : fs !! q <> Some Dir).
  { revert H. unfold write_file. destruct q as [| c q']; [done |]. cbn [node_at].
    by destruct (fs !! (c :: q')) as [[| x] |]. }
  apply write_file_inv in H as [-> Hq]. split.
  - intros p n Hp. destruct (decide (q = p)) as [-> | Hne].
    + rewrite lookup_insert_eq. eexists. split; [done |]. by intros ->.
    + rewrite lookup_insert_ne by done. eauto.
  - intros p Hn Hs. destruct (decide (q = p)) as [-> | Hne]; [done |].
    rewrite lookup_insert_ne, Hn in Hs by done. by destruct Hs.
Qed.

(** What [split_and_save] may create: the directories above the two
    destinations and the destinations. *)
Lemma split_and_save_touches (img_path photo_path label_path : Path)
    (overwrite : bool) (fs fs' : FS) :
  split_and_save img_path photo_path label_path overwrite fs = (Ok tt, fs') ->
  touches (fun p => p ∈ mkdir_chain [] (parent photo_path)
                    \/ p ∈ mkdir_chain [] (parent label_path)
                    \/ p = photo_path \/ p = label_path) fs fs'.
Proof.
  unfold split_and_save. unfold bind at 1, get at 1.
  destruct (negb overwrite && path_exists fs photo_path && path_exists fs label_path).
  - intros [= <-]. apply touches_refl.
  - intros (img & fs0 & Ho & H)%bind_Ok_inv.
    unfold Image_open in Ho. injection Ho as _ <-.
    cbn [img_size] in H.
    destruct (negb (width img mod 2 =? 0)); [done |].
    apply bind_Ok_inv in H as ([] & fs1 & H1 & H).
    apply bind_Ok_inv in H as ([] & fs2 & H2 & H).
    apply bind_Ok_inv in H as ([] & fs3 & H3 & H4).
    apply mkdir_parents_touches in H1, H2.
    apply write_file_touches in H3, H4.
    eapply touches_trans; [eapply touches_weaken; [| exact H1]; cbn; tauto |].
    eapply touches_trans; [eapply touches_weaken; [| exact H2]; cbn; tauto |].
    eapply touches_trans; [eapply touches_weaken; [| exact H3]; cbn; tauto |].
    eapply touches_weaken; [| exact H4]. cbn. tauto.
Qed.

Lemma mkdir_chain_app (pre a b : Path) :
  mkdir_chain pre (a ++ b) = mkdir_chain pre a ++ mkdir_chain (pre ++ a) b.
Proof.
  revert pre. induction a as [| c a IH]; intros pre; cbn.
  - by rewrite app_nil_r.
  - rewrite IH. by rewrite <- app_assoc.
Qed.

Lemma mkdir_chain_prefix (pre todo p : Path) :
  p ∈ mkdir_chain pre todo -> p `prefix_of` pre ++ todo.
Proof.
  revert pre. induction todo as [| c rest IH]; intros pre; cbn.
  - intros H. inversion H.
  - intros [-> | H]%elem_of_cons.
    + exists rest. by rewrite <- app_assoc.
    + apply IH in H. by rewrite <- app_assoc in H.
Qed.

Lemma chain_under_output (out_dir : Path) (s k : string) (p : Path) :
  k = "photo" \/ k = "label" ->
  p ∈ mkdir_chain [] (out_dir ++ [s; k]) -> under_output out_dir p.
Proof.
  intros Hk. rewrite mkdir_chain_app. cbn.
  intros [H | H]%elem_of_app.
  - left. by apply mkdir_chain_prefix in H.
  - right. exists s. apply elem_of_cons in H as [-> | H]; [by left |].
    apply elem_of_cons in H as [-> | H]; [| inversion H].
    right. exists k. split; [done |]. left. by rewrite <- app_assoc.
Qed.

Lemma dest_parents (out_dir : Path) (split : string) (img_path : Path) :
  parent (photo_dest out_dir split img_path) = out_dir ++ [split; "photo"]
  /\ parent (label_dest out_dir split img_path) = out_dir ++ [split; "label"]
  /\ (exists f, photo_dest out_dir split img_path = out_dir ++ [split; "photo"; f])
  /\ (exists f, label_dest out_dir split img_path = out_dir ++ [split; "label"; f]).
Proof.
  unfold photo_dest, label_dest, child, parent.
  rewrite !removelast_last, <- !app_assoc. cbn.
  repeat split; eexists; reflexivity.
Qed.

(** A run creates output paths only. *)
Lemma process_dataset_touches (raw_dir out_dir : Path) (overwrite : bool)
    (fs fs1 : FS) (splits : dict (list Path)) :
  process_dataset raw_dir out_dir overwrite fs = (Ok splits, fs1) ->
  touches (under_output out_dir) fs fs1.
Proof.
  unfold process_dataset.
  intros (splits' & fs0 & Hc & H)%bind_Ok_inv.
  apply bind_Ok_inv in H as ([] & fs1' & Hloop & [= -> ->]).
  pose proof (collect_files_Ok _ _ _ _ Hc) as (-> & _).
  assert (PreOrder (touches (under_output out_dir))) as HPO.
  { split; [intros x; apply touches_refl | intros x y z; apply touches_trans]. }
  apply (for_each_post _ (touches (under_output out_dir)) (fun _ _ => True)) in Hloop;
    [by destruct Hloop | | done].
  intros [split files] s1 s2 Hinner. split; [| done].
  apply (for_each_post _ (touches (under_output out_dir)) (fun _ _ => True)) in Hinner;
    [by destruct Hinner | | done].
  intros img_path s3 s4 Hs. split; [| done].
  apply split_and_save_touches in Hs.
  destruct (dest_parents out_dir split img_path) as (Pp & Pl & [fp Fp] & [fl Fl]).
  rewrite Pp, Pl, Fp, Fl in Hs.
  eapply touches_weaken; [| exact Hs]. cbn.
  intros p [H | [H | [-> | ->]]].
  - apply (chain_under_output _ split "photo"); [by left | done].
  - apply (chain_under_output _ split "label"); [by right | done].
  - right. exists split. right. exists "photo". split; [by left |]. right. eauto.
  - right. exists split. right. exists "label". split; [by right |]. right. eauto.
Qed.
End Touches.

Section Rerun.
Import PathLib.
Context {K : Kernels}.

(** No output path is a [.jpg] entry of a source directory. *)
Lemma under_output_no_entry (raw_dir out_dir : Path) (split : string) (p : Path) :
  outside_split raw_dir out_dir split ->
  split = "train" \/ split = "val" ->
  under_output out_dir p ->
  ~ glob_match (child raw_dir split) ".jpg" p.
Proof.
  intros Hout Hs Hu [He Hj]. unfold outside_split in Hout.
  destruct Hu as [Hpre | (s & [-> | (k & Hk & [-> | [f ->]])])].
  - apply Hout. etrans; [| exact Hpre].
    exists [name p]. by apply entry_eq.
  - destruct He as [_ He]. unfold parent in He.
    rewrite removelast_last in He. by rewrite He in Hout.
  - assert (E2 : out_dir ++ [s; k] = (out_dir ++ [s]) ++ [k])
      by (by rewrite <- app_assoc).
    revert Hj. unfold name. rewrite E2, last_last.
    by destruct Hk as [-> | ->].
  - assert (E2 : out_dir ++ [s; k] = (out_dir ++ [s]) ++ [k])
      by (by rewrite <- app_assoc).
    assert (E3 : out_dir ++ [s; k; f] = (out_dir ++ [s; k]) ++ [f])
      by (by rewrite <- app_assoc).
    destruct He as [_ He]. unfold parent, child in He.
    rewrite E3, removelast_last, E2 in He.
    apply app_inj_tail in He as [_ ->].
    destruct Hk as [-> | ->], Hs as [? | ?]; done.
Qed.

Lemma is_dir_touches (T : Path -> Prop) (fs fs' : FS) (d : Path) :
  touches T fs fs' -> is_dir fs d = true -> is_dir fs' d = true.
Proof.
  intros [Hk _]. unfold is_dir. destruct d as [| c d']; [done |]. cbn.
  destruct (fs !! (c :: d')) as [[| x] |] eqn:E; [| done | done].
  intros _. destruct (Hk _ _ E) as (n' & -> & Hd). by rewrite Hd.
Qed.

(** The listing of a directory in which nothing matching was created. *)
Lemma glob_star_stable (T : Path -> Prop) (fs fs' : FS) (d : Path) (suffix : string) :
  touches T fs fs' ->
  is_dir fs d = true ->
  (forall p, T p -> ~ glob_match d suffix p) ->
  glob_star fs' d suffix ≡ₚ glob_star fs d suffix.
Proof.
  intros Ht Hd Hnew. pose proof (is_dir_touches _ _ _ _ Ht Hd) as Hd'.
  destruct Ht as [Hk Hn].
  apply NoDup_Permutation; [apply NoDup_glob_star | apply NoDup_glob_star |].
  intros p. rewrite !elem_of_glob_star, Hd, Hd'. split.
  - intros (_ & Hs & Hm). split; [done |]. split; [| done].
    destruct (fs !! p) as [n |] eqn:E; [eauto |].
    destruct (Hnew p (Hn p E Hs) Hm).
  - intros (_ & [n Hs] & Hm). split; [done |]. split; [| done].
    destruct (Hk _ _ Hs) as (n' & -> & _). eauto.
Qed.

Lemma path_exists_is_dir (fs : FS) (d : Path) :
  is_dir fs d = true -> path_exists fs d = true.
Proof. unfold is_dir, path_exists. by destruct (node_at fs d). Qed.

(** A run that created nothing but output paths, with the output
    directory outside the two source directories, leaves what
    [collect_files] returns as it was. *)
Lemma collect_files_stable (raw_dir out_dir : Path) (fs fs1 : FS)
    (splits : dict (list Path)) :
  touches (under_output out_dir) fs fs1 ->
  outside_split raw_dir out_dir "train" ->
  outside_split raw_dir out_dir "val" ->
  collect_files raw_dir fs = (Ok splits, fs) ->
  collect_files raw_dir fs1 = (Ok splits, fs1).
Proof.
  intros Ht Otrain Oval Hc.
  pose proof (collect_files_Ok _ _ _ _ Hc) as (_ & _ & Dt & Dv).
  assert (Gt : sorted (glob_star fs1 (child raw_dir "train") ".jpg")
               = sorted (glob_star fs (child raw_dir "train") ".jpg")).
  { apply sorted_Permutation, (glob_star_stable _ _ _ _ _ Ht Dt).
    intros p Hp. apply (under_output_no_entry _ out_dir); auto. }
  assert (Gv : sorted (glob_star fs1 (child raw_dir "val") ".jpg")
               = sorted (glob_star fs (child raw_dir "val") ".jpg")).
  { apply sorted_Permutation, (glob_star_stable _ _ _ _ _ Ht Dv).
    intros p Hp. apply (under_output_no_entry _ out_dir); auto. }
  rewrite collect_files_run in Hc |- *. cbn zeta in *.
  rewrite Gt, Gv.
  rewrite (path_exists_is_dir _ _ (is_dir_touches _ _ _ _ Ht Dt)).
  rewrite (path_exists_is_dir _ _ (is_dir_touches _ _ _ _ Ht Dv)).
  rewrite (path_exists_is_dir _ _ Dt), (path_exists_is_dir _ _ Dv) in Hc.
  cbn [negb] in Hc |- *. injection Hc as Hc. by rewrite Hc.
Qed.

(** Running [process_dataset] again, without [overwrite], over the tree a
    successful run left changes nothing and returns the same mapping. *)
Lemma process_dataset_twice (raw_dir out_dir : Path) (overwrite : bool)
    (fs fs1 : FS) (splits : dict (list Path)) :
  outside_split raw_dir out_dir "train" ->
  outside_split raw_dir out_dir "val" ->
  process_dataset raw_dir out_dir overwrite fs = (Ok splits, fs1) ->
  process_dataset raw_dir out_dir false fs1 = (Ok splits, fs1).
Proof.
  intros Otrain Oval H.
  pose proof (process_dataset_touches _ _ _ _ _ _ H) as Ht.
  apply process_dataset_post in H as (Hc & _ & Hdone).
  apply process_dataset_again; [| done].
  by eapply collect_files_stable.
Qed.
End Rerun.

(** ** The splitter *)

Section Halves.
Context {K : Kernels}.



End Halves.

Section SplitClaims.
Import PathLib.
Context {K : Kernels}.


(** C6.  Past the skip test, a source image of odd width makes
    [split_and_save] raise the width error, and the file system is left as
    it was: neither destination is written. *)
Theorem odd_width_rejected (img_path photo_path label_path : Path)
    (overwrite : bool) (fs : FS) (img : Image) :
  skips fs photo_path label_path overwrite = false ->
  open_image fs img_path = Ok img ->
  width img mod 2 <> 0 ->
  split_and_save img_path photo_path label_path overwrite fs
  = (Raise (ValueError (ImageWidthNotDivisibleBy2 img_path)), fs).
Proof.
  intros Hskip Hopen Hodd.
  unfold split_and_save, skips, bind, get, Image_open in *.
  rewrite Hskip, Hopen. cbn [img_size].
  by destruct (Z.eqb_spec (width img mod 2) 0).
Qed.

(** C9.  When exactly one destination exists and [overwrite] is false,
    [split_and_save] does not skip: it runs as with [overwrite] true, and
    when it can write it leaves the newly cut halves at both destinations,
    whatever the existing one held. *)
Theorem one_missing_destination_resplits (img_path photo_path label_path : Path)
    (fs : FS) :
  path_exists fs photo_path <> path_exists fs label_path ->
  split_and_save img_path photo_path label_path false fs
  = split_and_save img_path photo_path label_path true fs
  /\ forall img,
       open_image fs img_path = Ok img ->
       width img mod 2 = 0 ->
       can_write fs photo_path label_path = true ->
       can_write fs label_path photo_path = true ->
       exists fs',
         split_and_save img_path photo_path label_path false fs = (Ok tt, fs')
         /\ fs' !! photo_path
            = Some (File (ImageFile JPEG (encoded JPEG (photo_half img))))
         /\ fs' !! label_path = Some (File (ImageFile PNG (label_half img))).
Proof.
  intros Hone.
  assert (Hskip : skips fs photo_path label_path false = false).
  { unfold skips. cbn.
    destruct (path_exists fs photo_path), (path_exists fs label_path); done. }
  split.
  - unfold split_and_save, skips, bind, get in *. cbn in *. by rewrite Hskip.
  - intros img Hopen Heven Hp Hl.
    apply (split_and_save_writes _ _ _ _ _ _ Hskip Hopen Heven Hp Hl).
    by intros ->.
Qed.

(** C4.  With both destinations present and [overwrite] false,
    [split_and_save] returns at once: it gives no error whatever the source
    path is (the source is not read) and the file system is unchanged.
    Hence [process_dataset] run without [overwrite] over a tree that holds
    the outputs of every collected file changes nothing and returns the
    collected mapping.  A run of [process_dataset] that succeeds leaves such
    a tree, and running it again (the output directory lying outside the
    two source directories) changes nothing and returns the same mapping. *)
Theorem skip_makes_rerun_idempotent :
  (forall (img_path photo_path label_path : Path) (fs : FS),
     path_exists fs photo_path = true -> path_exists fs label_path = true ->
     split_and_save img_path photo_path label_path false fs = (Ok tt, fs))
  /\ (forall (raw_dir out_dir : Path) (fs : FS) (splits : dict (list Path)),
        collect_files raw_dir fs = (Ok splits, fs) ->
        processed fs out_dir splits ->
        process_dataset raw_dir out_dir false fs = (Ok splits, fs))
  /\ (forall (raw_dir out_dir : Path) (overwrite : bool) (fs fs1 : FS)
        (splits : dict (list Path)),
        process_dataset raw_dir out_dir overwrite fs = (Ok splits, fs1) ->
        processed fs1 out_dir splits
        /\ (outside_split raw_dir out_dir "train" ->
            outside_split raw_dir out_dir "val" ->
            process_dataset raw_dir out_dir false fs1 = (Ok splits, fs1))).
Proof.
  split; [| split].
  - intros. by apply split_and_save_skip.
  - intros. by apply process_dataset_again.
  - intros raw_dir out_dir overwrite fs fs1 splits H. split.
    + by apply process_dataset_post in H as (_ & _ & Hdone).
    + intros Otrain Oval. by eapply process_dataset_twice.
Qed.
End SplitClaims.

Section CollectClaims.
Import PathLib.
Context {K : Kernels}.


(** C8 (amended).  When [process_dataset] and then [write_split_file]
    succeed, the index file maps [train] and [val] to the file names of the
    paths [collect_files] found, in the same order.  Each list holds the
    name of every [.jpg] entry of its own source directory exactly once: no
    source file is left out and none is listed twice in its list.  The two
    lists together are free of duplicates exactly when no [.jpg] name is
    used in both directories: a name used in both is in both lists. *)
Theorem split_index_lists_sources (raw_dir out_dir split_file : Path)
    (overwrite : bool) (fs fs1 fs2 : FS) (splits : dict (list Path)) :
  process_dataset raw_dir out_dir overwrite fs = (Ok splits, fs1) ->
  write_split_file split_file splits fs1 = (Ok tt, fs2) ->
  exists train_files val_files,
    collect_files raw_dir fs = (Ok [("train", train_files); ("val", val_files)], fs)
    /\ splits = [("train", train_files); ("val", val_files)]
    /\ json_load fs2 split_file
       = Ok [("train", List.map name train_files); ("val", List.map name val_files)]
    /\ lists_jpgs fs (child raw_dir "train") train_files
    /\ lists_jpgs fs (child raw_dir "val") val_files
    /\ indexes_jpgs fs (child raw_dir "train") (List.map name train_files)
    /\ indexes_jpgs fs (child raw_dir "val") (List.map name val_files)
    /\ (NoDup (List.map name train_files ++ List.map name val_files)
        <-> forall n, endswith n ".jpg" = true ->
              is_Some (fs !! child (child raw_dir "train") n) ->
              fs !! child (child raw_dir "val") n = None).
Proof.
  intros Hp Hw.
  apply process_dataset_post in Hp as (Hc & _ & _).
  pose proof (collect_files_Ok _ _ _ _ Hc) as (_ & -> & Dt & Dv).
  apply write_split_file_inv in Hw. cbn in Hw.
  pose proof (sorted_glob_lists fs _ Dt) as Lt.
  pose proof (sorted_glob_lists fs _ Dv) as Lv.
  apply lists_jpgs_names in Lt as Nt. apply lists_jpgs_names in Lv as Nv.
  eexists _, _. repeat (split; [done |]).
  destruct Nt as [Ut Mt], Nv as [Uv Mv].
  rewrite NoDup_app. split.
  - intros (_ & Hsep & _) n Hjpg Hin.
    destruct (fs !! child (child raw_dir "val") n) eqn:E; [| done].
    destruct (Hsep n); [by apply Mt | apply Mv; by rewrite E].
  - intros Hsep. split; [done |]. split; [| done].
    intros n [Hin Hjpg]%Mt [Hin' _]%Mv.
    rewrite (Hsep n Hjpg Hin) in Hin'. by destruct Hin'.
Qed.
End CollectClaims.

(** ** The data set accessor *)

Section DatasetClaims.
Context {K : Kernels}.

(** Python list indexing: out of range on both sides, and the negative
    indices. *)
Lemma list_getitem_outside {A} (l : list A) (idx : Z) :
  idx < - Z.of_nat (length l) \/ Z.of_nat (length l) <= idx ->
  list_getitem l idx = Raise IndexError.
Proof.
  intros H. unfold list_getitem.
  destruct (Z.ltb_spec idx 0) as [Hneg | Hpos].
  - destruct (Z.ltb_spec (idx + Z.of_nat (length l)) 0); cbn; [done | exfalso; lia].
  - destruct (Z.ltb_spec idx 0); [lia |].
    destruct (Z.leb_spec (Z.of_nat (length l)) idx); cbn; [done | exfalso; lia].
Qed.

Lemma list_getitem_negative {A} (l : list A) (idx : Z) :
  - Z.of_nat (length l) <= idx < 0 ->
  list_getitem l idx = list_getitem l (idx + Z.of_nat (length l)).
Proof.
  intros H. unfold list_getitem.
  assert (E1 : (idx <? 0) = true) by (apply Z.ltb_lt; lia).
  assert (E2 : (idx + Z.of_nat (length l) <? 0) = false) by (apply Z.ltb_ge; lia).
  by rewrite E1, !E2.
Qed.

(** C5 (amended).  [__getitem__] raises [IndexError], before it reads any
    file or draws any random number, for every index [idx] with
    [idx >= len] or [idx < -len]; an index with [-len <= idx < 0] is not an
    error: it counts from the end and behaves as [idx + len]. *)
Theorem getitem_index_range (self : CityscapesDataset) (fs : FS) (idx : Z) (g : Rng) :
  let n := __len__ self in
  (idx < - n \/ n <= idx -> __getitem__ self fs idx g = (Raise IndexError, g))
  /\ (- n <= idx < 0 ->
      __getitem__ self fs idx g = __getitem__ self fs (idx + n) g).
Proof.
  cbn zeta. unfold __len__, __getitem__, bind, lift. split; intros H.
  - by rewrite list_getitem_outside.
  - by rewrite list_getitem_negative.
Qed.
End DatasetClaims.

(** ** Concrete runs *)

(** A 512 x 256 pair through the jitter transform: 256 x 256 outputs. *)
Lemma transform_output_sizes_witness :
  square_output 256
    (fst (build_transform 256 true "tanh" true
            (gradient 512 256) (gradient 512 256) rng0)).
Proof.
  apply (transform_output_sizes 256 true "tanh" true
           (gradient 512 256) (gradient 512 256) rng0);
    [lia | cbn; lia | cbn; lia | reflexivity | by left |].
  left. split; [reflexivity | lia].
Defined.

(** The two runs on which the outputs are not [image_size] x [image_size]:
    [image_size = 300] with jitter (the crop is refused) and a 512 x 256
    pair without jitter (the outputs are 256 x 512). *)
Lemma transform_output_not_always_square :
  fst (build_transform 300 true "tanh" true (gradient 256 256) (gradient 256 256) rng0)
    = Raise (ValueError (CropLargerThanImage 300 300 286 286))
  /\ (exists label_t photo_t,
        fst (build_transform 256 false "tanh" false
               (gradient 512 256) (gradient 512 256) rng0)
          = Ok (label_t, photo_t)
        /\ shape label_t = (3, 256, 512) /\ shape photo_t = (3, 256, 512))
  /\ ~ square_output 300
        (fst (build_transform 300 true "tanh" true
                (gradient 256 256) (gradient 256 256) rng0))
  /\ ~ square_output 256
        (fst (build_transform 256 false "tanh" false
                (gradient 512 256) (gradient 512 256) rng0)).
Proof.
  split; [reflexivity |].
  split; [eexists _, _; split; [reflexivity |]; split; reflexivity |].
  split.
  - intros (lt & pt & H & _). discriminate H.
  - intros (lt & pt & H & H1 & _). injection H as <- <-. discriminate H1.
Qed.

(** The byte 1 is [8421505 / 2^31] as a tensor element, the binary32
    number nearest to [1/255]: it is normalized into [[-1, 1]] and comes
    back within [2^-22]. *)
Lemma normalize_photo_tanh_roundtrip_witness :
  exists t' n r,
    normalize_photo (F.to_tensor (gradient 4 2)) "tanh" = Ok t'
    /\ item t' 0 0 1 = Finite n
    /\ (-1 <= n <= 1)%Q
    /\ f32_add (f32_mul (item t' 0 0 1) half) half = Finite r
    /\ (Qabs (r - (8421505 # 2147483648)) <= pow2 (-22))%Q.
Proof.
  destruct (normalize_photo_tanh_roundtrip (F.to_tensor (gradient 4 2)) 0 0 1
              (8421505 # 2147483648))
    as (t' & n & r & Hrun & _ & _ & Hn & Hrange & _ & Hr & Hback).
  - vm_compute. reflexivity.
  - split; vm_compute; discriminate.
  - exists t', n, r. split; [exact Hrun |]. split; [exact Hn |].
    split; [exact Hrange |]. split; [exact Hr | exact Hback].
Defined.

(** The round trip is not an identity: the element [8421505 / 2^31] of
    the byte 1 is normalized to [-8322815 / 2^23], which is not the exact
    [(v - 0.5) / 0.5], and the inverse map gives [65793 / 2^24], which is
    not the element. *)
Lemma tanh_roundtrip_not_exact :
  item (F.to_tensor (gradient 4 2)) 0 0 1 = Finite (8421505 # 2147483648)
  /\ (exists t',
        normalize_photo (F.to_tensor (gradient 4 2)) "tanh" = Ok t'
        /\ item t' 0 0 1 = Finite (-8322815 # 8388608)
        /\ f32_add (f32_mul (item t' 0 0 1) half) half = Finite (65793 # 16777216))
  /\ ~ (-8322815 # 8388608 == ((8421505 # 2147483648) - (1 # 2)) / (1 # 2))%Q
  /\ ~ (65793 # 16777216 == 8421505 # 2147483648)%Q
  /\ ~ (forall (t : Tensor) (c y x : Z) (v : Q),
          item t c y x = Finite v -> (0 <= v <= 1)%Q ->
          exists t' r,
            normalize_photo t "tanh" = Ok t'
            /\ f32_add (f32_mul (item t' c y x) half) half = Finite r
            /\ (r == v)%Q).
Proof.
  assert (Hitem : item (F.to_tensor (gradient 4 2)) 0 0 1
                  = Finite (8421505 # 2147483648)) by (vm_compute; reflexivity).
  assert (Hback : f32_add (f32_mul (f32_div (f32_sub (Finite (8421505 # 2147483648)) half)
                                      half) half) half
                  = Finite (65793 # 16777216)) by (vm_compute; reflexivity).
  assert (Hne : ~ (65793 # 16777216 == 8421505 # 2147483648)%Q) by discriminate.
  split; [exact Hitem |]. split.
  { eexists. split; [reflexivity |]. cbn [tmap item]. rewrite Hitem.
    split; [vm_compute; reflexivity | exact Hback]. }
  split; [discriminate |]. split; [exact Hne |].
  intros H.
  destruct (H (F.to_tensor (gradient 4 2)) 0 0 1 _ Hitem) as (t' & r & Hrun & Hr & Heq).
  { split; discriminate. }
  injection Hrun as <-. cbn [tmap item] in Hr. rewrite Hitem, Hback in Hr.
  injection Hr as <-. exact (Hne Heq).
Qed.


(** The 5 x 2 image [raw/train/3.jpg] is refused and nothing changes. *)
Lemma odd_width_rejected_witness :
  split_and_save ["raw"; "train"; "3.jpg"]
    (photo_dest out_dir "train" ["raw"; "train"; "3.jpg"])
    (label_dest out_dir "train" ["raw"; "train"; "3.jpg"]) false odd_tree
  = (Raise (ValueError (ImageWidthNotDivisibleBy2 ["raw"; "train"; "3.jpg"])), odd_tree).
Proof.
  apply (odd_width_rejected _ _ _ false odd_tree (gradient 5 2));
    [reflexivity | reflexivity | discriminate].
Defined.

(** The photo exists, the label does not: the photo is written anew. *)
Lemma one_missing_destination_resplits_witness :
  path_exists half_done_tree (photo_dest out_dir "train" ["raw"; "train"; "1.jpg"]) = true
  /\ path_exists half_done_tree (label_dest out_dir "train" ["raw"; "train"; "1.jpg"]) = false
  /\ exists fs',
       split_and_save ["raw"; "train"; "1.jpg"]
         (photo_dest out_dir "train" ["raw"; "train"; "1.jpg"])
         (label_dest out_dir "train" ["raw"; "train"; "1.jpg"]) false half_done_tree
       = (Ok tt, fs')
       /\ fs' !! photo_dest out_dir "train" ["raw"; "train"; "1.jpg"]
          = Some (File (ImageFile JPEG (encoded JPEG (photo_half (gradient 4 2))))).
Proof.
  split; [reflexivity |]. split; [reflexivity |].
  destruct (one_missing_destination_resplits ["raw"; "train"; "1.jpg"]
              (photo_dest out_dir "train" ["raw"; "train"; "1.jpg"])
              (label_dest out_dir "train" ["raw"; "train"; "1.jpg"])
              half_done_tree) as [_ Hwrites]; [discriminate |].
  destruct (Hwrites (gradient 4 2)) as (fs' & Hrun & Hphoto & _);
    [reflexivity | reflexivity | reflexivity | reflexivity |].
  exists fs'. split; [exact Hrun | exact Hphoto].
Defined.

(** Two runs over [raw_tree]: the second changes nothing. *)
Lemma skip_makes_rerun_idempotent_witness :
  exists splits,
    fst (process_dataset ["raw"] out_dir false raw_tree) = Ok splits
    /\ process_dataset ["raw"] out_dir false
         (snd (process_dataset ["raw"] out_dir false raw_tree))
       = (Ok splits, snd (process_dataset ["raw"] out_dir false raw_tree)).
Proof.
  exists [("train", [["raw"; "train"; "1.jpg"]]); ("val", [["raw"; "val"; "2.jpg"]])].
  assert (Hrun : fst (process_dataset ["raw"] out_dir false raw_tree)
                 = Ok [("train", [["raw"; "train"; "1.jpg"]]);
                       ("val", [["raw"; "val"; "2.jpg"]])])
    by (vm_compute; reflexivity).
  split; [exact Hrun |].
  destruct skip_makes_rerun_idempotent as (_ & _ & Hrerun).
  destruct (Hrerun _ _ _ _ _ _ (run_pair _ _ _ Hrun)) as [_ Hagain].
  apply Hagain; intros [rest Hrest]; discriminate Hrest.
Defined.
(** On the one-file data set: index 1 is out of range, index -1 is index 0. *)
Lemma getitem_index_range_witness :
  __getitem__ train_set prepared_tree 1 rng0 = (Raise IndexError, rng0)
  /\ __getitem__ train_set prepared_tree (-1) rng0
     = __getitem__ train_set prepared_tree 0 rng0.
Proof.
  destruct (getitem_index_range train_set prepared_tree 1 rng0) as [Hout _].
  destruct (getitem_index_range train_set prepared_tree (-1) rng0) as [_ Hneg].
  change (__len__ train_set) with 1 in Hout, Hneg.
  split; [apply Hout; lia | apply Hneg; lia].
Defined.
(** Index -1 of the one-file data set returns the sample of [1.jpg]. *)
Lemma getitem_negative_index_returns :
  fst (__init__ ["data"] "train" split_file None prepared_tree) = Ok train_set
  /\ __len__ train_set = 1
  /\ match fst (__getitem__ train_set prepared_tree (-1) rng0) with
     | Ok sample => Dataset.name sample = "1.jpg"
     | Raise _ => False
     end
  /\ ~ (-1 < 0 \/ __len__ train_set <= -1 ->
        fst (__getitem__ train_set prepared_tree (-1) rng0) = Raise IndexError).
Proof.
  assert (Hrun : match fst (__getitem__ train_set prepared_tree (-1) rng0) with
                 | Ok sample => Dataset.name sample = "1.jpg"
                 | Raise _ => False
                 end) by (vm_compute; reflexivity).
  split; [vm_compute; reflexivity |]. split; [reflexivity |].
  split; [exact Hrun |].
  intros H. rewrite (H (or_introl eq_refl)) in Hrun. exact Hrun.
Qed.

(** The index written for [raw_tree]. *)
Lemma split_index_lists_sources_witness :
  exists fs1 fs2,
    process_dataset ["raw"] out_dir false raw_tree
      = (Ok [("train", [["raw"; "train"; "1.jpg"]]); ("val", [["raw"; "val"; "2.jpg"]])], fs1)
    /\ write_split_file split_file
         [("train", [["raw"; "train"; "1.jpg"]]); ("val", [["raw"; "val"; "2.jpg"]])] fs1
       = (Ok tt, fs2)
    /\ json_load fs2 split_file = Ok [("train", ["1.jpg"]); ("val", ["2.jpg"])]
    /\ indexes_jpgs raw_tree ["raw"; "train"] ["1.jpg"]
    /\ indexes_jpgs raw_tree ["raw"; "val"] ["2.jpg"].
Proof.
  assert (Hrun : fst (process_dataset ["raw"] out_dir false raw_tree)
                 = Ok [("train", [["raw"; "train"; "1.jpg"]]);
                       ("val", [["raw"; "val"; "2.jpg"]])])
    by (vm_compute; reflexivity).
  apply run_pair in Hrun.
  assert (Hwrite : fst (write_split_file split_file
                          [("train", [["raw"; "train"; "1.jpg"]]);
                           ("val", [["raw"; "val"; "2.jpg"]])]
                          (snd (process_dataset ["raw"] out_dir false raw_tree)))
                   = Ok tt)
    by (vm_compute; reflexivity).
  apply run_pair in Hwrite.
  destruct (split_index_lists_sources _ _ _ _ _ _ _ _ Hrun Hwrite)
    as (train_files & val_files & _ & Hsplits & Hjson & _ & _ & Htrain & Hval & _).
  injection Hsplits as <- <-.
  eexists _, _. split; [exact Hrun |]. split; [exact Hwrite |].
  split; [exact Hjson |]. split; [exact Htrain | exact Hval].
Defined.

(** C8, as first worded, fails where the two source directories share a
    file name: with [1.jpg] in both [raw/train] and [raw/val] the run and
    the write succeed and the index lists [1.jpg] under [train] and under
    [val], so the two lists together hold that name twice. *)
Lemma split_index_repeats_shared_name :
  exists fs1 fs2,
    process_dataset ["raw"] out_dir false same_name_tree
      = (Ok [("train", [["raw"; "train"; "1.jpg"]]); ("val", [["raw"; "val"; "1.jpg"]])], fs1)
    /\ write_split_file split_file
         [("train", [["raw"; "train"; "1.jpg"]]); ("val", [["raw"; "val"; "1.jpg"]])] fs1
       = (Ok tt, fs2)
    /\ json_load fs2 split_file = Ok [("train", ["1.jpg"]); ("val", ["1.jpg"])]
    /\ ~ NoDup (["1.jpg"] ++ ["1.jpg"]).
Proof.
  assert (Hrun : fst (process_dataset ["raw"] out_dir false same_name_tree)
                 = Ok [("train", [["raw"; "train"; "1.jpg"]]);
                       ("val", [["raw"; "val"; "1.jpg"]])])
    by (vm_compute; reflexivity).
  apply run_pair in Hrun.
  assert (Hwrite : fst (write_split_file split_file
                          [("train", [["raw"; "train"; "1.jpg"]]);
                           ("val", [["raw"; "val"; "1.jpg"]])]
                          (snd (process_dataset ["raw"] out_dir false same_name_tree)))
                   = Ok tt)
    by (vm_compute; reflexivity).
  apply run_pair in Hwrite.
  eexists _, _. split; [exact Hrun |]. split; [exact Hwrite |].
  split; [vm_compute; reflexivity |].
  intros Hnodup. apply NoDup_cons in Hnodup as [Hnotin _].
  apply Hnotin. by left.
Qed.

(** * Further properties *)

(** ** The transform: crop window, flip, random sources, modes *)

Section TransformExtras.
Context {K : Kernels}.

(** The flip test [random.random() < 0.5] on the draw [k / 2^53]. *)
Lemma flip_test (k : Z) :
  Qltb (Qmake (k mod 2 ^ 53) (2 ^ 53)) (1 # 2) = (k mod 2 ^ 53 <? 2 ^ 52).
Proof.
  unfold Qltb, Qle_bool. cbn [Qnum Qden].
  destruct (Z.leb_spec (1 * Z.pos (2 ^ 53)) (k mod 2 ^ 53 * 2));
    destruct (Z.ltb_spec (k mod 2 ^ 53) (2 ^ 52)); cbn; try done; lia.
Qed.

(** A crop that returned used one window inside the photo for both
    images. *)
Lemma random_crop_pair_Ok (label photo l1 p1 : Image) (size : Z) (g g' : Rng) :
  _random_crop_pair label photo size g = (Ok (l1, p1), g') ->
  exists i j,
    l1 = F.crop label i j size size /\ p1 = F.crop photo i j size size
    /\ 0 <= i <= height photo - size /\ 0 <= j <= width photo - size.
Proof.
  unfold _random_crop_pair, F.get_params, bind, torch_randint, ret, raise.
  destruct (Z.ltb_spec (height photo) size); [done |].
  destruct (Z.ltb_spec (width photo) size); [done |]. cbn [orb].
  destruct (Z.eqb_spec (width photo) size) as [Ew | Ew];
    [destruct (Z.eqb_spec (height photo) size) as [Eh | Eh] |]; cbn [andb].
  - intros [= <- <- <-]. exists 0, 0. rewrite Ew, Eh. repeat split; lia.
  - destruct (Z.leb_spec (height photo - size + 1) 0); [lia |].
    destruct (Z.leb_spec (width photo - size + 1) 0); [lia |].
    pose proof (Z.mod_pos_bound (List.hd 0 (torch_draws g)) (height photo - size + 1)).
    cbn. intros [= <- <- <-]. eexists _, _. split; [reflexivity |]. split; [reflexivity |].
    rewrite Ew, Z.sub_diag, Z.add_0_l, Z.mod_1_r. lia.
  - destruct (Z.leb_spec (height photo - size + 1) 0); [lia |].
    destruct (Z.leb_spec (width photo - size + 1) 0); [lia |].
    pose proof (Z.mod_pos_bound (List.hd 0 (torch_draws g)) (height photo - size + 1)).
    pose proof (Z.mod_pos_bound (List.hd 0 (List.tl (torch_draws g)))
                  (width photo - size + 1)).
    cbn. intros [= <- <- <-]. eexists _, _. split; [reflexivity |]. split; [reflexivity |].
    lia.
Qed.

(** X1.  [_random_crop_pair] refuses a size larger than the photo.  For a
    size that is not negative and a label of the size of the photo it
    otherwise cuts the same [size] x [size] window out of both, and the
    window lies inside both rasters. *)
Theorem random_crop_pair_window (label photo : Image) (size : Z) (g : Rng) :
  (height photo < size \/ width photo < size ->
   _random_crop_pair label photo size g
   = (Raise (ValueError (CropLargerThanImage size size (height photo) (width photo))), g))
  /\ (0 <= size -> img_size label = img_size photo ->
      size <= height photo -> size <= width photo ->
      exists i j g',
        _random_crop_pair label photo size g
        = (Ok (F.crop label i j size size, F.crop photo i j size size), g')
        /\ 0 <= i <= height photo - size
        /\ 0 <= j <= width photo - size
        /\ img_size (F.crop label i j size size) = (size, size)
        /\ img_size (F.crop photo i j size size) = (size, size)
        /\ forall x y, 0 <= x < size -> 0 <= y < size ->
             (0 <= j + x < width label /\ 0 <= i + y < height label)
             /\ getpixel (F.crop label i j size size) x y = getpixel label (j + x) (i + y)
             /\ getpixel (F.crop photo i j size size) x y = getpixel photo (j + x) (i + y)).
Proof.
  split.
  - unfold _random_crop_pair, F.get_params, bind, torch_randint, ret, raise.
    intros H. case_Z; try done; lia.
  - intros Hsize Heq Hh Hw. injection Heq as Elw Elh.
    assert (Hrun : exists i j g',
              _random_crop_pair label photo size g
              = (Ok (F.crop label i j size size, F.crop photo i j size size), g')
              /\ 0 <= i <= height photo - size /\ 0 <= j <= width photo - size).
    { destruct (_random_crop_pair label photo size g) as [[[l1 p1] | e] g'] eqn:E.
      - destruct (random_crop_pair_Ok _ _ _ _ _ _ _ E) as (i & j & -> & -> & Hi & Hj).
        by exists i, j, g'.
      - exfalso. revert E.
        unfold _random_crop_pair, F.get_params, bind, torch_randint, ret, raise.
        destruct (Z.ltb_spec (height photo) size); [lia |].
        destruct (Z.ltb_spec (width photo) size); [lia |]. cbn [orb].
        destruct ((width photo =? size) && (height photo =? size)); [done |].
        destruct (Z.leb_spec (height photo - size + 1) 0); [lia |].
        destruct (Z.leb_spec (width photo - size + 1) 0); [lia |]. done. }
    destruct Hrun as (i & j & g' & Hrun & Hi & Hj).
    exists i, j, g'. split; [exact Hrun |]. split; [exact Hi |]. split; [exact Hj |].
    unfold F.crop, Imaging.crop, img_size. cbn [width height getpixel].
    split; [f_equal; lia |]. split; [f_equal; lia |].
    intros x y Hx Hy. split; [lia | done].
Qed.

(** A transform that returned normalized some tensor in its mode. *)
Lemma transform_normalized (image_size : Z) (jitter : bool)
    (normalize_mode : string) (horizontal_flip : bool)
    (label photo : Image) (g g' : Rng) (label_t photo_t : Tensor) :
  build_transform image_size jitter normalize_mode horizontal_flip label photo g
  = (Ok (label_t, photo_t), g') ->
  exists t, normalize_photo t normalize_mode = Ok photo_t.
Proof.
  unfold build_transform.
  intros ([l1 p1] & g1 & Hgeo & H)%bind_Ok_inv.
  apply bind_Ok_inv in H as (flip & g2 & Hflip & H).
  destruct flip;
    apply bind_Ok_inv in H as (pt & g3 & Hn & [= <- <- <-]);
    unfold lift in Hn; injection Hn as Hn _; eauto.
Qed.

(** X2.  Whenever the transform returns, label and photo went through the same
    geometry: the same resize target, with jitter one crop window (inside
    the resized photo), and one flip decision, taken from a single draw of
    Python's generator when flipping is enabled.  The label tensor is the
    plain tensor conversion of the label; only the photo is normalized. *)
Theorem transform_is_synchronized (image_size : Z) (jitter : bool)
    (normalize_mode : string) (horizontal_flip : bool)
    (label photo : Image) (g g' : Rng) (label_t photo_t : Tensor) :
  build_transform image_size jitter normalize_mode horizontal_flip label photo g
  = (Ok (label_t, photo_t), g') ->
  exists (l1 p1 : Image) (flip : bool),
    (if jitter then
       exists l0 p0 i j,
         F.resize label 286 = Ok l0 /\ F.resize photo 286 = Ok p0
         /\ l1 = F.crop l0 i j image_size image_size
         /\ p1 = F.crop p0 i j image_size image_size
         /\ 0 <= i <= height p0 - image_size
         /\ 0 <= j <= width p0 - image_size
     else F.resize label image_size = Ok l1 /\ F.resize photo image_size = Ok p1)
    /\ flip = (if horizontal_flip
               then List.hd 0 (python_draws g) mod 2 ^ 53 <? 2 ^ 52
               else false)
    /\ label_t = F.to_tensor (if flip then F.hflip l1 else l1)
    /\ normalize_photo (F.to_tensor (if flip then F.hflip p1 else p1)) normalize_mode
       = Ok photo_t.
Proof.
  unfold build_transform.
  intros ([l1 p1] & g1 & Hgeo & H)%bind_Ok_inv.
  apply bind_Ok_inv in H as (flip & g2 & Hflip & H).
  assert (Epy : python_draws g1 = python_draws g).
  { destruct jitter.
    - apply bind_Ok_inv in Hgeo as (l0 & g3 & [= _ <-] & Hgeo).
      apply bind_Ok_inv in Hgeo as (p0 & g4 & [= _ <-] & Hgeo).
      revert Hgeo.
      unfold _random_crop_pair, F.get_params, bind, torch_randint, ret, raise.
      case_Z; try done; cbn; by intros [= _ _ <-].
    - apply bind_Ok_inv in Hgeo as (l0 & g3 & [= _ <-] & Hgeo).
      apply bind_Ok_inv in Hgeo as (p0 & g4 & [= _ <-] & Hgeo).
      by injection Hgeo as _ _ <-. }
  exists l1, p1, flip. split; [| split].
  - destruct jitter.
    + apply bind_Ok_inv in Hgeo as (l0 & g3 & Hl & Hgeo).
      apply bind_Ok_inv in Hgeo as (p0 & g4 & Hp & Hgeo).
      unfold lift in Hl, Hp. injection Hl as Hl <-. injection Hp as Hp <-.
      destruct (F.resize label 286) as [l0' |]; [| done].
      destruct (F.resize photo 286) as [p0' |]; [| done].
      injection Hl as ->. injection Hp as ->.
      apply random_crop_pair_Ok in Hgeo as (i & j & -> & -> & Hi & Hj).
      by exists l0, p0, i, j.
    + apply bind_Ok_inv in Hgeo as (l0 & g3 & Hl & Hgeo).
      apply bind_Ok_inv in Hgeo as (p0 & g4 & Hp & Hgeo).
      unfold lift in Hl, Hp. injection Hl as Hl <-. injection Hp as Hp <-.
      injection Hgeo as <- <- <-. done.
  - destruct horizontal_flip.
    + apply bind_Ok_inv in Hflip as (r & g3 & Hr & Hflip).
      unfold random_random in Hr. injection Hr as <- <-.
      injection Hflip as <- _. rewrite Epy. apply flip_test.
    + by injection Hflip as <- _.
  - destruct flip;
      apply bind_Ok_inv in H as (pt & g3 & Hn & [= <- <- <-]);
      unfold lift in Hn; injection Hn as Hn _; done.
Qed.

(** X3.  What a call draws, whatever its outcome: nothing from torch's generator
    without jitter and at most two numbers with it; nothing from Python's
    generator without flipping and at most one number with it. *)
Theorem transform_random_draws (image_size : Z) (jitter : bool)
    (normalize_mode : string) (horizontal_flip : bool)
    (label photo : Image) (g : Rng) :
  let g' := snd (build_transform image_size jitter normalize_mode horizontal_flip
                   label photo g) in
  (jitter = false -> torch_draws g' = torch_draws g)
  /\ (horizontal_flip = false -> python_draws g' = python_draws g)
  /\ (exists k, (k <= 2)%nat /\ torch_draws g' = drop k (torch_draws g))
  /\ (exists k, (k <= 1)%nat /\ python_draws g' = drop k (python_draws g)).
Proof.
  cbn zeta. run_transform.
  destruct jitter, horizontal_flip;
    repeat match goal with
    | |- context [F.resize ?a ?b] => destruct (F.resize a b)
    end; case_Z; case_if;
    (split; [done || (intros; discriminate) |]);
    (split; [done || (intros; discriminate) |]);
    split;
    first [ by (exists 0%nat; split; [lia | done])
          | by (exists 1%nat; split; [lia | by destruct (python_draws g)])
          | by (exists 2%nat; split; [lia | by destruct (torch_draws g) as [| ? [| ? ?]]]) ].
Qed.

(** X4.  A mode other than [tanh] and [01] is refused by [normalize_photo], and a
    transform built with it never returns a pair of tensors: the mode is
    only looked at when the transform is called, after the geometry. *)
Theorem unsupported_mode_never_returns (normalize_mode : string) :
  normalize_mode <> "tanh" -> normalize_mode <> "01" ->
  (forall t, normalize_photo t normalize_mode
             = Raise (ValueError (UnsupportedNormalizeMode normalize_mode)))
  /\ (forall image_size jitter horizontal_flip label photo g label_t photo_t,
        fst (build_transform image_size jitter normalize_mode horizontal_flip
               label photo g) <> Ok (label_t, photo_t))
  /\ (forall image_size horizontal_flip label photo g l1 p1,
        F.resize label image_size = Ok l1 -> F.resize photo image_size = Ok p1 ->
        fst (build_transform image_size false normalize_mode horizontal_flip
               label photo g)
        = Raise (ValueError (UnsupportedNormalizeMode normalize_mode))).
Proof.
  intros Htanh H01.
  assert (Hn : forall t, normalize_photo t normalize_mode
                 = Raise (ValueError (UnsupportedNormalizeMode normalize_mode))).
  { intros t. unfold normalize_photo.
    destruct (String.eqb_spec normalize_mode "tanh"); [done |].
    by destruct (String.eqb_spec normalize_mode "01"). }
  split; [done |]. split.
  - intros image_size jitter horizontal_flip label photo g label_t photo_t H.
    destruct (build_transform image_size jitter normalize_mode horizontal_flip
                label photo g) as [r g'] eqn:E.
    cbn in H. subst r. apply transform_normalized in E as [t Ht]. by rewrite Hn in Ht.
  - intros image_size horizontal_flip label photo g l1 p1 Hl Hp.
    unfold build_transform, bind, lift, random_random, ret. rewrite Hl, Hp.
    destruct horizontal_flip; cbn; case_if; by rewrite Hn.
Qed.

(** X5.  The normalization mode changes nothing but the scale of the photo:
    from the same random state, the [tanh] transform returns the label
    tensor of the [01] transform, its photo tensor mapped by
    [(v - 0.5) / 0.5] (in single precision), and the same random state. *)
Theorem mode_only_rescales_photo (image_size : Z) (jitter horizontal_flip : bool)
    (label photo : Image) (g g' : Rng) (label_t photo_t : Tensor) :
  build_transform image_size jitter "01" horizontal_flip label photo g
  = (Ok (label_t, photo_t), g') ->
  build_transform image_size jitter "tanh" horizontal_flip label photo g
  = (Ok (label_t, tmap (fun v => f32_div (f32_sub v half) half) photo_t), g').
Proof.
  unfold build_transform.
  intros ([l1 p1] & g1 & Hgeo & H)%bind_Ok_inv.
  apply bind_Ok_inv in H as (flip & g2 & Hflip & H).
  rewrite (bind_Ok _ _ _ _ _ Hgeo), (bind_Ok _ _ _ _ _ Hflip).
  destruct flip; cbn in H |- *; by injection H as <- <- <-.
Qed.

(** An image whose shorter side already has the asked size is returned by
    [F.resize] as it is. *)
Lemma resize_identity (img : Image) (size : Z) :
  0 < width img -> 0 < height img ->
  Z.min (width img) (height img) = size ->
  F.resize img size = Ok img.
Proof.
  intros Hw Hh Hmin. unfold F.resize.
  destruct (Z.leb_spec (width img) (height img)) as [Hle | Hgt].
  - rewrite Z.min_l in Hmin by done. subst size.
    destruct (Z.eqb_spec (width img) 0); [lia |].
    rewrite Z.mul_comm, Z.quot_mul by lia. by rewrite !Z.eqb_refl.
  - rewrite Z.min_r in Hmin by lia. subst size.
    destruct (Z.eqb_spec (height img) 0); [lia |].
    rewrite Z.mul_comm, Z.quot_mul by lia. by rewrite !Z.eqb_refl.
Qed.

(** X6.  A pair whose shorter side is already [image_size] goes through the
    transform without resampling: without jitter, every element of the
    label tensor is the element [to_tensor] makes of the label at that
    place (at the mirrored place when the pair is flipped), and every
    element of the photo tensor is that element of the photo, rescaled in
    the mode [tanh].  For an 8-bit image of mode [L] or [RGB] that element
    is the band of the pixel, divided by 255 in single precision. *)
Theorem transform_without_resampling (image_size : Z) (normalize_mode : string)
    (horizontal_flip : bool) (label photo : Image) (g : Rng) :
  0 < width label -> 0 < height label ->
  img_size photo = img_size label ->
  Z.min (width label) (height label) = image_size ->
  normalize_mode = "tanh" \/ normalize_mode = "01" ->
  let flip := horizontal_flip && (List.hd 0 (python_draws g) mod 2 ^ 53 <? 2 ^ 52) in
  let column := fun x => if flip then width label - 1 - x else x in
  exists label_t photo_t g',
    build_transform image_size false normalize_mode horizontal_flip label photo g
    = (Ok (label_t, photo_t), g')
    /\ shape label_t = (bands (mode label), height label, width label)
    /\ shape photo_t = (bands (mode photo), height label, width label)
    /\ (forall c y x,
          item label_t c y x = item (F.to_tensor label) c y (column x)
          /\ item photo_t c y x
             = if String.eqb normalize_mode "tanh"
               then f32_div (f32_sub (item (F.to_tensor photo) c y (column x)) half) half
               else item (F.to_tensor photo) c y (column x))
    /\ (forall img : Image, mode img = ModeL \/ mode img = ModeRGB ->
        forall c y x,
          item (F.to_tensor img) c y x
          = f32_div (f32_of_Z (List.nth (Z.to_nat c) (getpixel img x y) 0))
              (f32_of_Z 255)).
Proof.
  intros Hw Hh Hsize Hmin Hmode. cbn zeta.
  injection Hsize as Hpw Hph.
  pose proof (resize_identity label image_size Hw Hh Hmin) as Rl.
  assert (Rp : F.resize photo image_size = Ok photo).
  { apply resize_identity; rewrite ?Hpw, ?Hph; done. }
  assert (Hbyte : forall img : Image, mode img = ModeL \/ mode img = ModeRGB ->
            forall c y x,
              item (F.to_tensor img) c y x
              = f32_div (f32_of_Z (List.nth (Z.to_nat c) (getpixel img x y) 0))
                  (f32_of_Z 255)).
  { intros img Himg c y x. unfold F.to_tensor. cbn [item].
    by destruct Himg as [-> | ->]. }
  unfold build_transform, bind, lift, random_random, ret. rewrite Rl, Rp.
  destruct horizontal_flip; cbn [andb].
  - rewrite flip_test.
    destruct (List.hd 0 (python_draws g) mod 2 ^ 53 <? 2 ^ 52);
      destruct Hmode as [-> | ->]; cbn;
      eexists _, _, _; (split; [reflexivity |]);
      unfold shape; cbn; rewrite ?Hpw, ?Hph;
      (split; [done |]); (split; [done |]); (split; [| exact Hbyte]);
      intros c y x; by rewrite ?Hpw.
  - destruct Hmode as [-> | ->]; cbn;
      eexists _, _, _; (split; [reflexivity |]);
      unfold shape; cbn; rewrite ?Hpw, ?Hph;
      (split; [done |]); (split; [done |]); (split; [| exact Hbyte]);
      intros c y x; by rewrite ?Hpw.
Qed.
End TransformExtras.

(** ** The data set: paths, samples, errors, the split index *)

Section NameLemmas.
Import PathLib.

Lemma no_slash_app (s t : string) :
  no_slash (s +:+ t) = no_slash s && no_slash t.
Proof.
  induction s as [| a s IH]; [done |].
  simpl. rewrite IH. by rewrite andb_assoc.
Qed.

Lemma split_slash_no_slash (s cur : string) :
  no_slash cur = true ->
  Forall (fun c => no_slash c = true) (split_slash s cur).
Proof.
  revert cur. induction s as [| a s IH]; intros cur Hcur; cbn.
  - by constructor.
  - destruct (Ascii.eqb a "/") eqn:Ea.
    + constructor; [done |]. by apply IH.
    + apply IH. rewrite no_slash_app, Hcur. cbn. by rewrite Ea.
Qed.

Lemma string_app_cons (a : ascii) (s t : string) :
  String a s +:+ t = String a (s +:+ t).
Proof. reflexivity. Qed.

Lemma string_app_assoc (s t u : string) : (s +:+ t) +:+ u = s +:+ (t +:+ u).
Proof. induction s as [| a s IH]; [done |]. by rewrite !string_app_cons, IH. Qed.

Lemma string_app_nil_r (s : string) : s +:+ "" = s.
Proof. induction s as [| a s IH]; [done |]. by rewrite string_app_cons, IH. Qed.

(** A string without separator is one component. *)
Lemma split_slash_plain (s cur : string) :
  no_slash s = true -> split_slash s cur = [cur +:+ s].
Proof.
  revert cur. induction s as [| a s IH]; intros cur Hs; simpl.
  - by rewrite string_app_nil_r.
  - simpl in Hs. apply andb_true_iff in Hs as [Ha Hs].
    apply negb_true_iff in Ha. rewrite Ha, (IH _ Hs).
    by rewrite string_app_assoc.
Qed.

Lemma no_slash_substring (s : string) (n m : nat) :
  no_slash s = true -> no_slash (substring n m s) = true.
Proof.
  revert n m. induction s as [| a s IH]; intros n m Hs.
  - by destruct n, m.
  - cbn in Hs. apply andb_true_iff in Hs as [Ha Hs].
    destruct n as [| n]; cbn.
    + destruct m as [| m]; [done |]. cbn. rewrite Ha. by apply IH.
    + by apply IH.
Qed.

Lemma no_slash_stem (s : string) : no_slash s = true -> no_slash (stem s) = true.
Proof.
  intros Hs. unfold stem. destruct (rfind "." s) as [i |]; [| done].
  destruct (_ && _); [| done]. by apply no_slash_substring.
Qed.

(** The last component of a parsed path has no separator. *)
Lemma no_slash_name_of_string (s : string) : no_slash (name (of_string s)) = true.
Proof.
  unfold name, of_string.
  assert (H : Forall (fun c => no_slash c = true) (split_slash s ""))
    by by apply split_slash_no_slash.
  induction H as [| c l Hc Hl IH]; [done |].
  cbn. destruct (negb _); [| done].
  cbn. destruct (List.filter _ l) eqn:E; [done | exact IH].
Qed.

Lemma of_string_plain (s : string) :
  no_slash s = true -> s <> "" -> s <> "." -> of_string s = [s].
Proof.
  intros Hs H1 H2. unfold of_string. rewrite (split_slash_plain s "" Hs).
  change ("" +:+ s) with s. cbn [List.filter].
  destruct (String.eqb_spec s ""); [done |].
  by destruct (String.eqb_spec s ".").
Qed.

Lemma joinpath_plain (p : Path) (s : string) :
  no_slash s = true -> s <> "" -> s <> "." -> joinpath p s = p ++ [s].
Proof.
  intros Hs H1 H2. unfold joinpath.
  assert (Hpre : String.prefix "/" s = false).
  { destruct s as [| a s]; [done |]. unfold String.prefix.
    destruct (Ascii.ascii_dec "/" a) as [<- | Hne]; [| done].
    cbn in Hs. discriminate Hs. }
  by rewrite Hpre, (of_string_plain s Hs H1 H2).
Qed.

Lemma string_length_app (s t : string) :
  String.length (s +:+ t) = (String.length s + String.length t)%nat.
Proof.
  induction s as [| a s IH]; [done |].
  rewrite string_app_cons. cbn [String.length]. by rewrite IH.
Qed.

(** The file [__getitem__] opens for a name of the index: always a direct
    entry of the directory, named after the stem of the last component. *)
Lemma getitem_path (d : Path) (n tail : string) :
  (2 <= String.length tail)%nat -> no_slash tail = true ->
  joinpath d (stem (name (of_string n)) +:+ tail)
  = d ++ [stem (name (of_string n)) +:+ tail].
Proof.
  intros Hlen Htail. apply joinpath_plain.
  - by rewrite no_slash_app, no_slash_stem, Htail by apply no_slash_name_of_string.
  - intros E. apply (f_equal String.length) in E.
    rewrite string_length_app in E. cbn in E. lia.
  - intros E. apply (f_equal String.length) in E.
    rewrite string_length_app in E. cbn in E. lia.
Qed.
End NameLemmas.

Section DatasetExtras.
Import PathLib.
Context {K : Kernels}.

Lemma convert_RGB_mode (im : Image) : mode (convert_RGB im) = ModeRGB.
Proof. unfold convert_RGB. by destruct (mode im) eqn:E. Qed.

Lemma convert_RGB_size (im : Image) : img_size (convert_RGB im) = img_size im.
Proof. unfold convert_RGB. by destruct (mode im). Qed.

(** [__getitem__] with the two paths written out. *)
Lemma getitem_unfold (self : CityscapesDataset) (fs : FS) (idx : Z) (g : Rng) :
  __getitem__ self fs idx g
  = (let! n := lift (list_getitem (files self) idx) in
     let st := stem (PathLib.name (of_string n)) in
     let! photo0 := lift (open_image fs (photo_dir self ++ [st +:+ "_photo.jpg"])) in
     let! label0 := lift (open_image fs (label_dir self ++ [st +:+ "_label.png"])) in
     let! (l, p) :=
       match transform self with
       | Some f => f (convert_RGB label0) (convert_RGB photo0)
       | None => ret (VImage (convert_RGB label0), VImage (convert_RGB photo0))
       end in
     ret {| label := l; photo := p; Dataset.name := n |}) g.
Proof.
  unfold __getitem__, bind, lift.
  destruct (list_getitem (files self) idx) as [n | e]; [| done].
  by rewrite !getitem_path by (done || cbn; lia).
Qed.

(** X7.  What a returned sample holds: the name at the index, and the two
    files of the data set's directories named after the stem of that name,
    converted to RGB and, when there is a transform, passed to it as
    (label, photo). *)
Theorem getitem_sample (self : CityscapesDataset) (fs : FS) (idx : Z)
    (g g' : Rng) (s : Sample) :
  __getitem__ self fs idx g = (Ok s, g') ->
  let st := stem (PathLib.name (of_string (Dataset.name s))) in
  list_getitem (files self) idx = Ok (Dataset.name s)
  /\ exists photo0 label0,
       open_image fs (photo_dir self ++ [st +:+ "_photo.jpg"]) = Ok photo0
       /\ open_image fs (label_dir self ++ [st +:+ "_label.png"]) = Ok label0
       /\ match transform self with
          | None =>
              label s = VImage (convert_RGB label0)
              /\ photo s = VImage (convert_RGB photo0)
              /\ mode (convert_RGB label0) = ModeRGB
              /\ mode (convert_RGB photo0) = ModeRGB
              /\ img_size (convert_RGB label0) = img_size label0
              /\ img_size (convert_RGB photo0) = img_size photo0
              /\ g' = g
          | Some f =>
              f (convert_RGB label0) (convert_RGB photo0) g = (Ok (label s, photo s), g')
          end.
Proof.
  rewrite getitem_unfold. intros H.
  apply bind_Ok_inv in H as (n & g1 & Hn & H).
  apply bind_Ok_inv in H as (photo0 & g2 & Hp & H).
  apply bind_Ok_inv in H as (label0 & g3 & Hl & H).
  apply bind_Ok_inv in H as ([l p] & g4 & Ht & H).
  unfold lift in Hn, Hp, Hl. unfold ret in H.
  injection Hn as Hn <-. injection Hp as Hp <-. injection Hl as Hl <-.
  injection H as <- <-. cbn [Dataset.name label photo].
  split; [exact Hn |]. exists photo0, label0.
  split; [exact Hp |]. split; [exact Hl |].
  destruct (transform self) as [f |]; [exact Ht |].
  injection Ht as <- <- <-.
  by rewrite !convert_RGB_mode, !convert_RGB_size.
Qed.

(** X8.  A file that cannot be opened is found out when the sample is asked
    for, the photo before the label: the error of [Image.open] is the
    error of the access, nothing is drawn from the random sources and the
    transform is not called.  A photo path that does not exist gives
    [FileNotFoundError], unless a regular file stands on the way to it,
    which gives [NotADirectoryError]. *)
Theorem getitem_open_errors (self : CityscapesDataset) (fs : FS) (idx : Z)
    (g : Rng) (n : string) :
  list_getitem (files self) idx = Ok n ->
  let st := stem (PathLib.name (of_string n)) in
  let photo_path := photo_dir self ++ [st +:+ "_photo.jpg"] in
  let label_path := label_dir self ++ [st +:+ "_label.png"] in
  (forall e, open_image fs photo_path = Raise e ->
     __getitem__ self fs idx g = (Raise e, g))
  /\ (forall photo0 e, open_image fs photo_path = Ok photo0 ->
       open_image fs label_path = Raise e ->
       __getitem__ self fs idx g = (Raise e, g))
  /\ (fs !! photo_path = None -> file_above [] photo_path fs = false ->
      __getitem__ self fs idx g = (Raise (FileNotFoundError (NoSuchFile photo_path)), g))
  /\ (fs !! photo_path = None -> file_above [] photo_path fs = true ->
      __getitem__ self fs idx g = (Raise (NotADirectoryError photo_path), g)).
Proof.
  intros Hn st photo_path label_path.
  assert (Hrun : forall e, open_image fs photo_path = Raise e ->
                   __getitem__ self fs idx g = (Raise e, g)).
  { intros e He. rewrite getitem_unfold. unfold bind, lift.
    rewrite Hn. cbn zeta. fold st photo_path. by rewrite He. }
  assert (Hmissing : fs !! photo_path = None ->
                     open_image fs photo_path = Raise (missing fs photo_path)).
  { intros Hnone. unfold open_image.
    rewrite node_at_nonroot by (unfold photo_path; by destruct (photo_dir self)).
    by rewrite Hnone. }
  split; [exact Hrun |]. split; [| split].
  - intros photo0 e Hp He. rewrite getitem_unfold. unfold bind, lift.
    rewrite Hn. cbn zeta. fold st photo_path label_path. by rewrite Hp, He.
  - intros Hnone Habove. apply Hrun. rewrite (Hmissing Hnone).
    unfold missing. by rewrite Habove.
  - intros Hnone Habove. apply Hrun. rewrite (Hmissing Hnone).
    unfold missing. by rewrite Habove.
Qed.

Lemma dict_get_map {V W} (f : V -> W) (d : dict V) (k : string) :
  dict_get (List.map (fun kv => (fst kv, f (snd kv))) d) k = f <$> dict_get d k.
Proof.
  induction d as [| [k' v] d IH]; [done |].
  cbn. by destruct (String.eqb k' k).
Qed.

(** X9.  The index [write_split_file] wrote is the index [__init__] reads: a
    data set built from it for a split of the mapping lists the file names
    of that split, in their order, and has their number as its length; a
    split that is not in the mapping is refused.  Nothing is changed, and
    no image is looked at. *)
Theorem split_file_roundtrip (split_file : Path) (splits : dict (list Path))
    (fs fs' : FS) (root : Path) (split : string)
    (tr : option (Image -> Image -> M Rng (PyVal * PyVal))) :
  write_split_file split_file splits fs = (Ok tt, fs') ->
  match dict_get splits split with
  | Some paths =>
      exists ds,
        __init__ root split split_file tr fs' = (Ok ds, fs')
        /\ files ds = List.map PathLib.name paths
        /\ __len__ ds = Z.of_nat (length paths)
        /\ (no_slash split = true -> split <> "" -> split <> "." ->
            photo_dir ds = root ++ ["processed"; split; "photo"]
            /\ label_dir ds = root ++ ["processed"; split; "label"])
  | None =>
      __init__ root split split_file tr fs'
      = (Raise (ValueError (SplitNotFound split split_file)), fs')
  end.
Proof.
  intros Hw. apply write_split_file_inv in Hw.
  unfold __init__, bind, get, lift. rewrite Hw, dict_get_map.
  destruct (dict_get splits split) as [paths |]; [| done].
  cbn [fmap option_fmap option_map]. eexists. split; [reflexivity |].
  cbn [files photo_dir label_dir]. split; [done |].
  split; [unfold __len__; cbn [files]; by rewrite length_map |].
  intros H1 H2 H3. unfold child.
  rewrite (joinpath_plain _ split H1 H2 H3).
  rewrite !joinpath_plain by done. by rewrite <- !app_assoc.
Qed.

Lemma resize_mode (img img' : Image) (size : Z) :
  F.resize img size = Ok img' -> mode img' = mode img.
Proof.
  unfold F.resize.
  destruct (width img <=? height img); destruct (_ =? 0); try discriminate;
    destruct (_ && _); try (by intros [= <-]);
    destruct (_ || _); try discriminate; by intros [= <-].
Qed.

(** The tensors of a transform that returned have the bands of the two
    images as their channels. *)
Lemma transform_channels (image_size : Z) (jitter : bool) (normalize_mode : string)
    (horizontal_flip : bool) (label photo : Image) (g g' : Rng)
    (label_t photo_t : Tensor) :
  build_transform image_size jitter normalize_mode horizontal_flip label photo g
  = (Ok (label_t, photo_t), g') ->
  channels label_t = bands (mode label) /\ channels photo_t = bands (mode photo).
Proof.
  unfold build_transform.
  intros ([l1 p1] & g1 & Hgeo & H)%bind_Ok_inv.
  assert (Hmode : mode l1 = mode label /\ mode p1 = mode photo).
  { destruct jitter.
    - apply bind_Ok_inv in Hgeo as (l0 & g2 & [= Hl <-] & Hgeo).
      apply bind_Ok_inv in Hgeo as (p0 & g3 & [= Hp <-] & Hgeo).
      apply resize_mode in Hl, Hp. rewrite <- Hl, <- Hp.
      unfold _random_crop_pair in Hgeo.
      apply bind_Ok_inv in Hgeo as ([[[i j] h] w] & g4 & _ & [= <- <- _]). done.
    - apply bind_Ok_inv in Hgeo as (l0 & g2 & [= Hl <-] & Hgeo).
      apply bind_Ok_inv in Hgeo as (p0 & g3 & [= Hp <-] & [= <- <- _]).
      by apply resize_mode in Hl, Hp. }
  destruct Hmode as [<- <-].
  apply bind_Ok_inv in H as (flip & g2 & _ & H).
  destruct flip;
    apply bind_Ok_inv in H as (pt & g3 & [= Hn <-] & [= <- <- <-]);
    unfold normalize_photo in Hn;
    destruct (String.eqb _ "tanh"); try (by injection Hn as <-);
    destruct (String.eqb _ "01"); try discriminate; by injection Hn as <-.
Qed.

(** X10.  A data set whose transform is the transform of this repository: every
    sample holds two tensors with three channels, whatever the mode of the
    stored files, and of the same shape when the two files have the same
    size. *)
Theorem getitem_tensors (self : CityscapesDataset) (fs : FS) (idx : Z)
    (g g' : Rng) (s : Sample)
    (image_size : Z) (jitter : bool) (normalize_mode : string) (horizontal_flip : bool) :
  transform self
  = Some (tensor_transform (build_transform image_size jitter normalize_mode horizontal_flip)) ->
  __getitem__ self fs idx g = (Ok s, g') ->
  exists label_t photo_t,
    label s = VTensor label_t /\ photo s = VTensor photo_t
    /\ channels label_t = 3 /\ channels photo_t = 3
    /\ (forall photo0 label0,
          open_image fs (photo_dir self
                         ++ [stem (PathLib.name (of_string (Dataset.name s))) +:+ "_photo.jpg"])
          = Ok photo0 ->
          open_image fs (label_dir self
                         ++ [stem (PathLib.name (of_string (Dataset.name s))) +:+ "_label.png"])
          = Ok label0 ->
          img_size label0 = img_size photo0 ->
          shape label_t = shape photo_t).
Proof.
  intros Htr. rewrite getitem_unfold, Htr. intros H.
  apply bind_Ok_inv in H as (n & g1 & [= Hn <-] & H).
  apply bind_Ok_inv in H as (photo0 & g2 & [= Hp <-] & H).
  apply bind_Ok_inv in H as (label0 & g3 & [= Hl <-] & H).
  apply bind_Ok_inv in H as ([l p] & g4 & Ht & [= <- <-]).
  unfold tensor_transform in Ht.
  apply bind_Ok_inv in Ht as ([label_t photo_t] & g5 & Hrun & [= <- <- <-]).
  cbn [Dataset.name label photo].
  destruct (transform_channels _ _ _ _ _ _ _ _ _ _ Hrun) as [Hcl Hcp].
  rewrite convert_RGB_mode in Hcl, Hcp.
  exists label_t, photo_t. repeat split; [exact Hcl | exact Hcp |].
  intros photo1 label1 Hp1 Hl1 Hsize.
  rewrite Hp in Hp1. rewrite Hl in Hl1. injection Hp1 as <-. injection Hl1 as <-.
  assert (Hrc : (rows label_t, cols label_t) = (rows photo_t, cols photo_t)).
  { apply (transform_same_size image_size jitter normalize_mode horizontal_flip
             (convert_RGB label0) (convert_RGB photo0) g).
    - by rewrite !convert_RGB_size.
    - by rewrite Hrun. }
  injection Hrc as Hr Hc. unfold shape. by rewrite Hcl, Hcp, Hr, Hc.
Qed.
End DatasetExtras.

(** ** What the splitter leaves alone, whatever its outcome *)

Section AnyOutcome.
Context {S : Type} (R : S -> S -> Prop) `{!PreOrder R}.

(** A relation every step keeps is kept by a sequence, raised or not. *)
Lemma bind_rel {A B} (m : M S A) (k : A -> M S B) (s : S) :
  R s (snd (m s)) ->
  (forall a s1, m s = (Ok a, s1) -> R s1 (snd (k a s1))) ->
  R s (snd (bind m k s)).
Proof.
  intros Hm Hk. unfold bind. destruct (m s) as [[a | e] s1] eqn:E; [| done].
  etrans; [exact Hm |]. by apply Hk.
Qed.

Lemma for_each_rel {A} (body : A -> M S unit) (l : list A) (s : S) :
  (forall x s1, x ∈ l -> R s1 (snd (body x s1))) ->
  R s (snd (for_each l body s)).
Proof.
  revert s. induction l as [| x l IH]; intros s Hbody; [done |].
  cbn [for_each]. apply bind_rel.
  - apply Hbody. by left.
  - intros _ s1 _. apply IH. intros y s2 Hy. apply Hbody. by right.
Qed.
End AnyOutcome.

#[local] Instance keeps_preorder (W : Path -> Prop) : PreOrder (keeps W).
Proof.
  split.
  - by intros fs p n Hp _.
  - intros fs1 fs2 fs3 H12 H23 p n Hp HW. apply H23; [| done]. by apply H12.
Qed.

#[local] Instance touches_preorder (T : Path -> Prop) : PreOrder (touches T).
Proof.
  split; [intros fs; apply touches_refl | intros x y z; apply touches_trans].
Qed.

Section Frame.
Import PathLib.
Context {K : Kernels}.

Lemma keeps_weaken (W W' : Path -> Prop) (fs fs' : FS) :
  (forall p, W p -> W' p) -> keeps W fs fs' -> keeps W' fs fs'.
Proof. intros HW Hk p n Hp Hn. apply Hk; [done |]. intros Hw. by apply Hn, HW. Qed.

Lemma mkdir_parents_raise (q : Path) (fs fs' : FS) (e : exn) :
  mkdir_parents q fs = (Raise e, fs') -> fs' = fs.
Proof.
  unfold mkdir_parents. destruct (mkdir_walk [] q fs); [done |]. by intros [= _ <-].
Qed.

Lemma write_file_raise (q : Path) (d : FileData) (fs fs' : FS) (e : exn) :
  write_file q d fs = (Raise e, fs') -> fs' = fs.
Proof.
  unfold write_file. destruct (node_at fs q) as [[| x] |];
    try (by intros [= _ <-]);
    destruct (node_at fs (parent q)) as [[| y] |]; try done; by intros [= _ <-].
Qed.

(** Making directories changes no existing node and adds directories of
    the chain only. *)
Lemma mkdir_parents_any (q : Path) (fs : FS) :
  keeps (fun _ => False) fs (snd (mkdir_parents q fs))
  /\ touches (fun p => p ∈ mkdir_chain [] q) fs (snd (mkdir_parents q fs)).
Proof.
  destruct (mkdir_parents q fs) as [[[] | e] fs'] eqn:E; cbn [snd].
  - split; [| by apply mkdir_parents_touches].
    apply mkdir_parents_inv in E as (_ & L & _).
    intros p n Hp _. by rewrite L, (made_Some _ _ _ _ Hp).
  - apply mkdir_parents_raise in E as ->. split; reflexivity.
Qed.

(** Writing a file changes that path only. *)
Lemma write_file_any (q : Path) (d : FileData) (fs : FS) :
  keeps (fun p => p = q) fs (snd (write_file q d fs))
  /\ touches (fun p => p = q) fs (snd (write_file q d fs)).
Proof.
  destruct (write_file q d fs) as [[[] | e] fs'] eqn:E; cbn [snd].
  - split; [| by apply (write_file_touches _ _ _ d)].
    apply write_file_inv in E as [-> _].
    intros p n Hp Hne. by rewrite lookup_insert_ne by congruence.
  - apply write_file_raise in E as ->. split; reflexivity.
Qed.

(** A relation the four steps of [split_and_save] keep is kept by it. *)
Lemma split_and_save_steps (R : FS -> FS -> Prop) `{!PreOrder R}
    (img_path photo_path label_path : Path) (overwrite : bool) (fs : FS) :
  (forall s, R s (snd (mkdir_parents (parent photo_path) s))) ->
  (forall s, R s (snd (mkdir_parents (parent label_path) s))) ->
  (forall d s, R s (snd (write_file photo_path d s))) ->
  (forall d s, R s (snd (write_file label_path d s))) ->
  R fs (snd (split_and_save img_path photo_path label_path overwrite fs)).
Proof.
  intros H1 H2 H3 H4. unfold split_and_save.
  apply (bind_rel R); [done | intros fs0 s1 [= <- <-]].
  destruct (_ && _); [done |].
  apply (bind_rel R); [done | intros img s1 [= _ <-]].
  cbn [img_size]. destruct (negb _); [done |].
  apply (bind_rel R); [apply H1 | intros _ s1 _].
  apply (bind_rel R); [apply H2 | intros _ s2 _].
  apply (bind_rel R); [apply H3 | intros _ s3 _]. apply H4.
Qed.

(** A relation every [split_and_save] of the run keeps is kept by
    [process_dataset]. *)
Lemma process_dataset_steps (R : FS -> FS -> Prop) `{!PreOrder R}
    (raw_dir out_dir : Path) (overwrite : bool) (fs : FS) :
  (forall split img_path s,
     R s (snd (split_and_save img_path (photo_dest out_dir split img_path)
                 (label_dest out_dir split img_path) overwrite s))) ->
  R fs (snd (process_dataset raw_dir out_dir overwrite fs)).
Proof.
  intros Hstep. unfold process_dataset.
  apply (bind_rel R); [by rewrite collect_files_state | intros splits s1 _].
  apply (bind_rel R); [| done].
  apply (for_each_rel R). intros [split files] s2 _.
  apply (for_each_rel R). intros img_path s3 _. apply Hstep.
Qed.

Lemma split_and_save_keeps (img_path photo_path label_path : Path)
    (overwrite : bool) (fs : FS) :
  keeps (fun p => p = photo_path \/ p = label_path) fs
    (snd (split_and_save img_path photo_path label_path overwrite fs)).
Proof.
  apply split_and_save_steps; [apply _ | | | |]; intros.
  - eapply keeps_weaken; [| apply mkdir_parents_any]. done.
  - eapply keeps_weaken; [| apply mkdir_parents_any]. done.
  - eapply keeps_weaken; [| apply write_file_any]. cbn. tauto.
  - eapply keeps_weaken; [| apply write_file_any]. cbn. tauto.
Qed.

Lemma split_and_save_touches_any (img_path photo_path label_path : Path)
    (overwrite : bool) (fs : FS) :
  touches (fun p => p ∈ mkdir_chain [] (parent photo_path)
                    \/ p ∈ mkdir_chain [] (parent label_path)
                    \/ p = photo_path \/ p = label_path) fs
    (snd (split_and_save img_path photo_path label_path overwrite fs)).
Proof.
  apply split_and_save_steps; [apply _ | | | |]; intros.
  - eapply touches_weaken; [| apply mkdir_parents_any]. cbn. tauto.
  - eapply touches_weaken; [| apply mkdir_parents_any]. cbn. tauto.
  - eapply touches_weaken; [| apply write_file_any]. cbn. tauto.
  - eapply touches_weaken; [| apply write_file_any]. cbn. tauto.
Qed.

(** X11.  Among resolved paths (no component [.], [..] or empty):
    whatever [split_and_save] does and however it ends, every existing
    path other than its two destinations keeps its node, and nothing new
    appears but the destinations and paths above them. *)
Theorem split_and_save_frame (img_path photo_path label_path : Path)
    (overwrite : bool) (fs : FS) :
  resolved img_path = true ->
  resolved photo_path = true ->
  resolved label_path = true ->
  let fs' := snd (split_and_save img_path photo_path label_path overwrite fs) in
  (forall p n, resolved p = true ->
     fs !! p = Some n -> p <> photo_path -> p <> label_path ->
     fs' !! p = Some n)
  /\ (forall p, resolved p = true -> fs !! p = None -> is_Some (fs' !! p) ->
       p `prefix_of` photo_path \/ p `prefix_of` label_path)
  /\ (forall img, open_image fs img_path = Ok img ->
      img_path <> photo_path -> img_path <> label_path ->
      open_image fs' img_path = Ok img).
Proof.
  intros _ _ _. cbn zeta.
  pose proof (split_and_save_keeps img_path photo_path label_path overwrite fs) as Hk.
  pose proof (split_and_save_touches_any img_path photo_path label_path overwrite fs)
    as [_ Hnew].
  assert (Hup : forall p q : Path, p `prefix_of` parent q -> p `prefix_of` q).
  { intros p q [r Hr]. destruct q as [| c q] using rev_ind.
    - exists r. exact Hr.
    - unfold parent in Hr. rewrite removelast_last in Hr.
      exists (r ++ [c]). by rewrite Hr, <- app_assoc. }
  split; [| split].
  - intros p n _ Hp H1 H2. apply Hk; [done |]. by intros [-> | ->].
  - intros p _ Hn Hs. destruct (Hnew p Hn Hs) as [H | [H | [-> | ->]]].
    + left. by apply Hup, (mkdir_chain_prefix [] _ _ H).
    + right. by apply Hup, (mkdir_chain_prefix [] _ _ H).
    + by left.
    + by right.
  - intros img Ho H1 H2. unfold open_image in Ho |- *.
    destruct img_path as [| c q]; [done |]. cbn [node_at] in Ho |- *.
    destruct (fs !! (c :: q)) as [n |] eqn:E; [| done].
    assert (E' : snd (split_and_save (c :: q) photo_path label_path overwrite fs)
                 !! (c :: q) = Some n) by (apply Hk; [done |]; by intros [? | ?]).
    by rewrite E'.
Qed.

(** The paths [process_dataset] may write a file to. *)
Lemma process_dataset_keeps (raw_dir out_dir : Path) (overwrite : bool) (fs : FS) :
  keeps (fun p => exists s k f, (k = "photo" \/ k = "label") /\ p = out_dir ++ [s; k; f])
    fs (snd (process_dataset raw_dir out_dir overwrite fs)).
Proof.
  apply process_dataset_steps; [apply _ |]. intros split img_path s.
  eapply keeps_weaken; [| apply split_and_save_keeps].
  destruct (dest_parents out_dir split img_path) as (_ & _ & [fp Fp] & [fl Fl]).
  intros p [-> | ->].
  - exists split, "photo", fp. by split; [left |].
  - exists split, "label", fl. by split; [right |].
Qed.

Lemma write_split_file_keeps (split_file : Path) (splits : dict (list Path)) (fs : FS) :
  keeps (fun p => p = split_file) fs (snd (write_split_file split_file splits fs)).
Proof.
  unfold write_split_file. apply (bind_rel (keeps (fun p => p = split_file))).
  - eapply keeps_weaken; [| apply mkdir_parents_any]. done.
  - intros _ s1 _. destruct (encodable _); [apply write_file_any |].
    apply (bind_rel (keeps (fun p => p = split_file))); [apply write_file_any | done].
Qed.

Lemma write_split_file_touches_any (split_file : Path) (splits : dict (list Path))
    (fs : FS) :
  touches (fun p => p `prefix_of` split_file) fs
    (snd (write_split_file split_file splits fs)).
Proof.
  assert (Hfile : forall d s,
            touches (fun p => p `prefix_of` split_file) s
              (snd (write_file split_file d s))).
  { intros d s. eapply touches_weaken; [| apply write_file_any]. by intros p ->. }
  unfold write_split_file.
  apply (bind_rel (touches (fun p => p `prefix_of` split_file))).
  - eapply touches_weaken; [| apply mkdir_parents_any].
    intros p [r Hr]%mkdir_chain_prefix. cbn in Hr.
    destruct split_file as [| c q] using rev_ind; [exists r; exact Hr |].
    unfold parent in Hr. rewrite removelast_last in Hr.
    exists (r ++ [c]). by rewrite Hr, <- app_assoc.
  - intros _ s1 _. destruct (encodable _); [apply Hfile |].
    apply (bind_rel (touches (fun p => p `prefix_of` split_file))); [apply Hfile | done].
Qed.

(** No entry of a source directory is an output file. *)
Lemma entry_not_output (raw_dir out_dir : Path) (split : string) (p : Path) :
  split = "train" \/ split = "val" ->
  is_entry (child raw_dir split) p ->
  ~ exists s k f, (k = "photo" \/ k = "label") /\ p = out_dir ++ [s; k; f].
Proof.
  intros Hsplit [_ Hparent] (s & k & f & Hk & ->).
  unfold parent, child in Hparent.
  change [s; k; f] with ([s; k] ++ [f]) in Hparent.
  rewrite app_assoc, removelast_last in Hparent.
  change [s; k] with ([s] ++ [k]) in Hparent. rewrite app_assoc in Hparent.
  apply app_inj_tail in Hparent as [_ <-].
  destruct Hsplit as [-> | ->], Hk as [Hk | Hk]; discriminate Hk.
Qed.

(** X12.  The source images are never modified or removed, wherever the output
    directory lies and however the run ends: for resolved paths, every
    entry of [raw_dir/train] and [raw_dir/val] is after [process_dataset]
    what it was before, and after [main] too unless it is the split file
    itself. *)
Theorem sources_left_alone (raw_dir out_dir split_file : Path) (overwrite : bool)
    (fs : FS) (split : string) (p : Path) (n : Node) :
  resolved raw_dir = true ->
  resolved out_dir = true ->
  resolved split_file = true ->
  resolved p = true ->
  split = "train" \/ split = "val" ->
  is_entry (child raw_dir split) p ->
  fs !! p = Some n ->
  snd (process_dataset raw_dir out_dir overwrite fs) !! p = Some n
  /\ (p <> split_file ->
      snd (main raw_dir out_dir split_file overwrite fs) !! p = Some n).
Proof.
  intros _ _ _ _ Hsplit Hentry Hp.
  pose proof (entry_not_output raw_dir out_dir split p Hsplit Hentry) as Hout.
  split.
  - by apply (process_dataset_keeps raw_dir out_dir overwrite fs).
  - intros Hne.
    set (W := fun q : Path =>
           (exists s k f, (k = "photo" \/ k = "label") /\ q = out_dir ++ [s; k; f])
           \/ q = split_file).
    assert (Hmain : keeps W fs (snd (main raw_dir out_dir split_file overwrite fs))).
    { unfold main. apply (bind_rel (keeps W)).
      - eapply keeps_weaken; [| apply process_dataset_keeps]. unfold W. tauto.
      - intros splits s1 _.
        eapply keeps_weaken; [| apply write_split_file_keeps]. unfold W. tauto. }
    apply Hmain; [done |]. unfold W. tauto.
Qed.

(** X13.  The two files are not written together: when the label destination is
    a directory, [split_and_save] fails on it after the photo file has
    been written, and the photo file stays. *)
Theorem split_and_save_partial_write (img_path photo_path label_path : Path)
    (overwrite : bool) (fs : FS) (img : Image) :
  skips fs photo_path label_path overwrite = false ->
  open_image fs img_path = Ok img ->
  width img mod 2 = 0 ->
  can_write fs photo_path label_path = true ->
  can_mkdir fs (parent label_path) = true ->
  is_dir fs label_path = true ->
  exists fs',
    split_and_save img_path photo_path label_path overwrite fs
    = (Raise (IsADirectoryError label_path), fs')
    /\ fs' !! photo_path = Some (File (ImageFile JPEG (encoded JPEG (photo_half img))))
    /\ path_exists fs' photo_path = true
    /\ open_image fs' label_path = Raise (IsADirectoryError label_path).
Proof.
  intros Hskip Hopen Heven Hp Hl1 Hdir.
  rewrite (split_and_save_unskipped _ _ _ _ _ _ Hskip Hopen Heven).
  apply can_write_inv in Hp as (Hp1 & Hp2 & Hp3 & Hp4).
  assert (Hne : photo_path <> label_path) by (intros ->; congruence).
  destruct (mkdir_parents_returns _ _ Hp1) as [fs1 E1].
  pose proof (mkdir_parents_inv _ _ _ E1) as (_ & L1 & D1).
  assert (Hl1' : can_mkdir fs1 (parent label_path) = true).
  { unfold can_mkdir in *. rewrite forallb_forall in *.
    intros d Hd. rewrite (made_file _ _ _ L1). by apply Hl1. }
  destruct (mkdir_parents_returns _ _ Hl1') as [fs2 E2].
  pose proof (mkdir_parents_inv _ _ _ E2) as (_ & L2 & D2).
  assert (Lp : fs2 !! photo_path = fs !! photo_path).
  { rewrite L2, made_outside by done.
    rewrite L1, made_outside by apply not_in_own_parent_chain. done. }
  assert (Dp : node_at fs2 (parent photo_path) = Some Dir).
  { destruct (parent photo_path) as [| c q] eqn:Eq; [done |]. cbn [node_at] in *.
    rewrite L2. by apply made_Some. }
  set (fs3 := <[photo_path := File (ImageFile JPEG (encoded JPEG (photo_half img)))]> fs2).
  assert (W3 : Image_save (photo_half img) photo_path JPEG fs2 = (Ok tt, fs3)).
  { apply write_file_returns; [| done].
    rewrite node_at_nonroot, Lp by done. unfold is_dir in Hp2.
    rewrite node_at_nonroot in Hp2 by done. by destruct (fs !! photo_path) as [[| x] |]. }
  assert (Dl : node_at fs3 label_path = Some Dir).
  { destruct label_path as [| c q]; [done |]. cbn [node_at].
    unfold is_dir in Hdir. cbn [node_at] in Hdir.
    destruct (fs !! (c :: q)) as [[| x] |] eqn:E; try done.
    unfold fs3. rewrite lookup_insert_ne by done.
    rewrite L2. apply made_Some. rewrite L1. by apply made_Some. }
  exists fs3. unfold bind. rewrite E1, E2, W3.
  unfold Image_save, write_file, open_image, path_exists. rewrite Dl.
  rewrite node_at_nonroot by done. unfold fs3. rewrite lookup_insert_eq. done.
Qed.

(** X14.  For a resolved split file path, when no file stands where
    [write_split_file] needs a directory and the split file is not a
    directory: if every key and file name is valid UTF-8 the call returns
    and the file holds the file names of every split, in the order of the
    mapping; otherwise it raises [UnicodeEncodeError] and leaves a broken
    file.  Either way the parent is a directory afterwards and every other
    existing resolved path is left as it was. *)
Theorem write_split_file_writes (split_file : Path) (splits : dict (list Path))
    (fs : FS) :
  resolved split_file = true ->
  can_mkdir fs (parent split_file) = true ->
  is_dir fs split_file = false ->
  let payload := List.map (fun kv => (fst kv, List.map name (snd kv))) splits in
  exists fs',
    (if encodable payload then
       write_split_file split_file splits fs = (Ok tt, fs')
       /\ json_load fs' split_file = Ok payload
     else
       write_split_file split_file splits fs = (Raise UnicodeEncodeError, fs')
       /\ fs' !! split_file = Some (File OtherFile))
    /\ is_dir fs' (parent split_file) = true
    /\ forall p n, resolved p = true ->
         fs !! p = Some n -> p <> split_file -> fs' !! p = Some n.
Proof.
  intros _ Hmk Hnd payload.
  pose proof (is_dir_false_nonroot _ _ Hnd) as Hnr.
  destruct (mkdir_parents_returns _ _ Hmk) as [fs1 E1].
  pose proof (mkdir_parents_inv _ _ _ E1) as (_ & L1 & D1).
  assert (W : forall d, write_file split_file d fs1
                        = (Ok tt, <[split_file := File d]> fs1)).
  { intros d. apply write_file_returns; [| done].
    rewrite node_at_nonroot, L1, made_outside by (done || apply not_in_own_parent_chain).
    unfold is_dir in Hnd. rewrite node_at_nonroot in Hnd by done.
    by destruct (fs !! split_file) as [[| x] |]. }
  assert (Hframe : forall d,
            is_dir (<[split_file := File d]> fs1) (parent split_file) = true
            /\ forall p n, fs !! p = Some n -> p <> split_file ->
                 <[split_file := File d]> fs1 !! p = Some n).
  { intros d. split.
    - unfold is_dir. destruct (parent split_file) as [| c q] eqn:Eq; [done |].
      cbn [node_at] in D1 |- *. rewrite lookup_insert_ne; [by rewrite D1 |].
      intros Heq. pose proof (parent_length split_file Hnr) as HL.
      rewrite Eq, <- Heq in HL. lia.
    - intros p n Hp Hne. rewrite lookup_insert_ne by done.
      rewrite L1. by apply made_Some. }
  unfold write_split_file, bind. rewrite E1. fold payload.
  destruct (encodable payload).
  - exists (<[split_file := File (JsonFile payload)]> fs1).
    split; [| split; [apply Hframe | intros p n _; apply Hframe]]. split; [apply W |].
    unfold json_load. rewrite node_at_nonroot by done. by rewrite lookup_insert_eq.
  - exists (<[split_file := File OtherFile]> fs1).
    split; [| split; [apply Hframe | intros p n _; apply Hframe]]. rewrite W. split; [done |]. by rewrite lookup_insert_eq.
Qed.

Lemma process_dataset_touches_any (raw_dir out_dir : Path) (overwrite : bool) (fs : FS) :
  touches (under_output out_dir) fs (snd (process_dataset raw_dir out_dir overwrite fs)).
Proof.
  apply process_dataset_steps; [apply _ |]. intros split img_path s.
  pose proof (split_and_save_touches_any img_path (photo_dest out_dir split img_path)
                (label_dest out_dir split img_path) overwrite s) as Hs.
  destruct (dest_parents out_dir split img_path) as (Pp & Pl & [fp Fp] & [fl Fl]).
  rewrite Pp, Pl in Hs.
  eapply touches_weaken; [| exact Hs]. cbn.
  intros p [H | [H | [-> | ->]]].
  - apply (chain_under_output _ split "photo"); [by left | done].
  - apply (chain_under_output _ split "label"); [by right | done].
  - rewrite Fp. right. exists split. right. exists "photo". split; [by left |]. right. eauto.
  - rewrite Fl. right. exists split. right. exists "label". split; [by right |]. right. eauto.
Qed.

(** X15.  For resolved paths: however a run ends, nothing is removed, no
    directory is replaced, and every resolved path that is new lies in the
    output tree or above it; after [main], the split file and the directories
    above it may be new as well. *)
Theorem runs_create_only_outputs (raw_dir out_dir split_file : Path)
    (overwrite : bool) (fs : FS) :
  resolved raw_dir = true ->
  resolved out_dir = true ->
  resolved split_file = true ->
  let fs1 := snd (process_dataset raw_dir out_dir overwrite fs) in
  let fs2 := snd (main raw_dir out_dir split_file overwrite fs) in
  (forall p, is_Some (fs !! p) -> is_Some (fs1 !! p) /\ is_Some (fs2 !! p))
  /\ (forall p, fs !! p = Some Dir -> fs1 !! p = Some Dir /\ fs2 !! p = Some Dir)
  /\ (forall p, resolved p = true ->
        fs !! p = None -> is_Some (fs1 !! p) -> under_output out_dir p)
  /\ (forall p, resolved p = true -> fs !! p = None -> is_Some (fs2 !! p) ->
        under_output out_dir p \/ p `prefix_of` split_file).
Proof.
  intros _ _ _. cbn zeta.
  pose proof (process_dataset_touches_any raw_dir out_dir overwrite fs) as [K1 N1].
  assert (Hmain : touches (fun p => under_output out_dir p \/ p `prefix_of` split_file)
                    fs (snd (main raw_dir out_dir split_file overwrite fs))).
  { unfold main.
    apply (bind_rel (touches (fun p => under_output out_dir p \/ p `prefix_of` split_file))).
    - eapply touches_weaken; [| apply process_dataset_touches_any]. cbn. tauto.
    - intros splits s1 _.
      eapply touches_weaken; [| apply write_split_file_touches_any]. cbn. tauto. }
  destruct Hmain as [K2 N2].
  split; [| split; [| split]].
  - intros p [n Hn]. destruct (K1 _ _ Hn) as (n1 & H1 & _).
    destruct (K2 _ _ Hn) as (n2 & H2 & _). by rewrite H1, H2.
  - intros p Hp. destruct (K1 _ _ Hp) as (n1 & H1 & D1).
    destruct (K2 _ _ Hp) as (n2 & H2 & D2). by rewrite H1, H2, D1, D2.
  - intros p _. apply N1.
  - intros p _. apply N2.
Qed.
End Frame.

(** ** The names of the destinations *)

Section Naming.
Import PathLib.
Context {K : Kernels}.

Lemma rfind_app_jpg (base : string) :
  rfind "." (base +:+ ".jpg") = Some (String.length base).
Proof.
  induction base as [| a base IH]; [done |].
  rewrite string_app_cons. cbn [rfind String.length]. by rewrite IH.
Qed.

Lemma substring_app_prefix (s t : string) :
  substring 0 (String.length s) (s +:+ t) = s.
Proof.
  induction s as [| a s IH]; [by destruct t |].
  rewrite string_app_cons. cbn [String.length substring]. by rewrite IH.
Qed.

(** [Path("base.jpg").stem] is [base]. *)
Lemma stem_jpg (base : string) : base <> "" -> stem (base +:+ ".jpg") = base.
Proof.
  intros Hne. unfold stem. rewrite rfind_app_jpg, string_length_app.
  destruct base as [| a base]; [done |]. cbn [String.length].
  replace (0 <? S (String.length base))%nat with true
    by (symmetry; apply Nat.ltb_lt; lia).
  replace (S (String.length base) <? S (String.length base) + 4 - 1)%nat with true
    by (symmetry; apply Nat.ltb_lt; lia).
  apply (substring_app_prefix (String a base)).
Qed.

Lemma substring_full (s : string) : substring 0 (String.length s) s = s.
Proof. induction s as [| a s IH]; [done |]. cbn [String.length substring]. by rewrite IH. Qed.

Lemma substring_split (s : string) (k : nat) :
  (k <= String.length s)%nat ->
  s = substring 0 k s +:+ substring k (String.length s - k) s.
Proof.
  revert k. induction s as [| a s IH]; intros k Hk.
  - by destruct k.
  - destruct k as [| k].
    + rewrite Nat.sub_0_r.
      change (String a s = String a (substring 0 (String.length s) s)).
      by rewrite substring_full.
    + change (String a s
              = String a (substring 0 k s +:+ substring k (String.length s - k) s)).
      f_equal. apply IH. cbn in Hk. lia.
Qed.

(** A name that ends in [.jpg] is a base followed by [.jpg]. *)
Lemma endswith_jpg_inv (n : string) :
  endswith n ".jpg" = true -> exists base, n = base +:+ ".jpg".
Proof.
  unfold endswith. cbn [String.length].
  intros [Hlen Heq]%andb_true_iff. apply Nat.leb_le in Hlen.
  apply String.eqb_eq in Heq.
  exists (substring 0 (String.length n - 4) n).
  pose proof (substring_split n (String.length n - 4) ltac:(lia)) as Hs.
  replace (String.length n - (String.length n - 4))%nat with 4%nat in Hs by lia.
  by rewrite Heq in Hs.
Qed.

Lemma string_app_inv_tail (s s' t : string) : s +:+ t = s' +:+ t -> s = s'.
Proof.
  revert s'. induction s as [| a s IH]; intros [| b s'] H.
  - done.
  - apply (f_equal String.length) in H.
    rewrite !string_length_app in H. cbn [String.length] in H. lia.
  - apply (f_equal String.length) in H.
    rewrite !string_length_app in H. cbn [String.length] in H. lia.
  - rewrite !string_app_cons in H. injection H as -> H. f_equal. by apply IH.
Qed.

(** The base of a [.jpg] name other than [.jpg] itself. *)
Lemma jpg_base (n : string) :
  endswith n ".jpg" = true -> n <> ".jpg" ->
  exists base, base <> "" /\ n = base +:+ ".jpg" /\ stem n = base.
Proof.
  intros [base ->]%endswith_jpg_inv Hne.
  assert (Hb : base <> "") by (by intros ->).
  exists base. by rewrite stem_jpg.
Qed.

(** Two [.jpg] names with the same stem are the same name, the name
    [.jpg] apart (its stem is [.jpg], the stem of [.jpg.jpg]). *)
Lemma stem_inj_jpg (n m : string) :
  endswith n ".jpg" = true -> endswith m ".jpg" = true ->
  n <> ".jpg" -> m <> ".jpg" -> stem n = stem m -> n = m.
Proof.
  intros Hn Hm Hn' Hm' Hst.
  destruct (jpg_base n Hn Hn') as (b1 & _ & -> & E1).
  destruct (jpg_base m Hm Hm') as (b2 & _ & -> & E2).
  congruence.
Qed.

Lemma photo_dest_inj (out_dir : Path) (s1 s2 : string) (p q : Path) :
  photo_dest out_dir s1 p = photo_dest out_dir s2 q ->
  s1 = s2 /\ stem (name p) = stem (name q).
Proof.
  unfold photo_dest, child. rewrite <- !app_assoc. cbn [app].
  intros [= -> H]%app_inv_head. split; [done |]. by apply string_app_inv_tail in H.
Qed.

Lemma label_dest_inj (out_dir : Path) (s1 s2 : string) (p q : Path) :
  label_dest out_dir s1 p = label_dest out_dir s2 q ->
  s1 = s2 /\ stem (name p) = stem (name q).
Proof.
  unfold label_dest, child. rewrite <- !app_assoc. cbn [app].
  intros [= -> H]%app_inv_head. split; [done |]. by apply string_app_inv_tail in H.
Qed.

Lemma photo_dest_not_label (out_dir : Path) (s1 s2 : string) (p q : Path) :
  photo_dest out_dir s1 p <> label_dest out_dir s2 q.
Proof.
  unfold photo_dest, label_dest, child. rewrite <- !app_assoc. cbn [app].
  by intros [= _ H]%app_inv_head.
Qed.

(** X16.  A source [base.jpg] of a split goes to [split/photo/base_photo.jpg]
    and [split/label/base_label.png] under the output directory, and two
    sources of different names never share a destination; the hidden file
    [.jpg], which has no base, is left out. *)
Theorem destinations_named_by_stem (out_dir : Path) (split : string) (img_path : Path) :
  endswith (name img_path) ".jpg" = true -> name img_path <> ".jpg" ->
  exists base,
    base <> "" /\ name img_path = base +:+ ".jpg"
    /\ photo_dest out_dir split img_path
       = out_dir ++ [split; "photo"; base +:+ "_photo.jpg"]
    /\ label_dest out_dir split img_path
       = out_dir ++ [split; "label"; base +:+ "_label.png"]
    /\ forall other,
         endswith (name other) ".jpg" = true -> name other <> ".jpg" ->
         name other <> name img_path ->
         photo_dest out_dir split other <> photo_dest out_dir split img_path
         /\ label_dest out_dir split other <> label_dest out_dir split img_path.
Proof.
  intros Hjpg Hne.
  destruct (jpg_base _ Hjpg Hne) as (base & Hb & Hname & Hstem).
  exists base. split; [done |]. split; [done |].
  split; [| split].
  - unfold photo_dest, child. by rewrite Hstem, <- !app_assoc.
  - unfold label_dest, child. by rewrite Hstem, <- !app_assoc.
  - intros other Ho Ho' Hdiff. split.
    + intros [_ H]%photo_dest_inj. by apply Hdiff, stem_inj_jpg.
    + intros [_ H]%label_dest_inj. by apply Hdiff, stem_inj_jpg.
Qed.
End Naming.

(** ** What a whole run leaves at the destinations *)

Section Loops.
Context {S A : Type}.

Lemma for_each_app (body : A -> M S unit) (l1 l2 : list A) (s : S) :
  for_each (l1 ++ l2) body s = (for_each l1 body ;; for_each l2 body) s.
Proof.
  revert s. induction l1 as [| x l1 IH]; intros s; [done |].
  cbn [app for_each]. unfold bind.
  destruct (body x s) as [[[] | e] s1]; [| done]. rewrite IH. done.
Qed.

Lemma for_each_map {B} (f : B -> A) (body : A -> M S unit) (l : list B) (s : S) :
  for_each (List.map f l) body s = for_each l (fun x => body (f x)) s.
Proof.
  revert s. induction l as [| x l IH]; intros s; [done |].
  cbn [List.map for_each]. unfold bind.
  destruct (body (f x) s) as [[[] | e] s1]; [| done]. by rewrite IH.
Qed.
End Loops.

Section Outputs.
Import PathLib.
Context {K : Kernels}.

(** The two loops of [process_dataset] as one loop over the pairs of a
    split and a file. *)
Lemma process_loops (out_dir : Path) (overwrite : bool)
    (train_files val_files : list Path) (s : FS) :
  for_each [("train", train_files); ("val", val_files)]
    (fun kv : string * list Path =>
       let '(split, files) := kv in
       for_each files (fun img_path =>
         split_and_save img_path (photo_dest out_dir split img_path)
           (label_dest out_dir split img_path) overwrite)) s
  = for_each (List.map (pair "train") train_files ++ List.map (pair "val") val_files)
      (fun x : string * Path =>
         split_and_save (snd x) (photo_dest out_dir (fst x) (snd x))
           (label_dest out_dir (fst x) (snd x)) overwrite) s.
Proof.
  rewrite for_each_app. cbn [for_each]. unfold bind.
  rewrite for_each_map. cbn [fst snd].
  destruct (for_each train_files _ s) as [[[] | e] s1]; [| done].
  rewrite for_each_map. cbn [fst snd].
  by destruct (for_each val_files _ s1) as [[[] | e] s2].
Qed.

(** Any path that is neither a destination nor above one is after
    [split_and_save] what it was before. *)
Lemma split_and_save_unchanged (img_path photo_path label_path : Path)
    (overwrite : bool) (s : FS) (p : Path) :
  p ∉ mkdir_chain [] (parent photo_path) ->
  p ∉ mkdir_chain [] (parent label_path) ->
  p <> photo_path -> p <> label_path ->
  snd (split_and_save img_path photo_path label_path overwrite s) !! p = s !! p.
Proof.
  intros H1 H2 H3 H4.
  pose proof (split_and_save_keeps img_path photo_path label_path overwrite s) as Hk.
  pose proof (split_and_save_touches_any img_path photo_path label_path overwrite s)
    as [_ Hnew].
  destruct (s !! p) as [n |] eqn:E.
  - apply Hk; [done |]. by intros [? | ?].
  - destruct (snd _ !! p) as [n |] eqn:E'; [| done].
    assert (Hs : is_Some (snd (split_and_save img_path photo_path label_path overwrite s)
                          !! p)) by (by rewrite E').
    by destruct (Hnew p E Hs) as [? | [? | [? | ?]]].
Qed.

(** An image that opens in one tree opens in a tree that has the same
    node at its path. *)
Lemma open_image_agree (s fs : FS) (p : Path) (img : Image) :
  s !! p = fs !! p -> open_image fs p = Ok img -> open_image s p = Ok img.
Proof.
  intros E. unfold open_image. destruct p as [| c q]; [done |]. cbn [node_at].
  rewrite E. by destruct (fs !! (c :: q)) as [[| [fmt im | payload |]] |].
Qed.

(** What a call that returned has done. *)
Lemma split_and_save_Ok_inv (img_path photo_path label_path : Path)
    (overwrite : bool) (s s' : FS) :
  photo_path <> label_path ->
  split_and_save img_path photo_path label_path overwrite s = (Ok tt, s') ->
  if skips s photo_path label_path overwrite then s' = s
  else exists img,
    open_image s img_path = Ok img /\ width img mod 2 = 0
    /\ s' !! photo_path = Some (File (ImageFile JPEG (encoded JPEG (photo_half img))))
    /\ s' !! label_path = Some (File (ImageFile PNG (label_half img))).
Proof.
  intros Hne. unfold split_and_save, skips. unfold bind at 1, get at 1.
  destruct (negb overwrite && path_exists s photo_path && path_exists s label_path).
  - by intros [= <-].
  - intros (img & s0 & Ho & H)%bind_Ok_inv.
    unfold Image_open in Ho. injection Ho as Ho <-.
    cbn [img_size] in H.
    destruct (Z.eqb_spec (width img mod 2) 0) as [Heven | Hodd]; [| done].
    cbn [negb] in H.
    apply bind_Ok_inv in H as ([] & s1 & _ & H).
    apply bind_Ok_inv in H as ([] & s2 & _ & H).
    apply bind_Ok_inv in H as ([] & s3 & H3 & H4).
    apply write_file_inv in H3 as [-> _]. apply write_file_inv in H4 as [-> _].
    exists img. split; [done |]. split; [done |]. split.
    + rewrite lookup_insert_ne by done. apply lookup_insert_eq.
    + apply lookup_insert_eq.
Qed.

Lemma dest_not_on_chain (out_dir : Path) (s s' k : string) (p : Path) :
  (photo_dest out_dir s p ∉ mkdir_chain [] (out_dir ++ [s'; k]))
  /\ (label_dest out_dir s p ∉ mkdir_chain [] (out_dir ++ [s'; k])).
Proof.
  split; intros H%mkdir_chain_length; revert H;
    unfold photo_dest, label_dest, child; rewrite !length_app; cbn; lia.
Qed.

Lemma skips_agree (s fs : FS) (photo_path label_path : Path) (overwrite : bool) :
  photo_path <> [] -> label_path <> [] ->
  s !! photo_path = fs !! photo_path -> s !! label_path = fs !! label_path ->
  skips s photo_path label_path overwrite = skips fs photo_path label_path overwrite.
Proof.
  intros H1 H2 E1 E2. unfold skips, path_exists.
  by rewrite !node_at_nonroot, E1, E2 by done.
Qed.

Lemma dest_nonroot (out_dir : Path) (s : string) (p : Path) :
  photo_dest out_dir s p <> [] /\ label_dest out_dir s p <> [].
Proof.
  unfold photo_dest, label_dest, child.
  split; intros H%(f_equal length); rewrite !length_app in H; cbn in H; lia.
Qed.

(** A path none of the calls of a loop of [split_and_save] writes to or
    makes is after the loop what it was before, however the loop ends. *)
Lemma loop_unchanged (out_dir : Path) (overwrite : bool)
    (items : list (string * Path)) (s : FS) (p : Path) :
  (forall x, x ∈ items ->
     (p ∉ mkdir_chain [] (parent (photo_dest out_dir (fst x) (snd x))))
     /\ (p ∉ mkdir_chain [] (parent (label_dest out_dir (fst x) (snd x))))
     /\ p <> photo_dest out_dir (fst x) (snd x)
     /\ p <> label_dest out_dir (fst x) (snd x)) ->
  snd (for_each items
         (fun x : string * Path =>
            split_and_save (snd x) (photo_dest out_dir (fst x) (snd x))
              (label_dest out_dir (fst x) (snd x)) overwrite) s) !! p
  = s !! p.
Proof.
  intros Hp.
  assert (HPO : PreOrder (fun a b : FS => b !! p = a !! p)).
  { split; [by intros a | intros a b c Hab Hbc; by rewrite Hbc]. }
  apply (for_each_rel (fun a b : FS => b !! p = a !! p)).
  intros x s1 Hx. destruct (Hp x Hx) as (H1 & H2 & H3 & H4).
  by apply split_and_save_unchanged.
Qed.

(** The loop over the pairs of a split and a source file: when the
    sources are no destinations and no two pairs share a destination,
    every pair is done as [split_done] says. *)
Lemma loop_outputs (out_dir : Path) (overwrite : bool) (fs0 : FS)
    (items : list (string * Path)) (s s' : FS) :
  NoDup items ->
  (forall x, x ∈ items ->
     is_Some (fs0 !! snd x)
     /\ ~ exists s k f, (k = "photo" \/ k = "label") /\ snd x = out_dir ++ [s; k; f]) ->
  (forall x y, x ∈ items -> y ∈ items ->
     photo_dest out_dir (fst x) (snd x) = photo_dest out_dir (fst y) (snd y)
     \/ label_dest out_dir (fst x) (snd x) = label_dest out_dir (fst y) (snd y) ->
     x = y) ->
  (forall x, x ∈ items ->
     s !! snd x = fs0 !! snd x
     /\ s !! photo_dest out_dir (fst x) (snd x)
        = fs0 !! photo_dest out_dir (fst x) (snd x)
     /\ s !! label_dest out_dir (fst x) (snd x)
        = fs0 !! label_dest out_dir (fst x) (snd x)) ->
  for_each items
    (fun x : string * Path =>
       split_and_save (snd x) (photo_dest out_dir (fst x) (snd x))
         (label_dest out_dir (fst x) (snd x)) overwrite) s = (Ok tt, s') ->
  forall x, x ∈ items -> split_done fs0 s' out_dir overwrite (fst x) (snd x).
Proof.
  revert s. induction items as [| x rest IH]; intros s Hnd Hsrc Hinj Hagree Hrun y Hy.
  { inversion Hy. }
  apply NoDup_cons in Hnd as [Hx Hnd].
  cbn [for_each] in Hrun. apply bind_Ok_inv in Hrun as ([] & s1 & Hbody & Hrest).
  assert (Hs1 : s1 = snd (split_and_save (snd x) (photo_dest out_dir (fst x) (snd x))
                            (label_dest out_dir (fst x) (snd x)) overwrite s))
    by (by rewrite Hbody).
  (* a destination of another pair is not touched by the call for [x] *)
  assert (Hother : forall z, z ∈ rest ->
            s1 !! photo_dest out_dir (fst z) (snd z)
              = s !! photo_dest out_dir (fst z) (snd z)
            /\ s1 !! label_dest out_dir (fst z) (snd z)
               = s !! label_dest out_dir (fst z) (snd z)).
  { intros z Hz.
    assert (Hzx : z <> x) by (by intros ->).
    destruct (dest_parents out_dir (fst x) (snd x)) as (Pp & Pl & _).
    rewrite Hs1. split; apply split_and_save_unchanged.
    - rewrite Pp. apply dest_not_on_chain.
    - rewrite Pl. apply dest_not_on_chain.
    - intros E. apply Hzx, Hinj; [by right | by left | by left].
    - apply photo_dest_not_label.
    - rewrite Pp. apply dest_not_on_chain.
    - rewrite Pl. apply dest_not_on_chain.
    - intros E. symmetry in E. by apply photo_dest_not_label in E.
    - intros E. apply Hzx, Hinj; [by right | by left | by right]. }
  apply elem_of_cons in Hy as [-> | Hy].
  - (* the pair [x] itself: done by its call, untouched by the rest *)
    destruct (Hagree x (ltac:(by left))) as (A1 & A2 & A3).
    destruct (dest_nonroot out_dir (fst x) (snd x)) as [N1 N2].
    pose proof (split_and_save_Ok_inv _ _ _ _ _ _
                  (photo_dest_not_label out_dir (fst x) (fst x) (snd x) (snd x)) Hbody)
      as Hdone.
    rewrite (skips_agree s fs0 _ _ overwrite N1 N2 A2 A3) in Hdone.
    assert (Hlater : s' !! photo_dest out_dir (fst x) (snd x)
                       = s1 !! photo_dest out_dir (fst x) (snd x)
                     /\ s' !! label_dest out_dir (fst x) (snd x)
                        = s1 !! label_dest out_dir (fst x) (snd x)).
    { replace s' with (snd (for_each rest
          (fun x0 : string * Path =>
             split_and_save (snd x0) (photo_dest out_dir (fst x0) (snd x0))
               (label_dest out_dir (fst x0) (snd x0)) overwrite) s1))
        by (by rewrite Hrest).
      split; apply loop_unchanged; intros z Hz;
        assert (Hzx : z <> x) by (by intros ->);
        destruct (dest_parents out_dir (fst z) (snd z)) as (Pp & Pl & _);
        rewrite Pp, Pl.
      - repeat split; try apply dest_not_on_chain.
        + intros E. apply Hzx, Hinj; [by right | by left | by left].
        + apply photo_dest_not_label.
      - repeat split; try apply dest_not_on_chain.
        + intros E. symmetry in E. by apply photo_dest_not_label in E.
        + intros E. apply Hzx, Hinj; [by right | by left | by right]. }
    destruct Hlater as [L1 L2]. unfold split_done. cbn zeta.
    destruct (skips fs0 _ _ overwrite).
    + subst s1. by rewrite L1, L2, Hdone, A2, A3.
    + destruct Hdone as (img & Ho & Heven & Hph & Hlb). exists img.
      rewrite L1, L2. repeat split; try done.
      by apply (open_image_agree fs0 s).
  - (* a later pair: by induction, from the state after the call for [x] *)
    apply (IH s1); try done.
    + intros z Hz. apply Hsrc. by right.
    + intros z w Hz Hw. apply Hinj; by right.
    + intros z Hz. destruct (Hagree z (ltac:(by right))) as (A1 & A2 & A3).
      destruct (Hother z Hz) as [O1 O2]. rewrite O1, O2. repeat split; try done.
      destruct (Hsrc z (ltac:(by right))) as [[n Hn] Hout].
      rewrite Hn, <- A1 in *. rewrite Hs1.
      rewrite (split_and_save_keeps _ _ _ _ _ _ _ A1); [by rewrite A1 |].
      destruct (dest_parents out_dir (fst x) (snd x)) as (_ & _ & [fp Fp] & [fl Fl]).
      intros [E | E]; apply Hout.
      * exists (fst x), "photo", fp. split; [by left | by rewrite E].
      * exists (fst x), "label", fl. split; [by right | by rewrite E].
Qed.

(** The pairs of a split and a collected file. *)
Lemma elem_of_pairs (train_files val_files : list Path) (x : string * Path) :
  x ∈ List.map (pair "train") train_files ++ List.map (pair "val") val_files <->
  (fst x = "train" /\ snd x ∈ train_files) \/ (fst x = "val" /\ snd x ∈ val_files).
Proof.
  rewrite elem_of_app, !list_elem_of_fmap. split.
  - intros [(p & -> & Hp) | (p & -> & Hp)]; [by left | by right].
  - destruct x as [k p]. cbn. intros [[-> Hp] | [-> Hp]]; [left | right]; by exists p.
Qed.

Lemma NoDup_pairs (train_files val_files : list Path) :
  NoDup train_files -> NoDup val_files ->
  NoDup (List.map (pair "train") train_files ++ List.map (pair "val") val_files).
Proof.
  intros Ht Hv. apply NoDup_app. split; [| split].
  - by apply (NoDup_fmap_2 _).
  - intros x (p & -> & _)%list_elem_of_fmap (q & [=] & _)%list_elem_of_fmap.
  - by apply (NoDup_fmap_2 _).
Qed.

(** A [.jpg] entry of a directory that has no entry named [.jpg]. *)
Lemma entry_name_not_jpg (fs : FS) (d p : Path) :
  fs !! (d ++ [".jpg"]) = None -> is_Some (fs !! p) -> is_entry d p ->
  name p <> ".jpg".
Proof.
  intros Hnone [n Hp] Hentry Hname.
  rewrite (entry_eq d p Hentry), Hname in Hp. congruence.
Qed.

(** The pairs of the loop over two collected lists: no pair twice, every
    source an existing file that is no destination, no destination
    shared. *)
Lemma collected_pairs (raw_dir out_dir : Path) (fs : FS) (tf vf : list Path) :
  lists_jpgs fs (child raw_dir "train") tf ->
  lists_jpgs fs (child raw_dir "val") vf ->
  fs !! (raw_dir ++ ["train"; ".jpg"]) = None ->
  fs !! (raw_dir ++ ["val"; ".jpg"]) = None ->
  NoDup (List.map (pair "train") tf ++ List.map (pair "val") vf)
  /\ (forall x, x ∈ List.map (pair "train") tf ++ List.map (pair "val") vf ->
       is_Some (fs !! snd x)
       /\ ~ exists s k f, (k = "photo" \/ k = "label") /\ snd x = out_dir ++ [s; k; f])
  /\ (forall x y,
        x ∈ List.map (pair "train") tf ++ List.map (pair "val") vf ->
        y ∈ List.map (pair "train") tf ++ List.map (pair "val") vf ->
        photo_dest out_dir (fst x) (snd x) = photo_dest out_dir (fst y) (snd y)
        \/ label_dest out_dir (fst x) (snd x) = label_dest out_dir (fst y) (snd y) ->
        x = y).
Proof.
  intros (_ & NDt & Mt) (_ & NDv & Mv) Ht Hv.
  assert (Hpair : forall x,
            x ∈ List.map (pair "train") tf ++ List.map (pair "val") vf ->
            (fst x = "train" \/ fst x = "val")
            /\ is_Some (fs !! snd x)
            /\ is_entry (child raw_dir (fst x)) (snd x)
            /\ endswith (name (snd x)) ".jpg" = true
            /\ name (snd x) <> ".jpg").
  { intros [k p] [[-> Hp] | [-> Hp]]%elem_of_pairs; cbn [fst snd] in *.
    - apply Mt in Hp as (Hs & He & Hj).
      split; [by left |]. split; [done |]. split; [done |]. split; [done |].
      apply (entry_name_not_jpg fs (child raw_dir "train")); try done.
      unfold child. by rewrite <- app_assoc.
    - apply Mv in Hp as (Hs & He & Hj).
      split; [by right |]. split; [done |]. split; [done |]. split; [done |].
      apply (entry_name_not_jpg fs (child raw_dir "val")); try done.
      unfold child. by rewrite <- app_assoc. }
  split; [by apply NoDup_pairs |]. split.
  - intros x Hx. destruct (Hpair x Hx) as (Hk & Hs & He & _). split; [done |].
    by apply (entry_not_output raw_dir out_dir (fst x)).
  - intros x y Hx Hy Hsame.
    destruct (Hpair x Hx) as (_ & _ & Hex & Hjx & Hnx).
    destruct (Hpair y Hy) as (_ & _ & Hey & Hjy & Hny).
    assert (Hks : fst x = fst y /\ stem (name (snd x)) = stem (name (snd y))).
    { destruct Hsame as [E | E]; [by apply photo_dest_inj in E | by apply label_dest_inj in E]. }
    destruct Hks as [Hk Hst]. apply stem_inj_jpg in Hst; try done.
    destruct x as [k p], y as [k' q]. cbn [fst snd] in *. subst k'.
    by rewrite (entry_eq _ p Hex), (entry_eq _ q Hey), Hst.
Qed.

Lemma elem_of_splits (tf vf files : list Path) (split : string) (p : Path) :
  (split, files) ∈ [("train", tf); ("val", vf)] -> p ∈ files ->
  (split, p) ∈ List.map (pair "train") tf ++ List.map (pair "val") vf.
Proof.
  intros Hsplit Hp. apply elem_of_pairs. cbn [fst snd].
  apply elem_of_cons in Hsplit as [[= -> ->] | Hsplit]; [by left |].
  apply elem_of_cons in Hsplit as [[= -> ->] | Hsplit]; [by right |].
  inversion Hsplit.
Qed.

(** After a run that returned, every collected file is done. *)
Lemma process_dataset_done (raw_dir out_dir : Path) (overwrite : bool)
    (fs fs1 : FS) (splits : dict (list Path)) :
  process_dataset raw_dir out_dir overwrite fs = (Ok splits, fs1) ->
  fs !! (raw_dir ++ ["train"; ".jpg"]) = None ->
  fs !! (raw_dir ++ ["val"; ".jpg"]) = None ->
  forall split files img_path,
    (split, files) ∈ splits -> img_path ∈ files ->
    split_done fs fs1 out_dir overwrite split img_path.
Proof.
  intros Hrun Ht Hv split files img_path Hsplit Himg.
  unfold process_dataset in Hrun.
  apply bind_Ok_inv in Hrun as (splits' & fs0 & Hc & Hrun).
  apply bind_Ok_inv in Hrun as ([] & fs1' & Hloop & [= -> ->]).
  apply collect_files_Ok in Hc as (-> & -> & Dt & Dv).
  destruct (collected_pairs raw_dir out_dir fs _ _
              (sorted_glob_lists fs _ Dt) (sorted_glob_lists fs _ Dv) Ht Hv)
    as (Hnd & Hsrc & Hinj).
  rewrite process_loops in Hloop.
  apply (loop_outputs out_dir overwrite fs _ fs fs1 Hnd Hsrc Hinj)
    with (x := (split, img_path)); try done.
  by apply (elem_of_splits _ _ files).
Qed.

(** X17.  After a run that returned, every collected file is done: its two
    destinations hold the two halves of the source image, or were left
    alone because both were there and [overwrite] was off; and the source
    file itself is what it was.  A source named [.jpg] is ruled out: its
    destinations are those of [.jpg.jpg]. *)
Theorem process_dataset_outputs (raw_dir out_dir : Path) (overwrite : bool)
    (fs fs1 : FS) (splits : dict (list Path)) :
  process_dataset raw_dir out_dir overwrite fs = (Ok splits, fs1) ->
  fs !! (raw_dir ++ ["train"; ".jpg"]) = None ->
  fs !! (raw_dir ++ ["val"; ".jpg"]) = None ->
  forall split files img_path,
    (split, files) ∈ splits -> img_path ∈ files ->
    split_done fs fs1 out_dir overwrite split img_path
    /\ fs1 !! img_path = fs !! img_path
    /\ photo_dest out_dir split img_path <> label_dest out_dir split img_path.
Proof.
  intros Hrun Ht Hv split files img_path Hsplit Himg.
  split; [by apply (process_dataset_done raw_dir _ _ _ _ splits Hrun Ht Hv split files) |].
  split; [| apply photo_dest_not_label].
  pose proof (process_dataset_post _ _ _ _ _ _ Hrun) as (Hc & _).
  apply collect_files_Ok in Hc as (_ & -> & Dt & Dv).
  assert (Hentry : (split = "train" \/ split = "val")
                   /\ is_Some (fs !! img_path)
                   /\ is_entry (child raw_dir split) img_path).
  { apply elem_of_cons in Hsplit as [[= -> ->] | Hsplit].
    - apply (sorted_glob_lists fs _ Dt) in Himg as (Hs & He & _). by split; [left |].
    - apply elem_of_cons in Hsplit as [[= -> ->] | Hsplit]; [| inversion Hsplit].
      apply (sorted_glob_lists fs _ Dv) in Himg as (Hs & He & _). by split; [right |]. }
  destruct Hentry as (Hk & [n Hn] & He).
  rewrite Hn. replace fs1 with (snd (process_dataset raw_dir out_dir overwrite fs))
    by (by rewrite Hrun).
  apply process_dataset_keeps; [done |]. by apply (entry_not_output raw_dir out_dir split).
Qed.

(** No call of [split_and_save] makes or removes a file anywhere but at
    its two destinations. *)
Lemma split_and_save_files (img_path photo_path label_path : Path)
    (overwrite : bool) (s : FS) (d : Path) :
  d <> photo_path -> d <> label_path ->
  is_file (snd (split_and_save img_path photo_path label_path overwrite s)) d
  = is_file s d.
Proof.
  intros H1 H2.
  assert (HPO : PreOrder (fun a b : FS => is_file b d = is_file a d)).
  { split; [by intros a | intros a b c Hab Hbc; by rewrite Hbc]. }
  apply (split_and_save_steps (fun a b : FS => is_file b d = is_file a d)).
  - intros s0. destruct (mkdir_parents (parent photo_path) s0) as [[[] | e] s1] eqn:E.
    + apply mkdir_parents_inv in E as (_ & L & _). apply (made_file _ _ _ L).
    + by apply mkdir_parents_raise in E as ->.
  - intros s0. destruct (mkdir_parents (parent label_path) s0) as [[[] | e] s1] eqn:E.
    + apply mkdir_parents_inv in E as (_ & L & _). apply (made_file _ _ _ L).
    + by apply mkdir_parents_raise in E as ->.
  - intros x s0. destruct (write_file photo_path x s0) as [[[] | e] s1] eqn:E.
    + apply write_file_inv in E as [-> _]. cbn [snd]. unfold is_file.
      by rewrite lookup_insert_ne.
    + by apply write_file_raise in E as ->.
  - intros x s0. destruct (write_file label_path x s0) as [[[] | e] s1] eqn:E.
    + apply write_file_inv in E as [-> _]. cbn [snd]. unfold is_file.
      by rewrite lookup_insert_ne.
    + by apply write_file_raise in E as ->.
Qed.

(** A destination can be written in [s] when it can in [fs], if the two
    agree on it and on the files above it. *)
Lemma can_write_agree (s fs : FS) (p q : Path) :
  p <> [] -> s !! p = fs !! p ->
  (forall d, (length d < length p)%nat -> is_file s d = is_file fs d) ->
  can_write fs p q = true -> can_write s p q = true.
Proof.
  intros Hp Ep Hfiles. unfold can_write, can_mkdir, is_dir.
  rewrite !node_at_nonroot, Ep by done.
  intros [[H1 H2]%andb_true_iff H3]%andb_true_iff.
  rewrite H2, H3, !andb_true_r.
  rewrite forallb_forall in H1 |- *. intros d Hd.
  rewrite Hfiles; [by apply H1 |].
  apply list_elem_of_In, mkdir_chain_length in Hd.
  rewrite (parent_length p Hp). cbn in Hd. lia.
Qed.

(** The loop over the pairs of a split and a source file returns when
    every source is an image of even width and every destination can be
    written. *)
Lemma loop_returns (out_dir : Path) (overwrite : bool) (fs0 : FS)
    (items : list (string * Path)) (s : FS) :
  NoDup items ->
  (forall x, x ∈ items ->
     is_Some (fs0 !! snd x)
     /\ ~ exists s k f, (k = "photo" \/ k = "label") /\ snd x = out_dir ++ [s; k; f]) ->
  (forall x y, x ∈ items -> y ∈ items ->
     photo_dest out_dir (fst x) (snd x) = photo_dest out_dir (fst y) (snd y)
     \/ label_dest out_dir (fst x) (snd x) = label_dest out_dir (fst y) (snd y) ->
     x = y) ->
  (forall x, x ∈ items ->
     (exists img, open_image fs0 (snd x) = Ok img /\ width img mod 2 = 0)
     /\ can_write fs0 (photo_dest out_dir (fst x) (snd x))
          (label_dest out_dir (fst x) (snd x)) = true
     /\ can_write fs0 (label_dest out_dir (fst x) (snd x))
          (photo_dest out_dir (fst x) (snd x)) = true) ->
  (forall x, x ∈ items ->
     s !! snd x = fs0 !! snd x
     /\ s !! photo_dest out_dir (fst x) (snd x)
        = fs0 !! photo_dest out_dir (fst x) (snd x)
     /\ s !! label_dest out_dir (fst x) (snd x)
        = fs0 !! label_dest out_dir (fst x) (snd x)) ->
  (forall d, (length d < length out_dir + 3)%nat -> is_file s d = is_file fs0 d) ->
  exists s',
    for_each items
      (fun x : string * Path =>
         split_and_save (snd x) (photo_dest out_dir (fst x) (snd x))
           (label_dest out_dir (fst x) (snd x)) overwrite) s = (Ok tt, s').
Proof.
  revert s. induction items as [| x rest IH];
    intros s Hnd Hsrc Hinj Hgood Hagree Hfiles; [by eexists |].
  apply NoDup_cons in Hnd as [Hx Hnd].
  destruct (Hagree x (ltac:(by left))) as (A1 & A2 & A3).
  destruct (Hgood x (ltac:(by left))) as ((img & Hopen & Heven) & Wp & Wl).
  destruct (dest_nonroot out_dir (fst x) (snd x)) as [N1 N2].
  assert (Hlen : length (photo_dest out_dir (fst x) (snd x)) = (length out_dir + 3)%nat
                 /\ length (label_dest out_dir (fst x) (snd x)) = (length out_dir + 3)%nat).
  { unfold photo_dest, label_dest, child. rewrite !length_app. cbn. lia. }
  destruct Hlen as [Lp Ll].
  (* the call for [x] returns *)
  assert (Hbody : exists s1,
            split_and_save (snd x) (photo_dest out_dir (fst x) (snd x))
              (label_dest out_dir (fst x) (snd x)) overwrite s = (Ok tt, s1)).
  { destruct (skips s (photo_dest out_dir (fst x) (snd x))
                (label_dest out_dir (fst x) (snd x)) overwrite) eqn:Hskip.
    - exists s. unfold skips in Hskip. unfold split_and_save, bind, get.
      by rewrite Hskip.
    - destruct (split_and_save_writes (snd x) _ _ overwrite s img Hskip)
        as (s1 & Hrun & _); try done.
      + by apply (open_image_agree s fs0).
      + apply (can_write_agree s fs0); try done.
        intros d Hd. apply Hfiles. lia.
      + apply (can_write_agree s fs0); try done.
        intros d Hd. apply Hfiles. lia.
      + apply photo_dest_not_label.
      + by exists s1. }
  destruct Hbody as [s1 Hbody].
  assert (Hs1 : s1 = snd (split_and_save (snd x) (photo_dest out_dir (fst x) (snd x))
                            (label_dest out_dir (fst x) (snd x)) overwrite s))
    by (by rewrite Hbody).
  destruct (IH s1) as [s' Hrest]; try done.
  - intros z Hz. apply Hsrc. by right.
  - intros z w Hz Hw. apply Hinj; by right.
  - intros z Hz. apply Hgood. by right.
  - intros z Hz. destruct (Hagree z (ltac:(by right))) as (B1 & B2 & B3).
    assert (Hzx : z <> x) by (by intros ->).
    destruct (dest_parents out_dir (fst x) (snd x)) as (Pp & Pl & [fp Fp] & [fl Fl]).
    rewrite <- B1, <- B2, <- B3, Hs1. split; [| split].
    + destruct (Hsrc z (ltac:(by right))) as [[n Hn] Hout].
      rewrite <- B1 in Hn. rewrite Hn.
      apply split_and_save_keeps; [done |].
      intros [E | E]; apply Hout.
      * exists (fst x), "photo", fp. split; [by left | by rewrite E].
      * exists (fst x), "label", fl. split; [by right | by rewrite E].
    + apply split_and_save_unchanged.
      * rewrite Pp. apply dest_not_on_chain.
      * rewrite Pl. apply dest_not_on_chain.
      * intros E. apply Hzx, Hinj; [by right | by left | by left].
      * apply photo_dest_not_label.
    + apply split_and_save_unchanged.
      * rewrite Pp. apply dest_not_on_chain.
      * rewrite Pl. apply dest_not_on_chain.
      * intros E. symmetry in E. by apply photo_dest_not_label in E.
      * intros E. apply Hzx, Hinj; [by right | by left | by right].
  - intros d Hd. rewrite <- Hfiles by done. rewrite Hs1.
    apply split_and_save_files; intros ->; lia.
  - exists s'. cbn [for_each]. unfold bind. by rewrite Hbody.
Qed.

(** X18.  [process_dataset] returns, with both outputs of every collected file
    in place, whenever the files were collected, each of them is an image
    of even width, no file stands where an output directory is needed and
    no destination is a directory. *)
Theorem process_dataset_returns (raw_dir out_dir : Path) (overwrite : bool)
    (fs : FS) (splits : dict (list Path)) :
  collect_files raw_dir fs = (Ok splits, fs) ->
  fs !! (raw_dir ++ ["train"; ".jpg"]) = None ->
  fs !! (raw_dir ++ ["val"; ".jpg"]) = None ->
  (forall split files img_path,
     (split, files) ∈ splits -> img_path ∈ files ->
     (exists img, open_image fs img_path = Ok img /\ width img mod 2 = 0)
     /\ can_mkdir fs (out_dir ++ [split; "photo"]) = true
     /\ can_mkdir fs (out_dir ++ [split; "label"]) = true
     /\ is_dir fs (photo_dest out_dir split img_path) = false
     /\ is_dir fs (label_dest out_dir split img_path) = false) ->
  exists fs1,
    process_dataset raw_dir out_dir overwrite fs = (Ok splits, fs1)
    /\ processed fs1 out_dir splits.
Proof.
  intros Hc Ht Hv Hgood.
  pose proof (collect_files_Ok _ _ _ _ Hc) as (_ & Hsplits & Dt & Dv).
  destruct (collected_pairs raw_dir out_dir fs _ _
              (sorted_glob_lists fs _ Dt) (sorted_glob_lists fs _ Dv) Ht Hv)
    as (Hnd & Hsrc & Hinj).
  destruct (loop_returns out_dir overwrite fs _ fs Hnd Hsrc Hinj) as [fs1 Hloop];
    try done.
  { intros [k p] Hx. cbn [fst snd].
    assert (Hin : exists files, (k, files) ∈ splits /\ p ∈ files).
    { rewrite Hsplits.
      apply elem_of_pairs in Hx as [[Hk Hp] | [Hk Hp]]; cbn [fst snd] in Hk, Hp;
        subst k; eexists; (split; [| exact Hp]).
      - by left.
      - right. by left. }
    destruct Hin as (files & Hfiles & Hp).
    destruct (Hgood k files p Hfiles Hp) as (Himg & Mp & Ml & Dp & Dl).
    destruct (dest_parents out_dir k p) as (Pp & Pl & _).
    split; [done |]. unfold can_write. rewrite Pp, Pl, Mp, Ml, Dp, Dl. cbn [negb andb].
    split; apply negb_true_iff, bool_decide_eq_false; apply dest_not_on_chain. }
  assert (Hrun : process_dataset raw_dir out_dir overwrite fs = (Ok splits, fs1)).
  { unfold process_dataset. rewrite (bind_Ok _ _ _ _ _ Hc). unfold bind.
    rewrite Hsplits at 1. rewrite process_loops, Hloop. done. }
  exists fs1. split; [exact Hrun |].
  by apply process_dataset_post in Hrun as (_ & _ & Hdone).
Qed.
End Outputs.

(** ** From the raw tree to a sample *)

Section EndToEnd.
Import PathLib.
Context {K : Kernels}.





End EndToEnd.

(** ** Concrete runs of the further properties *)

(** A 300 x 286 pair cropped to 256: offsets [7 mod 31] and [11 mod 45]. *)
Lemma random_crop_pair_window_witness :
  exists i j g',
    _random_crop_pair (gradient 300 286) (gradient 300 286) 256 rng0
    = (Ok (F.crop (gradient 300 286) i j 256 256,
           F.crop (gradient 300 286) i j 256 256), g')
    /\ 0 <= i <= 30 /\ 0 <= j <= 44
    /\ img_size (F.crop (gradient 300 286) i j 256 256) = (256, 256).
Proof.
  destruct (random_crop_pair_window (gradient 300 286) (gradient 300 286) 256 rng0)
    as [_ Hfits].
  destruct Hfits as (i & j & g' & Hrun & Hi & Hj & Hsize & _);
    [lia | reflexivity | cbn; lia | cbn; lia |].
  exists i, j, g'. split; [exact Hrun |]. split; [exact Hi |]. split; [exact Hj | exact Hsize].
Defined.

(** The jitter transform on a 512 x 256 pair: the draw [1] flips both. *)
Lemma transform_is_synchronized_witness :
  exists (label_t photo_t : Tensor) (l1 p1 : Image),
    label_t = F.to_tensor (F.hflip l1)
    /\ normalize_photo (F.to_tensor (F.hflip p1)) "tanh" = Ok photo_t
    /\ img_size l1 = (256, 256) /\ img_size p1 = (256, 256).
Proof.
  destruct (build_transform 256 true "tanh" true
              (gradient 512 256) (gradient 512 256) rng0)
    as [[[label_t photo_t] | e] g'] eqn:Hrun; [| discriminate Hrun].
  destruct (transform_is_synchronized _ _ _ _ _ _ _ _ _ _ Hrun)
    as (l1 & p1 & flip & Hgeo & Hflip & Hl & Hp).
  vm_compute in Hflip. subst flip.
  destruct Hgeo as (l0 & p0 & i & j & _ & _ & -> & -> & _).
  exists label_t, photo_t, (F.crop l0 i j 256 256), (F.crop p0 i j 256 256).
  split; [exact Hl |]. split; [exact Hp |].
  split; unfold img_size, F.crop, Imaging.crop; cbn [width height]; f_equal; lia.
Defined.

(** A transform built with the mode [gan] fails on a 4 x 4 pair. *)
Lemma unsupported_mode_never_returns_witness :
  fst (build_transform 4 false "gan" false (gradient 4 4) (gradient 4 4) rng0)
  = Raise (ValueError (UnsupportedNormalizeMode "gan")).
Proof.
  destruct (unsupported_mode_never_returns (K := toy_kernels) "gan")
    as (_ & _ & Hraise); [discriminate | discriminate |].
  apply (Hraise 4 false (gradient 4 4) (gradient 4 4) rng0
           (gradient 4 4) (gradient 4 4)); reflexivity.
Defined.

(** The [01] and the [tanh] transform on the same 512 x 256 pair. *)
Lemma mode_only_rescales_photo_witness :
  exists (label_t photo_t : Tensor) (g' : Rng),
    build_transform 256 true "tanh" true (gradient 512 256) (gradient 512 256) rng0
    = (Ok (label_t, tmap (fun v => f32_div (f32_sub v half) half) photo_t), g')
    /\ shape photo_t = (3, 256, 256).
Proof.
  destruct (build_transform 256 true "01" true
              (gradient 512 256) (gradient 512 256) rng0)
    as [[[label_t photo_t] | e] g'] eqn:Hrun; [| discriminate Hrun].
  exists label_t, photo_t, g'.
  split; [exact (mode_only_rescales_photo _ _ _ _ _ _ _ _ _ Hrun) |].
  injection Hrun as _ <- _. reflexivity.
Defined.

(** Without jitter and flip nothing is drawn. *)
Lemma transform_random_draws_witness :
  torch_draws (snd (build_transform 4 false "tanh" false
                      (gradient 4 4) (gradient 4 4) rng0)) = [7; 11]
  /\ python_draws (snd (build_transform 4 false "tanh" false
                         (gradient 4 4) (gradient 4 4) rng0)) = [1].
Proof.
  destruct (transform_random_draws 4 false "tanh" false (gradient 4 4) (gradient 4 4) rng0)
    as (Ht & Hp & _).
  split; [apply Ht; reflexivity | apply Hp; reflexivity].
Defined.

(** The sample of [1.jpg] in the prepared tree. *)
Lemma getitem_sample_witness :
  exists (s : Sample) (photo0 label0 : Image),
    list_getitem (files train_set) 0 = Ok (Dataset.name s)
    /\ label s = VImage (convert_RGB label0)
    /\ photo s = VImage (convert_RGB photo0).
Proof.
  assert (Hok : match fst (__getitem__ train_set prepared_tree 0 rng0) with
                | Ok _ => True
                | Raise _ => False
                end) by (vm_compute; exact I).
  destruct (__getitem__ train_set prepared_tree 0 rng0) as [[s | e] g'] eqn:Hrun;
    [| destruct Hok].
  destruct (getitem_sample _ _ _ _ _ _ Hrun)
    as (Hname & photo0 & label0 & _ & _ & Hl & Hp & _).
  exists s, photo0, label0. split; [exact Hname |]. split; [exact Hl | exact Hp].
Defined.

(** On the raw tree, where nothing is prepared, the photo is missing. *)
Lemma getitem_open_errors_witness :
  __getitem__ train_set raw_tree 0 rng0
  = (Raise (FileNotFoundError
              (NoSuchFile ["data"; "processed"; "train"; "photo"; "1_photo.jpg"])), rng0).
Proof.
  destruct (getitem_open_errors train_set raw_tree 0 rng0 "1.jpg")
    as (_ & _ & Hmissing & _); [reflexivity |].
  apply Hmissing; vm_compute; reflexivity.
Defined.

(** The index of [raw_tree], written and read back for [train]. *)
Lemma split_file_roundtrip_witness :
  exists ds,
    fst (__init__ ["data"] "train" split_file None
           (snd (write_split_file split_file raw_splits raw_tree))) = Ok ds
    /\ files ds = ["1.jpg"] /\ __len__ ds = 1.
Proof.
  assert (Hwrite : fst (write_split_file split_file raw_splits raw_tree) = Ok tt)
    by (vm_compute; reflexivity).
  apply run_pair in Hwrite.
  destruct (split_file_roundtrip _ _ _ _ ["data"] "train" None Hwrite)
    as (ds & Hinit & Hfiles & Hlen & _).
  exists ds. rewrite Hinit. split; [reflexivity |]. split; [exact Hfiles | exact Hlen].
Defined.

(** The sample of [1.jpg] through the transform: two 3 x 2 x 2 tensors. *)
Lemma getitem_tensors_witness :
  exists (s : Sample) (label_t photo_t : Tensor),
    label s = VTensor label_t /\ photo s = VTensor photo_t
    /\ channels label_t = 3 /\ channels photo_t = 3.
Proof.
  assert (Hok : match fst (__getitem__ train_tensor_set prepared_tree 0 rng0) with
                | Ok _ => True
                | Raise _ => False
                end) by (vm_compute; exact I).
  destruct (__getitem__ train_tensor_set prepared_tree 0 rng0) as [[s | e] g'] eqn:Hrun;
    [| destruct Hok].
  destruct (getitem_tensors train_tensor_set prepared_tree 0 rng0 g' s
              2 false "tanh" false eq_refl Hrun)
    as (label_t & photo_t & Hl & Hp & Hcl & Hcp & _).
  exists s, label_t, photo_t. repeat split; assumption.
Defined.

(** Splitting [1.jpg] of [raw_tree]: the source still opens as before. *)
Lemma split_and_save_frame_witness :
  open_image
    (snd (split_and_save ["raw"; "train"; "1.jpg"]
            (photo_dest out_dir "train" ["raw"; "train"; "1.jpg"])
            (label_dest out_dir "train" ["raw"; "train"; "1.jpg"]) false raw_tree))
    ["raw"; "train"; "1.jpg"]
  = Ok (gradient 4 2).
Proof.
  destruct (split_and_save_frame ["raw"; "train"; "1.jpg"]
              (photo_dest out_dir "train" ["raw"; "train"; "1.jpg"])
              (label_dest out_dir "train" ["raw"; "train"; "1.jpg"]) false raw_tree)
    as (_ & _ & Hsrc); [reflexivity | reflexivity | reflexivity |].
  apply Hsrc; [vm_compute; reflexivity | discriminate | discriminate].
Defined.

(** With the output directory inside [raw/train] itself, [1.jpg] stays. *)
Lemma sources_left_alone_witness :
  snd (process_dataset ["raw"] ["raw"; "train"] true raw_tree) !! ["raw"; "train"; "1.jpg"]
  = Some (File (ImageFile JPEG (gradient 4 2))).
Proof.
  destruct (sources_left_alone ["raw"] ["raw"; "train"] split_file true raw_tree
              "train" ["raw"; "train"; "1.jpg"] (File (ImageFile JPEG (gradient 4 2))))
    as [Hrun _];
    [reflexivity | reflexivity | reflexivity | reflexivity | by left | by split
    | vm_compute; reflexivity |].
  exact Hrun.
Defined.

(** The label destination of [1.jpg] is a directory: the photo is written,
    then the call fails. *)
Lemma split_and_save_partial_write_witness :
  exists fs',
    split_and_save ["raw"; "train"; "1.jpg"]
      (photo_dest out_dir "train" ["raw"; "train"; "1.jpg"])
      (label_dest out_dir "train" ["raw"; "train"; "1.jpg"]) false blocked_tree
    = (Raise (IsADirectoryError (label_dest out_dir "train" ["raw"; "train"; "1.jpg"])), fs')
    /\ path_exists fs' (photo_dest out_dir "train" ["raw"; "train"; "1.jpg"]) = true.
Proof.
  destruct (split_and_save_partial_write ["raw"; "train"; "1.jpg"]
              (photo_dest out_dir "train" ["raw"; "train"; "1.jpg"])
              (label_dest out_dir "train" ["raw"; "train"; "1.jpg"])
              false blocked_tree (gradient 4 2))
    as (fs' & Hrun & _ & Hphoto & _);
    [reflexivity | reflexivity | reflexivity | reflexivity | reflexivity | reflexivity |].
  exists fs'. split; [exact Hrun | exact Hphoto].
Defined.

(** The index of [raw_tree] written into the fresh directory [data/splits]. *)
Lemma write_split_file_writes_witness :
  exists fs',
    write_split_file split_file raw_splits raw_tree = (Ok tt, fs')
    /\ json_load fs' split_file = Ok [("train", ["1.jpg"]); ("val", ["2.jpg"])].
Proof.
  destruct (write_split_file_writes split_file raw_splits raw_tree)
    as (fs' & Hrun & _);
    [reflexivity | vm_compute; reflexivity | vm_compute; reflexivity |].
  exists fs'. exact Hrun.
Defined.

(** [raw/train/1.jpg] goes to [1_photo.jpg] and [1_label.png]. *)
Lemma destinations_named_by_stem_witness :
  photo_dest out_dir "train" ["raw"; "train"; "1.jpg"]
  = ["data"; "processed"; "train"; "photo"; "1_photo.jpg"]
  /\ label_dest out_dir "train" ["raw"; "train"; "1.jpg"]
     = ["data"; "processed"; "train"; "label"; "1_label.png"].
Proof.
  destruct (destinations_named_by_stem out_dir "train"
              ["raw"; "train"; "1.jpg"])
    as (base & _ & Hname & Hphoto & Hlabel & _); [reflexivity | discriminate |].
  change (PathLib.name ["raw"; "train"; "1.jpg"]) with ("1" +:+ ".jpg") in Hname.
  apply string_app_inv_tail in Hname as <-.
  split; [exact Hphoto | exact Hlabel].
Defined.

(** A run over [raw_tree] with [overwrite] on: the label of [1.jpg] is
    the right half of the source. *)
Lemma process_dataset_outputs_witness :
  snd (process_dataset ["raw"] out_dir true raw_tree)
    !! label_dest out_dir "train" ["raw"; "train"; "1.jpg"]
  = Some (File (ImageFile PNG (label_half (gradient 4 2)))).
Proof.
  assert (Hrun : fst (process_dataset ["raw"] out_dir true raw_tree) = Ok raw_splits)
    by (vm_compute; reflexivity).
  apply run_pair in Hrun.
  destruct (process_dataset_outputs _ _ _ _ _ _ Hrun eq_refl eq_refl
              "train" [["raw"; "train"; "1.jpg"]] ["raw"; "train"; "1.jpg"])
    as ((img & Hopen & _ & _ & Hlabel) & _); [by left | by left |].
  injection Hopen as <-. exact Hlabel.
Defined.


(** A 4 x 4 pair at size 4, no flip: the label tensor holds the pixels,
    the byte 2 as the binary32 number nearest to [2/255]. *)
Lemma transform_without_resampling_witness :
  exists label_t photo_t g',
    build_transform 4 false "tanh" false (gradient 4 4) (gradient 4 4) rng0
    = (Ok (label_t, photo_t), g')
    /\ item label_t 0 1 2 = Finite (8421505 # 1073741824)
    /\ item photo_t 0 1 2 = Finite (-4128511 # 4194304).
Proof.
  destruct (transform_without_resampling 4 "tanh" false (gradient 4 4) (gradient 4 4) rng0)
    as (label_t & photo_t & g' & Hrun & _ & _ & Hitem & _);
    [cbn; lia | cbn; lia | reflexivity | reflexivity | by left |].
  exists label_t, photo_t, g'. split; [exact Hrun |].
  destruct (Hitem 0 1 2) as [Hl Hp]. rewrite Hl, Hp.
  split; vm_compute; reflexivity.
Defined.

(** After a run over [raw_tree], [raw/train/1.jpg] is still there. *)
Lemma runs_create_only_outputs_witness :
  is_Some (snd (process_dataset ["raw"] out_dir false raw_tree)
             !! ["raw"; "train"; "1.jpg"])
  /\ is_Some (snd (main ["raw"] out_dir split_file false raw_tree)
               !! ["raw"; "train"; "1.jpg"]).
Proof.
  destruct (runs_create_only_outputs ["raw"] out_dir split_file false raw_tree)
    as (Hstay & _); [reflexivity | reflexivity | reflexivity |].
  apply Hstay. eexists. vm_compute. reflexivity.
Defined.

(** A run over [raw_tree] returns. *)
Lemma process_dataset_returns_witness :
  exists fs1,
    process_dataset ["raw"] out_dir false raw_tree = (Ok raw_splits, fs1)
    /\ processed fs1 out_dir raw_splits.
Proof.
  assert (Hc : fst (collect_files ["raw"] raw_tree) = Ok raw_splits)
    by (vm_compute; reflexivity).
  apply (run_unchanged _ _ _ (collect_files_state ["raw"] raw_tree)) in Hc.
  apply (process_dataset_returns ["raw"] out_dir false raw_tree raw_splits Hc).
  1, 2: vm_compute; reflexivity.
  intros split files img_path Hsplit Himg.
  apply elem_of_cons in Hsplit as [[= -> ->] | Hsplit].
  - apply list_elem_of_singleton in Himg as ->.
    split; [exists (gradient 4 2); split; vm_compute; reflexivity |].
    split; [vm_compute; reflexivity |].
    split; [vm_compute; reflexivity |].
    split; vm_compute; reflexivity.
  - apply list_elem_of_singleton in Hsplit as [= -> ->].
    apply list_elem_of_singleton in Himg as ->.
    split; [exists (gradient 6 3); split; vm_compute; reflexivity |].
    split; [vm_compute; reflexivity |].
    split; [vm_compute; reflexivity |].
    split; vm_compute; reflexivity.
Defined.
